(** * CAE automation portfolio: sweep controller, threshold analyzer,
      data reduction engine and report aggregator

    Shallow embedding of

      - [src/Spall Fracture Modeling System/spall_fracture_system.py]
        ([SpallFractureSystem.run_analysis], [_extract_results],
        [_save_velocity_results], [_generate_summary_report],
        [SpallFractureResults.analyze]) and
      - [src/postprocessing_system.py]
        ([PostProcessingSystem._extract_field_data],
        [_extract_history_data], [process_odb_file], [_save_results],
        [_create_plots], [batch_process], [_create_batch_summary],
        [generate_report], [_create_html_report],
        [PostProcessingResults.get_max_stress], [get_max_strain],
        [get_summary_statistics]).

    Modelling conventions.

      - Python numbers ([float], [int]) are exact rationals [Q]; the
        rounding of binary floating point and NaN are outside the model,
        and the one result that depends on the rounding, [np.mean], is
        kept as the call ([Py.np_mean]) and never evaluated.
        Numeric equality ([==] in Python) is [Qeq]; membership of a value
        in a list is stated with Leibniz equality when the code returns an
        element of the list itself.
      - A Python [dict] whose iteration order matters is an association
        list in insertion order ([dict_get], [dict_set]); the file system is
        a finite map from path strings to nodes, where a file has the
        directories on the way to it (module [FS]).
      - A raised exception is the [Raise] case of [result]; code that
        mutates the outside world threads a [World] explicitly.
      - The two extraction methods are embedded twice: as functions from
        values to values ([PostProc]), and statement by statement over a
        store of mutable objects ([PostProcStore]); the second is shown
        to follow the first.
      - Calls into Abaqus, pandas and matplotlib are black boxes of an
        environment record: they may raise and may change what they are
        given, and nothing else is assumed of them.
      - Console output ([print]) is not modelled. *)

From Stdlib Require Import ZArith QArith List Ascii String Lia.
From Stdlib Require Import DecimalString DecimalZ.
From stdpp Require Import gmap strings.
Import ListNotations.

Local Open Scope Q_scope.

(** ** Python run-time model *)

(** Exceptions the modelled code can raise, with the text [str(e)] gives. *)
Inductive exception : Type :=
| RuntimeError (msg : string)
| ValueError (msg : string)
| IndexError (msg : string)
| KeyError (key : string)
| AttributeError (msg : string)
| TypeError (msg : string)
| FileExistsError (path : string)
| IsADirectoryError (path : string)
| NotADirectoryError (path : string)
| FileNotFoundError (path : string)
| AbaqusError (msg : string).

Definition exception_str (e : exception) : string :=
  match e with
  | RuntimeError msg | ValueError msg | IndexError msg
  | AttributeError msg | TypeError msg | AbaqusError msg => msg
  | KeyError key => "'" +:+ key +:+ "'"
  | FileExistsError path => "[Errno 17] File exists: '" +:+ path +:+ "'"
  | IsADirectoryError path => "[Errno 21] Is a directory: '" +:+ path +:+ "'"
  | NotADirectoryError path => "[Errno 20] Not a directory: '" +:+ path +:+ "'"
  | FileNotFoundError path =>
      "[Errno 2] No such file or directory: '" +:+ path +:+ "'"
  end.

Inductive result (A : Type) : Type :=
| Ok (a : A)
| Raise (e : exception).
Arguments Ok {A} a.
Arguments Raise {A} e.

(** Sequencing: the first exception raised ends the computation. The
    notation [x ← r; k] is the one of stdpp's [MBind]. *)
#[global] Instance result_bind : MBind result := fun A B k r =>
  match r with
  | Ok a => k a
  | Raise e => Raise e
  end.

#[global] Instance result_ret : MRet result := fun A a => Ok a.

Definition is_ok {A} (r : result A) : bool :=
  match r with Ok _ => true | Raise _ => false end.

(** [for x in l: acc = body(x, acc)], stopping at the first exception. *)
Fixpoint for_each {A S} (body : A -> S -> result S) (l : list A) (acc : S)
  : result S :=
  match l with
  | [] => Ok acc
  | x :: t => acc' ← body x acc; for_each body t acc'
  end.

(** [[f(x) for x in l]] with a fallible [f]. *)
Fixpoint comprehension {A B} (f : A -> result B) (l : list A)
  : result (list B) :=
  match l with
  | [] => Ok []
  | x :: t => y ← f x; ys ← comprehension f t; Ok (y :: ys)
  end.

(** Builtins, under the names Python gives them. *)
Module Py.

(** [str(e)] of an exception. *)
Definition str := exception_str.

(** Comparisons of numbers. *)
Definition lt (x y : Q) : bool := negb (Qle_bool y x).
Definition gt (x y : Q) : bool := lt y x.

(** Builtin [max(a, b)] and [min(a, b)]: the first argument is kept unless
    the second is strictly better. *)
Definition max2 (a b : Q) : Q := if gt b a then b else a.
Definition min2 (a b : Q) : Q := if lt b a then b else a.

(** Builtin [max(iterable)] and [min(iterable)]: [ValueError] on an empty
    iterable (with the message of Python up to 3.11; no property below
    depends on the message), otherwise a left-to-right scan keeping the
    first best item. *)
Definition max (l : list Q) : result Q :=
  match l with
  | [] => Raise (ValueError "max() arg is an empty sequence")
  | x :: t => Ok (fold_left max2 t x)
  end.

Definition min (l : list Q) : result Q :=
  match l with
  | [] => Raise (ValueError "min() arg is an empty sequence")
  | x :: t => Ok (fold_left min2 t x)
  end.

Definition len {A} (l : list A) : Z := Z.of_nat (length l).

(** A number that may come from [numpy]. [np.mean(values)] is kept as
    the call it comes from: numpy adds binary64 numbers with a rounding
    at every addition, in an order of its own, and the sum may overflow
    to [inf]; the exact rationals of this development follow none of
    this, so the mean is never evaluated here. [Lit] is a number that
    the code writes or copies itself. *)
Inductive Number :=
| Lit (q : Q)
| np_mean (values : list Q).

(** [int(x)]: truncation toward zero. *)
Definition int (x : Q) : Z := Z.quot (Qnum x) (Z.pos (Qden x)).

(** [str(n)] of an integer: decimal digits, [-] for negatives. *)
Definition str_int (n : Z) : string := NilZero.string_of_int (Z.to_int n).

End Py.

(** Dictionaries in insertion order. *)
Section Dict.
Context {K V : Type} (eqb : K -> K -> bool).

Fixpoint dict_get (k : K) (d : list (K * V)) : option V :=
  match d with
  | [] => None
  | (k', v) :: t => if eqb k' k then Some v else dict_get k t
  end.

Definition dict_mem (k : K) (d : list (K * V)) : bool :=
  match dict_get k d with Some _ => true | None => false end.

(** [d[k] = v]: an existing key keeps its place, a new one goes last. *)
Fixpoint dict_set (k : K) (v : V) (d : list (K * V)) : list (K * V) :=
  match d with
  | [] => [(k, v)]
  | (k', v') :: t =>
      if eqb k' k then (k', v) :: t else (k', v') :: dict_set k v t
  end.

Definition dict_values (d : list (K * V)) : list V := map snd d.
Definition dict_keys (d : list (K * V)) : list K := map fst d.

End Dict.

Definition sget {V} := @dict_get string V String.eqb.
Definition smem {V} := @dict_mem string V String.eqb.
Definition sset {V} := @dict_set string V String.eqb.

(** [d[k]] on a string-keyed dictionary. *)
Definition subscript {V} (d : list (string * V)) (k : string) : result V :=
  match sget k d with
  | Some v => Ok v
  | None => Raise (KeyError k)
  end.

(** [os.path.join(a, b)] on POSIX paths. *)
Definition ends_with_slash (a : string) : bool :=
  match rev (list_ascii_of_string a) with
  | c :: _ => Ascii.eqb c "/"
  | [] => false
  end.

(** [a] ready to take a further component: unchanged when empty or
    ending in a slash, with a slash added otherwise. *)
Definition with_sep (a : string) : string :=
  match a with
  | EmptyString => a
  | _ => if ends_with_slash a then a else a +:+ "/"
  end.

Definition os_path_join (a b : string) : string :=
  match b with
  | String c _ => if Ascii.eqb c "/" then b else with_sep a +:+ b
  | EmptyString => with_sep a
  end.

(** ** File system

    The files are a finite map from path strings to what each holds: a
    state of the file system names every file once, by its path from the
    working directory, written with single slashes and without the
    components [.] and [..]. A path is looked up under the string the
    program passes, without its trailing slashes; [normal] tells that
    this string is the name the state uses. Other spellings of a place
    (absolute paths, [.], [..], doubled slashes), symbolic links,
    permissions, the limits of the file system on names and device
    errors are outside the model. The working directory and the root
    exist. *)

Module FS.

(** The directories on the way to [p] and, last, [p] itself without its
    trailing slashes: the prefixes of [p] that end in a character other
    than [/] and are followed by [/] or by the end of [p], shortest
    first. [pre] is the part of the path already read and [named] tells
    whether it ends in a character other than [/]. *)
Fixpoint chain_from (pre : string) (named : bool) (p : string) : list string :=
  match p with
  | EmptyString => if named then [pre] else []
  | String c rest =>
      if Ascii.eqb c "/"
      then (if named then [pre] else [])
             ++ chain_from (pre +:+ "/") false rest
      else chain_from (pre +:+ String c EmptyString) true rest
  end.

Definition chain (p : string) : list string :=
  chain_from EmptyString false p.

(** The components of [p] between its slashes; [cur] is the component
    being read. *)
Fixpoint split_from (cur : string) (p : string) : list string :=
  match p with
  | EmptyString => [cur]
  | String c rest =>
      if Ascii.eqb c "/" then cur :: split_from EmptyString rest
      else split_from (cur +:+ String c EmptyString) rest
  end.

(** No character of [s] is the null character, which Python refuses in
    a path. *)
Fixpoint null_free (s : string) : bool :=
  match s with
  | EmptyString => true
  | String c rest => negb (Ascii.eqb c Ascii.zero) && null_free rest
  end.

(** [p] is written normally: it has no null character, and no component
    of it is empty (so [p] is not empty, does not start or end with a
    slash and has no doubled slash), [.] or [..]. *)
Definition normal (p : string) : bool :=
  null_free p &&
  forallb (fun c => negb (String.eqb c EmptyString || String.eqb c "."
                          || String.eqb c ".."))
          (split_from EmptyString p).

(** [p] names a file to be: it is not empty and does not end in [/]. *)
Definition names_file (p : string) : bool :=
  match last (chain p) with
  | Some k => String.eqb k p
  | None => false
  end.

Section Operations.
Context {N : Type} (dir : N) (is_dir : N -> bool).

(** The [mkdir] calls of [os.makedirs(path, exist_ok=True)] along the
    chain of [path]: directories that exist are passed, the first name
    that is free is created with everything below it, and a name that
    holds something else ends the call: with [FileExistsError] when it is
    [path] itself and with [NotADirectoryError], from the [mkdir] of the
    next name, when it is on the way. *)
Fixpoint mkdir_chain (path : string) (ch : list string) (fs : gmap string N)
  : result (gmap string N) :=
  match ch with
  | [] => Ok fs
  | p :: rest =>
      match fs !! p with
      | Some n =>
          if is_dir n then mkdir_chain path rest fs
          else match rest with
               | [] => Raise (FileExistsError path)
               | [_] => Raise (NotADirectoryError path)
               | q :: _ => Raise (NotADirectoryError q)
               end
      | None => Ok (fold_right (fun q m => <[q := dir]> m) fs (p :: rest))
      end
  end.

(** The exception of [os.makedirs] on a path with a null character: the
    [ValueError] of the first [mkdir] whose argument has one, unless a
    name before it holds something other than a directory and the next
    [mkdir] is of a name without null character. The directories the
    call made on the way before it raised are not followed: a call that
    raises leaves the files as they were. *)
Fixpoint mkdir_null (ch : list string) (fs : gmap string N) : exception :=
  match ch with
  | [] => ValueError "embedded null byte"
  | p :: rest =>
      if null_free p then
        match fs !! p with
        | Some n =>
            if is_dir n then mkdir_null rest fs
            else match rest with
                 | q :: _ =>
                     if null_free q then NotADirectoryError q
                     else ValueError "embedded null byte"
                 | [] => ValueError "embedded null byte"
                 end
        | None => ValueError "embedded null byte"
        end
      else ValueError "embedded null byte"
  end.

(** [os.makedirs(path, exist_ok=True)] *)
Definition makedirs (path : string) (fs : gmap string N)
  : result (gmap string N) :=
  match path with
  | EmptyString => Raise (FileNotFoundError path)
  | _ =>
      if null_free path then mkdir_chain path (chain path) fs
      else Raise (mkdir_null (chain path) fs)
  end.

(** The directories on the way to [path] exist. *)
Fixpoint resolve_parents (path : string) (ch : list string)
    (fs : gmap string N) : result unit :=
  match ch with
  | [] => Ok tt
  | p :: rest =>
      match fs !! p with
      | Some n =>
          if is_dir n then resolve_parents path rest fs
          else Raise (NotADirectoryError path)
      | None => Raise (FileNotFoundError path)
      end
  end.

(** [with open(path, 'w') as f: ...] writing [content]. *)
Definition write (path : string) (content : N) (fs : gmap string N)
  : result (gmap string N) :=
  match path with
  | EmptyString => Raise (FileNotFoundError path)
  | _ =>
      _ ← (if null_free path then Ok tt
           else Raise (ValueError "embedded null byte"));
      _ ← resolve_parents path (removelast (chain path)) fs;
      if negb (names_file path) then Raise (IsADirectoryError path)
      else match fs !! path with
           | Some n =>
               if is_dir n then Raise (IsADirectoryError path)
               else Ok (<[path := content]> fs)
           | None => Ok (<[path := content]> fs)
           end
  end.

(** [p] holds a directory, and [p] is free or holds a directory. *)
Definition dir_at (fs : gmap string N) (p : string) : Prop :=
  exists n, fs !! p = Some n /\ is_dir n = true.

Definition free_or_dir (fs : gmap string N) (p : string) : Prop :=
  fs !! p = None \/ dir_at fs p.

End Operations.

(** No character of [s] is a slash. *)
Fixpoint slash_free (s : string) : bool :=
  match s with
  | EmptyString => true
  | String c rest => negb (Ascii.eqb c "/") && slash_free rest
  end.

(** A file or directory name: not empty, without a slash. *)
Definition plain_name (s : string) : Prop :=
  s <> EmptyString /\ slash_free s = true.

End FS.

(** ** Post-processing system ([src/postprocessing_system.py]) *)

Module PostProc.

(** *** Raw output database, as the extraction reads it

    [odb.steps] and [frame.fieldOutputs] are keyed repositories;
    [field_output.values] is a sequence whose items carry a mapping
    [data] from component name to number; a history output carries a
    sequence of points with [time] and [data]. *)

Record FieldValue := { fv_data : list (string * Q) }.
Record FieldOutput := { values : list FieldValue }.
Record Frame := {
  frameValue : Q;
  fieldOutputs : list (string * FieldOutput)
}.
Record HistoryPoint := { hp_time : Q; hp_data : Q }.
Record HistoryOutput := { ho_data : list HistoryPoint }.
Record HistoryRegion := { historyOutputs : list (string * HistoryOutput) }.
Record Step := {
  frames : list Frame;
  historyRegions : list (string * HistoryRegion)
}.
Record Odb := { steps : list (string * Step) }.

(** The dictionary [self.config], by the two keys the extraction reads.
    The constructor keeps the caller's dictionary as it is given, without
    merging it into the default one (line 92), so either key may be
    absent: [None]. *)
Record Config := {
  field_outputs : option (list (string * list string));
  history_outputs : option (list (string * string))
}.

(** [self.config[key]] *)
Definition config_get {A} (key : string) (entry : option A) : result A :=
  match entry with
  | Some v => Ok v
  | None => Raise (KeyError key)
  end.

Record PostProcessingSystem := {
  config : Config;
  output_dir : string
}.

(** *** Extraction result *)

(** [{"values": ..., "max": ..., "min": ..., "mean": ...}] *)
Record FieldSample := {
  sample_values : list Q;
  sample_max : Q;
  sample_min : Q;
  sample_mean : Py.Number
}.

(** [{"times": ..., "values": ..., "max": ..., "min": ..., "mean": ...}] *)
Record HistorySeries := {
  series_times : list Q;
  series_values : list Q;
  series_max : Q;
  series_min : Q;
  series_mean : Py.Number
}.

(** A value of [frame_data]: the component mapping of a field type, or the
    number stored under the key ["time"]. *)
Inductive FrameEntry :=
| Components (c : list (string * FieldSample))
| TimeValue (t : Q).

Definition FrameData := list (string * FrameEntry).
Definition StepData := list (Q * FrameData).
Definition FieldData := list (string * StepData).
Definition HistoryData := list (string * list (string * HistorySeries)).

(** [x if values else 0] *)
Definition if_values {A} (values : list A) (x : result Q) : result Q :=
  match values with
  | [] => Ok 0
  | _ :: _ => x
  end.

(** [np.mean(values) if values else 0] *)
Definition mean_if_values (values : list Q) : Py.Number :=
  match values with
  | [] => Py.Lit 0
  | _ :: _ => Py.np_mean values
  end.

(** The dictionary literal of lines 199-204. *)
Definition field_sample (values : list Q) : result FieldSample :=
  mx ← if_values values (Py.max values);
  mn ← if_values values (Py.min values);
  Ok {| sample_values := values; sample_max := mx;
        sample_min := mn; sample_mean := mean_if_values values |}.

(** The dictionary literal of lines 233-239. *)
Definition history_series (data : list HistoryPoint) : result HistorySeries :=
  let times := map hp_time data in
  let values := map hp_data data in
  mx ← if_values values (Py.max values);
  mn ← if_values values (Py.min values);
  Ok {| series_times := times; series_values := values; series_max := mx;
        series_min := mn; series_mean := mean_if_values values |}.

(** [field_output.values[0]] *)
Definition first_value (field_output : FieldOutput) : result FieldValue :=
  match values field_output with
  | [] => Raise (IndexError "list index out of range")
  | v :: _ => Ok v
  end.

(** Body of [for component in components] (lines 196-204). *)
Definition extract_component (field_output : FieldOutput) (component : string)
    (acc : list (string * FieldSample)) : result (list (string * FieldSample)) :=
  v0 ← first_value field_output;
  if smem component (fv_data v0) then
    vals ← comprehension (fun value => subscript (fv_data value) component)
                         (values field_output);
    sample ← field_sample vals;
    Ok (sset component sample acc)
  else Ok acc.

(** Body of [for field_type, components in config["field_outputs"].items()]
    (lines 191-204). *)
Definition extract_field (frame : Frame) (item : string * list string)
    (frame_data : FrameData) : result FrameData :=
  let (field_type, components) := item in
  match sget field_type (fieldOutputs frame) with
  | Some field_output =>
      comps ← for_each (extract_component field_output) components [];
      Ok (sset field_type (Components comps) frame_data)
  | None => Ok frame_data
  end.

(** Body of [for frame in frames] up to [frame_data["time"] = ...]; the
    configuration is subscripted anew in every frame. *)
Definition extract_frame (cfg : Config) (frame : Frame) : result FrameData :=
  requested ← config_get "field_outputs" (field_outputs cfg);
  frame_data ← for_each (extract_field frame) requested [];
  Ok (sset "time" (TimeValue (frameValue frame)) frame_data).

(** Body of [for frame in frames] (lines 187-207): the frame's data goes
    under the key [frame.frameValue]. *)
Definition frame_body (cfg : Config) (frame : Frame) (step_data : StepData)
  : result StepData :=
  frame_data ← extract_frame cfg frame;
  Ok (dict_set Qeq_bool (frameValue frame) frame_data step_data).

Definition extract_step (cfg : Config) (step : Step) : result StepData :=
  for_each (frame_body cfg) (frames step) [].

Definition _extract_field_data (self : PostProcessingSystem) (odb : Odb)
  : result FieldData :=
  for_each (fun step_name field_data =>
              step ← subscript (steps odb) step_name;
              step_data ← extract_step (config self) step;
              Ok (sset step_name step_data field_data))
           (dict_keys (steps odb)) [].

(** Body of [for history_name, output_name in ... .items()]
    (lines 223-239). *)
Definition extract_history (step : Step) (item : string * string)
    (acc : list (string * HistorySeries))
  : result (list (string * HistorySeries)) :=
  let (history_name, output_name) := item in
  match sget history_name (historyRegions step) with
  | Some history_region =>
      match sget output_name (historyOutputs history_region) with
      | Some history_output =>
          series ← history_series (ho_data history_output);
          Ok (sset history_name series acc)
      | None => Ok acc
      end
  | None => Ok acc
  end.

Definition _extract_history_data (self : PostProcessingSystem) (odb : Odb)
  : result HistoryData :=
  for_each (fun step_name history_data =>
              step ← subscript (steps odb) step_name;
              requested ← config_get "history_outputs"
                                     (history_outputs (config self));
              step_history ← for_each (extract_history step) requested [];
              Ok (sset step_name step_history history_data))
           (dict_keys (steps odb)) [].

(** *** Report aggregator ([PostProcessingResults]) *)

Record PostProcessingResults := {
  odb_file : string;
  field_data : FieldData;
  history_data : HistoryData;
  results_output_dir : string;
  processing_time : Q
}.

(** The loop nest shared by [get_max_stress] and [get_max_strain]; [key]
    is ['stress'] or ['strain']. The accumulator starts at [0]. *)
Definition max_over_frame (key : string) (frame_data : FrameData) (acc : Q)
  : result Q :=
  match frame_data with
  | [] => Ok acc
  | _ :: _ =>
      match sget key frame_data with
      | Some (Components comps) =>
          Ok (fold_left (fun m component_data =>
                           Py.max2 m (sample_max component_data))
                        (dict_values comps) acc)
      | Some (TimeValue _) =>
          Raise (AttributeError "'float' object has no attribute 'values'")
      | None => Ok acc
      end
  end.

Definition max_over (key : string) (fd : FieldData) : result Q :=
  for_each (fun step_data acc =>
              for_each (max_over_frame key) (dict_values step_data) acc)
           (dict_values fd) 0.

Definition get_max_stress (self : PostProcessingResults) : result Q :=
  max_over "stress" (field_data self).

Definition get_max_strain (self : PostProcessingResults) : result Q :=
  max_over "strain" (field_data self).

Record SummaryStatistics := {
  num_steps : Z;
  max_stress : Q;
  max_strain : Q;
  total_frames : Z;
  stats_processing_time : Q
}.

Definition get_summary_statistics (self : PostProcessingResults)
  : result SummaryStatistics :=
  stress ← get_max_stress self;
  strain ← get_max_strain self;
  Ok {| num_steps := Py.len (field_data self);
        max_stress := stress;
        max_strain := strain;
        total_frames :=
          fold_left Z.add (map (fun step_data => Py.len step_data)
                               (dict_values (field_data self))) 0%Z;
        stats_processing_time := processing_time self |}.

End PostProc.

(** ** Spall fracture system
       ([src/Spall Fracture Modeling System/spall_fracture_system.py]) *)

Module Spall.

(** One entry of [analysis_results]: the dictionary [_extract_results]
    returns (["status": "completed"]) or the one the [except] branch of
    [run_analysis] builds (["status": "failed"]). *)
Inductive RunOutcome :=
| Completed (velocity max_stress max_strain fracture_time : Q)
            (fracture_occurred : bool) (job_name : string)
| Failed (velocity : Q) (error : string).

Definition velocity (r : RunOutcome) : Q :=
  match r with
  | Completed v _ _ _ _ _ => v
  | Failed v _ => v
  end.

(** [r['status'] == 'completed'] *)
Definition status_completed (r : RunOutcome) : bool :=
  match r with
  | Completed _ _ _ _ _ _ => true
  | Failed _ _ => false
  end.

(** [r['fracture_occurred']] and [r['max_stress']], read on completed
    entries only. *)
Definition fracture_occurred (r : RunOutcome) : result bool :=
  match r with
  | Completed _ _ _ _ f _ => Ok f
  | Failed _ _ => Raise (KeyError "fracture_occurred")
  end.

Definition max_stress (r : RunOutcome) : result Q :=
  match r with
  | Completed _ s _ _ _ _ => Ok s
  | Failed _ _ => Raise (KeyError "max_stress")
  end.

(** Analysis parameters: a dictionary of option values. *)
Inductive ParamValue :=
| PNum (x : Q)
| PList (l : list string).

Definition Params := list (string * ParamValue).

(** [d.update(other)] *)
Definition update (d other : Params) : Params :=
  fold_left (fun acc kv => sset (fst kv) (snd kv) acc) other d.

(** The lines of the summary report, by what each holds. *)
Inductive ReportItem :=
| RTitle
| RDate (stamp : string)
| RCount (n : Z)
| RRange (lo hi : Q)
| RHeading
| RCompleted (velocity max_stress : Q) (fracture : bool)
| RFailed (velocity : Q) (error : string).

(** What a path of the file system holds. *)
Inductive Node :=
| Directory
| JsonFile (doc : RunOutcome)
| ReportFile (lines : list ReportItem)
| RegularFile (content : string).

Definition is_directory (n : Node) : bool :=
  match n with
  | Directory => true
  | _ => false
  end.

Record SpallFractureSystem := {
  geometry_file : string;
  work_dir : string;
  model_name : string;
  results_dir : string;
  temp_dir : string
}.

Record SpallFractureResults := {
  velocities : list Q;
  results : list RunOutcome;
  output_dir : string;
  analysis_params : Params
}.

Section Sweep.

(** The Abaqus session ([mdb]) is a black box with a state of its own. *)
Context {Session : Type}.

(** What the sweep consumes from outside the program text: whether the
    Abaqus modules imported, the effect of the Abaqus calls of
    [_create_model_for_velocity] and of [_run_calculation] on the session
    ([Some msg]: an exception with message [msg] was raised), the draws of
    [np.random.uniform] by draw number, and the clock. *)
Record Environment := {
  ABAQUS_AVAILABLE : bool;
  abaqus_create_model : Q -> Params -> Session -> option string * Session;
  abaqus_job : string -> string -> Session -> option string * Session;
  uniform : nat -> Q -> Q -> Q;
  now : string
}.

Record World := {
  session : Session;
  files : gmap string Node;
  draws : nat
}.

(** Computations that change the world of type [S] and may raise. *)
Definition M (S A : Type) : Type := S -> result A * S.

Definition ret {S A} (a : A) : M S A := fun s => (Ok a, s).
Definition raise {S A} (e : exception) : M S A := fun s => (Raise e, s).
Definition bind {S A B} (m : M S A) (k : A -> M S B) : M S B :=
  fun s => match m s with
           | (Ok a, s') => k a s'
           | (Raise e, s') => (Raise e, s')
           end.

(** [try: body except Exception as e: handler(e)] *)
Definition try_except {S A} (body : M S A) (handler : exception -> M S A)
  : M S A :=
  fun s => match body s with
           | (Ok a, s') => (Ok a, s')
           | (Raise e, s') => handler e s'
           end.

Notation "x <~ m ;; k" := (bind m (fun x => k))
  (at level 100, m at next level, right associativity).
Notation "m ;;; k" := (bind m (fun _ => k))
  (at level 100, right associativity).

Fixpoint for_loop {S A} (body : A -> M S unit) (l : list A) : M S unit :=
  match l with
  | [] => ret tt
  | x :: t => body x ;;; for_loop body t
  end.

Variable env : Environment.

(** A call that works on the files: on an exception they are left as
    they were. *)
Definition on_files (call : gmap string Node -> result (gmap string Node))
  : M World unit := fun w =>
  match call (files w) with
  | Ok fs => (Ok tt, {| session := session w; files := fs;
                        draws := draws w |})
  | Raise e => (Raise e, w)
  end.

(** [os.makedirs(path, exist_ok=True)] *)
Definition makedirs (path : string) : M World unit :=
  on_files (FS.makedirs Directory is_directory path).

(** [with open(path, 'w') as f: ...] writing [content]. *)
Definition write_file (path : string) (content : Node) : M World unit :=
  on_files (FS.write is_directory path content).

(** An Abaqus call on the session. *)
Definition abaqus (call : Session -> option string * Session) : M World unit :=
  fun w =>
    let (r, s) := call (session w) in
    let w' := {| session := s; files := files w; draws := draws w |} in
    match r with
    | Some msg => (Raise (AbaqusError msg), w')
    | None => (Ok tt, w')
    end.

(** [np.random.uniform(lo, hi)] *)
Definition random_uniform (lo hi : Q) : M World Q := fun w =>
  (Ok (uniform env (draws w) lo hi),
   {| session := session w; files := files w; draws := S (draws w) |}).

Definition default_params : Params :=
  [ ("time_period", PNum (3 # 10000));
    ("element_size", PNum (5 # 10000));
    ("contact_friction", PNum (1 # 10));
    ("symmetry_planes", PList ["X"; "Z"]);
    ("output_frequency", PNum 100) ].

Variable self : SpallFractureSystem.

(** Returns the [velocity] entry of the model dictionary. *)
Definition _create_model_for_velocity (velocity : Q) (params : Params)
  : M World Q :=
  abaqus (abaqus_create_model env velocity params) ;;;
  ret velocity.

(** Returns [job_result["job_name"]]. *)
Definition _run_calculation (velocity : Q) (model_result : Q)
  : M World string :=
  let job_name := "SpallJob_v" +:+ Py.str_int (Py.int velocity) in
  let model_path :=
    os_path_join (temp_dir self) ("model_v" +:+ Py.str_int (Py.int velocity)) in
  abaqus (abaqus_job env job_name model_path) ;;;
  ret job_name.

Definition _extract_results (velocity : Q) (job_name : string)
  : M World RunOutcome :=
  stress <~ random_uniform 50 150 ;;
  strain <~ random_uniform (1 # 100) (5 # 100) ;;
  time <~ random_uniform 50 200 ;;
  ret (Completed velocity stress strain time (Py.gt velocity 200) job_name).

Definition velocity_dir (output_dir : string) (velocity : Q) : string :=
  os_path_join output_dir ("velocity_" +:+ Py.str_int (Py.int velocity)).

Definition result_file (output_dir : string) (velocity : Q) : string :=
  os_path_join (velocity_dir output_dir velocity) "results.json".

Definition _save_velocity_results (velocity : Q) (result : RunOutcome)
    (output_dir : string) : M World unit :=
  makedirs (velocity_dir output_dir velocity) ;;;
  write_file (result_file output_dir velocity) (JsonFile result).

Definition report_line (r : RunOutcome) : ReportItem :=
  match r with
  | Completed v s _ _ f _ => RCompleted v s f
  | Failed v e => RFailed v e
  end.

Definition _generate_summary_report (res : SpallFractureResults)
  : M World unit :=
  let report_file := os_path_join (output_dir res) "summary_report.txt" in
  let head := [RTitle; RDate (now env); RCount (Py.len (velocities res))] in
  match (lo ← Py.min (velocities res); hi ← Py.max (velocities res);
         Ok (RRange lo hi)) with
  | Ok range =>
      write_file report_file
        (ReportFile (head ++ [range; RHeading] ++ map report_line (results res)))
  | Raise e =>
      write_file report_file (ReportFile head) ;;; raise e
  end.

(** The local variable [analysis_results] lives next to the world while
    the loop runs. *)
Record Loop := {
  world : World;
  analysis_results : list RunOutcome
}.

Definition in_world {A} (m : M World A) : M Loop A := fun l =>
  let (r, w) := m (world l) in
  (r, {| world := w; analysis_results := analysis_results l |}).

(** [analysis_results.append(r)] *)
Definition append (r : RunOutcome) : M Loop unit := fun l =>
  (Ok tt, {| world := world l;
             analysis_results := analysis_results l ++ [r] |}).

(** The [try] block of lines 149-163. *)
Definition try_block (velocity : Q) (params : Params) (output_dir : string)
  : M Loop unit :=
  model_result <~ in_world (_create_model_for_velocity velocity params) ;;
  job_result <~ in_world (_run_calculation velocity model_result) ;;
  velocity_result <~ in_world (_extract_results velocity job_result) ;;
  append velocity_result ;;;
  in_world (_save_velocity_results velocity velocity_result output_dir).

(** One turn of [for i, velocity in enumerate(velocities, 1)]. *)
Definition iteration (params : Params) (output_dir : string) (velocity : Q)
  : M Loop unit :=
  try_except (try_block velocity params output_dir)
             (fun e => append (Failed velocity (Py.str e))).

Definition run_analysis (velocities : list Q) (output_dir : option string)
    (analysis_params : option Params) : M World SpallFractureResults :=
  if negb (ABAQUS_AVAILABLE env) then
    raise (RuntimeError "Abaqus API недоступен. Невозможно выполнить анализ.")
  else
    let params :=
      match analysis_params with
      | Some (kv :: p) => update default_params (kv :: p)
      | _ => default_params
      end in
    let output_dir :=
      match output_dir with
      | Some d => d
      | None => os_path_join (results_dir self) ("spall_analysis_" +:+ now env)
      end in
    makedirs output_dir ;;;
    fun w =>
      let (r, l) := for_loop (iteration params output_dir) velocities
                             {| world := w; analysis_results := [] |} in
      let res := {| velocities := velocities;
                    results := analysis_results l;
                    output_dir := output_dir;
                    analysis_params := params |} in
      match r with
      | Ok _ => (_generate_summary_report res ;;; ret res) (world l)
      | Raise e => (Raise e, world l)
      end.

End Sweep.

(** *** Threshold analyzer ([SpallFractureResults.analyze]) *)

(** The dictionary [analyze] returns: either the ["error"] entry alone or
    the seven entries of the full analysis. *)
Record Analysis := {
  total_velocities : Z;
  successful_calculations : Z;
  failed_calculations : Z;
  critical_velocity : option Q;
  fracture_velocities : list Q;
  no_fracture_velocities : list Q;
  max_stress_range : Q * Q
}.

Inductive AnalyzeResult :=
| ErrorOnly (error : string)
| Full (analysis : Analysis).

(** [[r['velocity'] for r in rs if keep(r['fracture_occurred'])]] *)
Fixpoint velocities_where (keep : bool -> bool) (rs : list RunOutcome)
  : result (list Q) :=
  match rs with
  | [] => Ok []
  | r :: t =>
      f ← fracture_occurred r;
      vs ← velocities_where keep t;
      Ok (if keep f then velocity r :: vs else vs)
  end.

Definition analyze (self : SpallFractureResults) : result AnalyzeResult :=
  let successful_results := List.filter status_completed (results self) in
  match successful_results with
  | [] => Ok (ErrorOnly "Нет успешных результатов для анализа")
  | _ :: _ =>
      fracture ← velocities_where (fun f => f) successful_results;
      no_fracture ← velocities_where negb successful_results;
      critical ← match fracture with
                 | [] => Ok None
                 | _ :: _ => v ← Py.min fracture; Ok (Some v)
                 end;
      stresses ← comprehension max_stress successful_results;
      lo ← Py.min stresses;
      hi ← Py.max stresses;
      Ok (Full {| total_velocities := Py.len (velocities self);
                  successful_calculations := Py.len successful_results;
                  failed_calculations :=
                    Py.len (results self) - Py.len successful_results;
                  critical_velocity := critical;
                  fracture_velocities := fracture;
                  no_fracture_velocities := no_fracture;
                  max_stress_range := (lo, hi) |})
  end.

(** [analysis.get('critical_velocity')]: [None] when the key is missing
    or holds [None]; and the three counts, [None] when their keys are
    missing. *)
Definition get_critical_velocity (a : AnalyzeResult) : option Q :=
  match a with
  | ErrorOnly _ => None
  | Full s => critical_velocity s
  end.

Definition get_counts (a : AnalyzeResult) : option (Z * Z * Z) :=
  match a with
  | ErrorOnly _ => None
  | Full s => Some (total_velocities s, successful_calculations s,
                    failed_calculations s)
  end.

End Spall.

(** ** Vocabulary of the properties *)

(** [m] is a largest (smallest) element of [l] for the numeric order. *)
Definition is_maximum (m : Q) (l : list Q) : Prop :=
  In m l /\ forall x, In x l -> x <= m.

Definition is_minimum (m : Q) (l : list Q) : Prop :=
  In m l /\ forall x, In x l -> m <= x.

(** *** Post-processing *)

Module PostProcSpec.
Import PostProc.

(** The [max] entries of the components a frame stores under the field
    type [key]. *)
Definition frame_maxima (key : string) (frame_data : FrameData) : list Q :=
  match sget key frame_data with
  | Some (Components comps) => map sample_max (dict_values comps)
  | _ => []
  end.

(** The same over all steps and frames of an extraction result. *)
Definition field_maxima (key : string) (fd : FieldData) : list Q :=
  flat_map (fun step_data =>
              flat_map (frame_maxima key) (dict_values step_data))
           (dict_values fd).

(** [r] results from scanning [xs] with [max], starting from [acc]. *)
Definition scanned (acc : Q) (xs : list Q) (r : Q) : Prop :=
  acc <= r /\ (forall x, In x xs -> x <= r) /\ (r = acc \/ In r xs).

(** The entries of [config["field_outputs"]] and of
    [config["history_outputs"]]; none when the key is absent. *)
Definition requested_fields (cfg : Config) : list (string * list string) :=
  match field_outputs cfg with
  | Some requested => requested
  | None => []
  end.

Definition requested_histories (cfg : Config) : list (string * string) :=
  match history_outputs cfg with
  | Some requested => requested
  | None => []
  end.

(** A field output that has a first value, all of whose values carry the
    same component keys. *)
Definition field_well_formed (fo : FieldOutput) : Prop :=
  values fo <> [] /\
  forall v v' c, In v (values fo) -> In v' (values fo) ->
                 smem c (fv_data v) = smem c (fv_data v').







(** The raw values of [component] over a field output. *)
Definition raw_values (fo : FieldOutput) (component : string)
  : result (list Q) :=
  comprehension (fun value => subscript (fv_data value) component)
                (values fo).

(** The sample [s] was computed from the raw values of [component], which
    the first value of [fo] carries. *)
Definition from_raw (fo : FieldOutput) (component : string) (s : FieldSample)
  : Prop :=
  exists v0 rest,
    values fo = v0 :: rest /\
    smem component (fv_data v0) = true /\
    raw_values fo component = Ok (sample_values s) /\
    field_sample (sample_values s) = Ok s.

(** A system with the stress and strain part of the default configuration. *)
Definition system0 : PostProcessingSystem :=
  {| config := {| field_outputs := Some [("stress", ["S11"; "S22"]);
                                         ("strain", ["E11"; "E22"])];
                  history_outputs := Some [("kinetic_energy", "KE")] |};
     output_dir := "results/postprocessing" |}.



Definition system_no_keys : PostProcessingSystem :=
  {| config := {| field_outputs := None; history_outputs := None |};
     output_dir := "results/postprocessing" |}.

Definition results_of (fd : FieldData) : PostProcessingResults :=
  {| odb_file := "job.odb"; field_data := fd; history_data := [];
     results_output_dir := "results/postprocessing";
     processing_time := 0 |}.

(** A database in compression: one step, one frame, two elements, every
    stress component negative. *)
Definition odb_compression : Odb :=
  {| steps :=
       [("Step-1",
         {| frames :=
              [{| frameValue := 1 # 1000;
                  fieldOutputs :=
                    [("stress",
                      {| values :=
                           [{| fv_data := [("S11", -5); ("S22", -20)] |};
                            {| fv_data := [("S11", -7); ("S22", -30)] |}]
                      |})] |}];
            historyRegions := [] |})] |}.

(** A database whose only frame holds a stress field with no values. *)
Definition odb_empty_field : Odb :=
  {| steps :=
       [("Step-1",
         {| frames :=
              [{| frameValue := 0;
                  fieldOutputs := [("stress", {| values := [] |})] |}];
            historyRegions := [] |})] |}.

(** A database whose stress values do not carry the same keys. *)
Definition odb_ragged_field : Odb :=
  {| steps :=
       [("Step-1",
         {| frames :=
              [{| frameValue := 0;
                  fieldOutputs :=
                    [("stress",
                      {| values := [{| fv_data := [("S11", 3)] |};
                                    {| fv_data := [("S22", 4)] |}] |})] |}];
            historyRegions := [] |})] |}.



(** A well-formed database: stress on two elements, a strain field type
    that is absent, and a kinetic energy channel. *)
Definition odb_sample : Odb :=
  {| steps :=
       [("Step-1",
         {| frames :=
              [{| frameValue := 0;
                  fieldOutputs :=
                    [("stress",
                      {| values := [{| fv_data := [("S11", 0)] |};
                                    {| fv_data := [("S11", 0)] |}] |})] |};
               {| frameValue := 1 # 1000;
                  fieldOutputs :=
                    [("stress",
                      {| values := [{| fv_data := [("S11", 452 # 10)] |};
                                    {| fv_data := [("S11", 894 # 10)] |}] |});
                     ("temperature",
                      {| values := [{| fv_data := [("T", 300)] |}] |})] |}];
            historyRegions :=
              [("kinetic_energy",
                {| historyOutputs :=
                     [("KE", {| ho_data := [{| hp_time := 0; hp_data := 0 |};
                                            {| hp_time := 1 # 1000;
                                               hp_data := 12505 # 10 |}] |})]
                |})] |})] |}.

End PostProcSpec.

(** *** Sweep and threshold analysis *)

Module SpallSpec.
Import Spall.

(** The fracture set: the completed records with [fracture_occurred]. *)
Definition in_fracture_set (r : RunOutcome) : bool :=
  match r with
  | Completed _ _ _ _ f _ => f
  | Failed _ _ => false
  end.

Definition fracture_set (records : list RunOutcome) : list RunOutcome :=
  List.filter in_fracture_set records.

Definition completed (records : list RunOutcome) : list RunOutcome :=
  List.filter status_completed records.

(** The records one velocity can leave in [analysis_results]. *)
Inductive turn_records (v : Q) : list RunOutcome -> Prop :=
| turn_failed msg : turn_records v [Failed v msg]
| turn_completed s e t j :
    turn_records v [Completed v s e t (Py.gt v 200) j]
| turn_both s e t j msg :
    turn_records v [Completed v s e t (Py.gt v 200) j; Failed v msg].

(** The records a sequence of velocities can leave, in order. *)
Inductive sweep_records : list Q -> list RunOutcome -> Prop :=
| sweep_nil : sweep_records [] []
| sweep_cons v vs rs rest :
    turn_records v rs -> sweep_records vs rest ->
    sweep_records (v :: vs) (rs ++ rest).

(** The paths the sweep writes under [out] are free or hold what the
    sweep would put there: no directory where a file goes, no file where
    a directory goes. *)
Definition writable_for (out : string) (V : list Q) (fs : gmap string Node)
  : Prop :=
  fs !! os_path_join out "summary_report.txt" <> Some Directory /\
  forall v, In v V ->
    (fs !! velocity_dir out v = None \/
     fs !! velocity_dir out v = Some Directory) /\
    fs !! result_file out v <> Some Directory.

Definition system0 : SpallFractureSystem :=
  {| geometry_file := "data/sample_geometry.stp";
     work_dir := "work";
     model_name := "SpallFractureModel";
     results_dir := "work/results";
     temp_dir := "work/temp" |}.

(** An environment in which Abaqus is available and every call succeeds;
    each random draw returns the lower bound. *)
Definition env_ok : @Environment unit :=
  {| ABAQUS_AVAILABLE := true;
     abaqus_create_model := fun _ _ s => (None, s);
     abaqus_job := fun _ _ s => (None, s);
     uniform := fun _ lo _ => lo;
     now := "20250101_120000" |}.

(** The same, except that building the model for velocity 150 raises
    "mesh generation error". *)
Definition env_mesh_error : @Environment unit :=
  {| ABAQUS_AVAILABLE := true;
     abaqus_create_model := fun v _ s =>
       if Qeq_bool v 150 then (Some "mesh generation error", s) else (None, s);
     abaqus_job := fun _ _ s => (None, s);
     uniform := fun _ lo _ => lo;
     now := "20250101_120000" |}.

(** An environment in which the Abaqus modules did not import. *)
Definition env_no_abaqus : @Environment unit :=
  {| ABAQUS_AVAILABLE := false;
     abaqus_create_model := fun _ _ s => (None, s);
     abaqus_job := fun _ _ s => (None, s);
     uniform := fun _ lo _ => lo;
     now := "20250101_120000" |}.

(** An empty file system, and one in which the output directory already
    holds a regular file named [velocity_100]. *)
Definition world_empty : @World unit :=
  {| session := tt; files := ∅; draws := 0 |}.

Definition world_stale_file : @World unit :=
  {| session := tt;
     files := {[ "out" := Directory;
                 "out/velocity_100" := RegularFile "notes" ]};
     draws := 0 |}.

(** Results whose [velocities] and [results] differ in length. *)
Definition results_partial : SpallFractureResults :=
  {| velocities := [100; 150; 200];
     results := [Completed 100 80 (2 # 100) 120 false "SpallJob_v100"];
     output_dir := "out";
     analysis_params := [] |}.

(** Results without a completed record: those of the sweep over [150] in
    [env_mesh_error]. *)
Definition results_all_failed : SpallFractureResults :=
  {| velocities := [150];
     results := [Failed 150 "mesh generation error"];
     output_dir := "out";
     analysis_params := default_params |}.

End SpallSpec.

(** *** Further vocabulary of the sweep *)

Module SpallMore.
Import Spall SpallSpec.

(** The [max_stress] entries of the completed records, in order. *)
Definition completed_stresses (records : list RunOutcome) : list Q :=
  flat_map (fun r => match r with
                     | Completed _ s _ _ _ _ => [s]
                     | Failed _ _ => []
                     end) records.

(** The last value given to key [k] in a sequence of updates. *)
Definition last_update (k : string) (other : Params) : option ParamValue :=
  sget k (rev other).

(** The path of the summary report under an output directory. *)
Definition report_path (out : string) : string :=
  os_path_join out "summary_report.txt".

(** The five heading lines of a complete report. *)
Definition report_head {Session : Type} (env : @Environment Session)
    (V : list Q) (lo hi : Q) : list ReportItem :=
  [RTitle; RDate (now env); RCount (Py.len V); RRange lo hi; RHeading].

End SpallMore.

(** *** Further vocabulary of the post-processing *)

Module PostProcMore.
Import PostProc PostProcSpec.

(** No two numbers of the list are equal. *)
Fixpoint distinct_times (l : list Q) : Prop :=
  match l with
  | [] => True
  | t :: rest => (forall u, In u rest -> ~ t == u) /\ distinct_times rest
  end.

(** [frame] is the last frame of [frames] with frame time [t]. *)
Definition last_frame_at (t : Q) (frame : Frame) (frames : list Frame) : Prop :=
  exists before after,
    frames = before ++ frame :: after /\
    frameValue frame == t /\
    forall f, In f after -> ~ frameValue f == t.

(** The only number a frame's data holds is the one under ["time"]. *)
Definition frame_data_ok (frame_data : FrameData) : Prop :=
  forall k t, sget k frame_data = Some (TimeValue t) -> k = "time".

(** Results around a field data, whatever the other attributes. *)
Definition results_with (fd : FieldData) (hd : HistoryData) (file out : string)
    (time : Q) : PostProcessingResults :=
  {| odb_file := file; field_data := fd; history_data := hd;
     results_output_dir := out; processing_time := time |}.

(** The number of frames of a database, over all its steps. *)
Definition frame_count (odb : Odb) : Z :=
  fold_left Z.add (map (fun step => Py.len (frames step))
                       (dict_values (steps odb))) 0%Z.

(** A database with a repeated frame time: the second frame of the step
    is written at the time of the first. *)
Definition odb_repeated_time : Odb :=
  {| steps :=
       [("Step-1",
         {| frames :=
              [{| frameValue := 0;
                  fieldOutputs :=
                    [("stress", {| values := [{| fv_data := [("S11", 1)] |}] |})]
               |};
               {| frameValue := 0;
                  fieldOutputs :=
                    [("stress", {| values := [{| fv_data := [("S11", 2)] |}] |})]
               |}];
            historyRegions := [] |})] |}.

End PostProcMore.

(** ** Processing of database files
       ([process_odb_file], [batch_process], [generate_report] of
       [src/postprocessing_system.py]) *)

Module PostProcIO.
Import PostProc.

(** *** [str.format] with keyword arguments *)

(** A keyword argument of [format]. *)
Inductive FormatArg :=
| AStr (s : string)
| AInt (n : Z)
| ANum (x : Q).

(** What [format] takes from the Python runtime: [format(value, spec)]
    for one argument, and the result of [format] for a
    template with a replacement field outside the fragment modelled
    below (conversions, attribute and index lookups, positional and
    nested fields). *)
Record Formatter := {
  format_value : FormatArg -> string -> result string;
  format_beyond : string -> list (string * FormatArg) -> result string
}.

(** The double quote. *)
Definition dq : string := String (Ascii.ascii_of_nat 34) EmptyString.

Definition snoc (s : string) (c : ascii) : string :=
  s +:+ String c EmptyString.

Definition is_digit (c : ascii) : bool :=
  ((48 <=? nat_of_ascii c) && (nat_of_ascii c <=? 57))%nat.

Fixpoint all_digits (s : string) : bool :=
  match s with
  | EmptyString => true
  | String c rest => is_digit c && all_digits rest
  end.

Fixpoint all_ascii (s : string) : bool :=
  match s with
  | EmptyString => true
  | String c rest => (nat_of_ascii c <? 128)%nat && all_ascii rest
  end.

(** Where the scan of the template stands: in literal text, after a
    [{], after a [}] of the literal text, in a field name, or in a
    format specification. *)
Inductive Mode :=
| Text
| Open
| Close
| Name (name : string)
| Spec (name spec : string).

Section Format.
Variable fmt : Formatter.
Variable kwargs : list (string * FormatArg).

(** The replacement field [{name:spec}]: an empty or a decimal name is
    positional ([None]: not modelled); any other name is a key of
    [kwargs]. *)
Definition render_field (name spec : string) : option (result string) :=
  if (all_digits name || negb (all_ascii name))%bool then None
  else match sget name kwargs with
       | None => Some (Raise (KeyError name))
       | Some v => Some (format_value fmt v spec)
       end.

(** The scan, left to right, with the output so far. Doubled braces are
    literal braces; a field is rendered when its closing brace is read,
    so that the first failing field decides the exception. *)
Fixpoint format_from (mode : Mode) (out : string) (s : string)
  : option (result string) :=
  match s with
  | EmptyString =>
      match mode with
      | Text => Some (Ok out)
      | Open =>
          Some (Raise (ValueError "Single '{' encountered in format string"))
      | Close =>
          Some (Raise (ValueError "Single '}' encountered in format string"))
      | Name _ =>
          Some (Raise (ValueError "expected '}' before end of string"))
      | Spec _ _ =>
          Some (Raise (ValueError "unmatched '{' in format spec"))
      end
  | String c rest =>
      let field_end := fun name spec =>
        match render_field name spec with
        | Some (Ok text) => format_from Text (out +:+ text) rest
        | Some (Raise e) => Some (Raise e)
        | None => None
        end in
      let in_name := fun name =>
        if Ascii.eqb c "}" then field_end name EmptyString
        else if Ascii.eqb c ":" then format_from (Spec name EmptyString) out rest
        else if (Ascii.eqb c "!" || Ascii.eqb c "[" || Ascii.eqb c "."
                 || Ascii.eqb c "{")%bool then None
        else format_from (Name (snoc name c)) out rest in
      match mode with
      | Text =>
          if Ascii.eqb c "{" then format_from Open out rest
          else if Ascii.eqb c "}" then format_from Close out rest
          else format_from Text (snoc out c) rest
      | Open =>
          if Ascii.eqb c "{" then format_from Text (snoc out c) rest
          else in_name EmptyString
      | Close =>
          if Ascii.eqb c "}" then format_from Text (snoc out c) rest
          else
            Some (Raise (ValueError "Single '}' encountered in format string"))
      | Name name => in_name name
      | Spec name spec =>
          if Ascii.eqb c "}" then field_end name spec
          else if Ascii.eqb c "{" then None
          else format_from (Spec name (snoc spec c)) out rest
      end
  end.

(** [template.format] applied to the keyword arguments [kwargs]. *)
Definition str_format (template : string) : result string :=
  match format_from Text EmptyString template with
  | Some r => r
  | None => format_beyond fmt template kwargs
  end.

End Format.

(** [os.path.basename(p)]: what follows the last [/]. *)
Fixpoint basename_from (acc : string) (p : string) : string :=
  match p with
  | EmptyString => acc
  | String c rest =>
      if Ascii.eqb c "/" then basename_from EmptyString rest
      else basename_from (snoc acc c) rest
  end.

Definition basename (p : string) : string := basename_from EmptyString p.

(** The template of [_create_html_report] (lines 596-662). *)
Definition html_template : string :=
  "
<!DOCTYPE html>
<html lang=" +:+ dq +:+
  "ru" +:+ dq +:+
  ">
<head>
    <meta charset=" +:+ dq +:+
  "UTF-8" +:+ dq +:+
  ">
    <meta name=" +:+ dq +:+
  "viewport" +:+ dq +:+
  " content=" +:+ dq +:+
  "width=device-width, initial-scale=1.0" +:+ dq +:+
  ">
    <title>FEA Analysis Report</title>
    <style>
        body { font-family: Arial, sans-serif; margin: 40px; }
        .header { background-color: #f0f0f0; padding: 20px; border-radius: 5px; }
        .section { margin: 20px 0; }
        .plot { text-align: center; margin: 20px 0; }
        .summary { background-color: #e8f4f8; padding: 15px; border-radius: 5px; }
        table { border-collapse: collapse; width: 100%; }
        th, td { border: 1px solid #ddd; padding: 8px; text-align: left; }
        th { background-color: #f2f2f2; }
    </style>
</head>
<body>
    <div class=" +:+ dq +:+
  "header" +:+ dq +:+
  ">
        <h1>Отчет по анализу FEA</h1>
        <p><strong>Файл:</strong> {odb_file}</p>
        <p><strong>Дата анализа:</strong> {analysis_date}</p>
        <p><strong>Время обработки:</strong> {processing_time:.2f} секунд</p>
    </div>
    
    <div class=" +:+ dq +:+
  "section" +:+ dq +:+
  ">
        <h2>Сводка результатов</h2>
        <div class=" +:+ dq +:+
  "summary" +:+ dq +:+
  ">
            <p><strong>Количество шагов:</strong> {num_steps}</p>
            <p><strong>Общее время анализа:</strong> {total_time:.3f} секунд</p>
            <p><strong>Максимальное напряжение:</strong> {max_stress:.2f} МПа</p>
            <p><strong>Максимальная деформация:</strong> {max_strain:.4f}</p>
        </div>
    </div>
    
    <div class=" +:+ dq +:+
  "section" +:+ dq +:+
  ">
        <h2>Графики</h2>
        <div class=" +:+ dq +:+
  "plot" +:+ dq +:+
  ">
            <h3>Распределение напряжений</h3>
            <img src=" +:+ dq +:+
  "plots/stress_distribution.png" +:+ dq +:+
  " alt=" +:+ dq +:+
  "Stress Distribution" +:+ dq +:+
  " style=" +:+ dq +:+
  "max-width: 100%;" +:+ dq +:+
  ">
        </div>
        <div class=" +:+ dq +:+
  "plot" +:+ dq +:+
  ">
            <h3>История деформаций</h3>
            <img src=" +:+ dq +:+
  "plots/strain_history.png" +:+ dq +:+
  " alt=" +:+ dq +:+
  "Strain History" +:+ dq +:+
  " style=" +:+ dq +:+
  "max-width: 100%;" +:+ dq +:+
  ">
        </div>
        <div class=" +:+ dq +:+
  "plot" +:+ dq +:+
  ">
            <h3>История энергии</h3>
            <img src=" +:+ dq +:+
  "plots/energy_history.png" +:+ dq +:+
  " alt=" +:+ dq +:+
  "Energy History" +:+ dq +:+
  " style=" +:+ dq +:+
  "max-width: 100%;" +:+ dq +:+
  ">
        </div>
        <div class=" +:+ dq +:+
  "plot" +:+ dq +:+
  ">
            <h3>Сравнительный анализ</h3>
            <img src=" +:+ dq +:+
  "plots/comparison_analysis.png" +:+ dq +:+
  " alt=" +:+ dq +:+
  "Comparison Analysis" +:+ dq +:+
  " style=" +:+ dq +:+
  "max-width: 100%;" +:+ dq +:+
  ">
        </div>
    </div>
    
    <div class=" +:+ dq +:+
  "section" +:+ dq +:+
  ">
        <h2>Детальные данные</h2>
        <p>Подробные данные доступны в файлах:</p>
        <ul>
            <li><strong>JSON:</strong> extracted_data.json</li>
            <li><strong>Excel:</strong> results.xlsx</li>
        </ul>
    </div>
</body>
</html>
        ".

(** *** Files and database handles *)

(** The lines of the batch summary, by what each holds. *)
Inductive SummaryItem :=
| STitle
| SDate (stamp : string)
| STotal (n : Z)
| SSucceeded (n : Z)
| SErrors (n : Z)
| SDetails
| SFileOk (i : Z) (name : string) (num_steps : Z) (time : Q)
| SFileFailed (i : Z).

(** What a path of the file system holds. *)
Inductive Entry :=
| Dir
| JsonData (field_data : FieldData) (history_data : HistoryData)
           (odb_file stamp : string) (cfg : Config)
| Summary (lines : list SummaryItem)
| Html (content : string)
| Other (content : string).

Definition is_dir (n : Entry) : bool :=
  match n with
  | Dir => true
  | _ => false
  end.

(** The files, and the paths of the databases that are open. *)
Record World := {
  files : gmap string Entry;
  open_odbs : list string
}.

(** What the processing consumes from outside the program text: whether
    the Abaqus modules imported, the database [openOdb] returns for a
    path (or the exception it raises), the effect on the files of the
    pandas calls of [_export_to_excel] and of the matplotlib calls of the
    four plotting methods ([Some e]: the exception [e] was raised), the
    clock by format, and the formatter. *)
Record Environment := {
  ODB_AVAILABLE : bool;
  openOdb : string -> result Odb;
  excel_writer : PostProcessingResults -> gmap string Entry
                 -> option exception * gmap string Entry;
  figures : PostProcessingResults -> string -> gmap string Entry
            -> option exception * gmap string Entry;
  strftime : string -> string;
  isoformat : string;
  formatter : Formatter
}.

Section Processing.

Notation "x <~ m ;; k" := (Spall.bind m (fun x => k))
  (at level 100, m at next level, right associativity).
Notation "m ;;; k" := (Spall.bind m (fun _ => k))
  (at level 100, right associativity).

Variable env : Environment.
Variable self : PostProcessingSystem.

(** A computation that does not touch the world. *)
Definition lift {A} (r : result A) : Spall.M World A := fun w => (r, w).

(** A call of the standard library that works on the files: on an
    exception they are left as they were. *)
Definition on_fs (call : gmap string Entry -> result (gmap string Entry))
  : Spall.M World unit := fun w =>
  match call (files w) with
  | Ok fs => (Ok tt, {| files := fs; open_odbs := open_odbs w |})
  | Raise e => (Raise e, w)
  end.

(** [os.makedirs(path, exist_ok=True)] *)
Definition makedirs (path : string) : Spall.M World unit :=
  on_fs (FS.makedirs Dir is_dir path).

(** [with open(path, 'w') as f: ...] writing [content]. *)
Definition write_file (path : string) (content : Entry) : Spall.M World unit :=
  on_fs (FS.write is_dir path content).

(** A library call that works on the files. *)
Definition on_files
    (call : gmap string Entry -> option exception * gmap string Entry)
  : Spall.M World unit := fun w =>
  let (r, fs) := call (files w) in
  let w' := {| files := fs; open_odbs := open_odbs w |} in
  match r with
  | Some e => (Raise e, w')
  | None => (Ok tt, w')
  end.

(** [odb = openOdb(odb_file)] *)
Definition open_odb (odb_file : string) : Spall.M World Odb := fun w =>
  match openOdb env odb_file with
  | Ok odb => (Ok odb, {| files := files w;
                          open_odbs := odb_file :: open_odbs w |})
  | Raise e => (Raise e, w)
  end.

Fixpoint remove_first (x : string) (l : list string) : list string :=
  match l with
  | [] => []
  | y :: t => if String.eqb y x then t else y :: remove_first x t
  end.

(** [odb.close()] *)
Definition close_odb (odb_file : string) : Spall.M World unit := fun w =>
  (Ok tt, {| files := files w;
             open_odbs := remove_first odb_file (open_odbs w) |}).

(** *** [process_odb_file] *)

Definition _export_to_excel (results : PostProcessingResults) : Spall.M World unit :=
  on_files (excel_writer env results).

Definition _save_results (results : PostProcessingResults) : Spall.M World unit :=
  let json_file :=
    os_path_join (results_output_dir results) "extracted_data.json" in
  write_file json_file
    (JsonData (field_data results) (history_data results)
              (odb_file results) (isoformat env) (config self)) ;;;
  _export_to_excel results.

Definition _create_plots (results : PostProcessingResults) : Spall.M World unit :=
  let plots_dir := os_path_join (results_output_dir results) "plots" in
  makedirs plots_dir ;;;
  on_files (figures env results plots_dir).

(** The [try] block of lines 134-163. *)
Definition process_block (odb_file output_dir : string)
  : Spall.M World PostProcessingResults :=
  odb <~ open_odb odb_file ;;
  field_data <~ lift (_extract_field_data self odb) ;;
  history_data <~ lift (_extract_history_data self odb) ;;
  let results := {| odb_file := odb_file;
                    field_data := field_data;
                    history_data := history_data;
                    results_output_dir := output_dir;
                    processing_time := 0 |} in
  _save_results results ;;;
  _create_plots results ;;;
  close_odb odb_file ;;;
  Spall.ret results.

(** The output directory of [process_odb_file] (lines 129-130). *)
Definition analysis_dir (output_dir : option string) : string :=
  match output_dir with
  | Some d => d
  | None => os_path_join (PostProc.output_dir self)
              ("analysis_" +:+ strftime env "%Y%m%d_%H%M%S")
  end.

Definition process_odb_file (odb_file : string) (output_dir : option string)
  : Spall.M World PostProcessingResults :=
  if negb (ODB_AVAILABLE env) then
    Spall.raise (RuntimeError
             "Abaqus ODB API недоступен. Невозможно обработать ODB файл.")
  else
    let output_dir := analysis_dir output_dir in
    makedirs output_dir ;;;
    Spall.try_except (process_block odb_file output_dir) (fun e => Spall.raise e).

(** *** [batch_process] *)

(** [enumerate(l, start)] *)
Fixpoint enumerate {A} (start : Z) (l : list A) : list (Z * A) :=
  match l with
  | [] => []
  | x :: t => (start, x) :: enumerate (start + 1) t
  end.

(** The local variable [results] lives next to the world while the loop
    runs. *)
Record Batch := {
  world : World;
  batch_results : list (option PostProcessingResults)
}.

Definition in_world {A} (m : Spall.M World A) : Spall.M Batch A := fun b =>
  let (r, w) := m (world b) in
  (r, {| world := w; batch_results := batch_results b |}).

(** [results.append(r)] *)
Definition append (r : option PostProcessingResults) : Spall.M Batch unit :=
  fun b => (Ok tt, {| world := world b;
                      batch_results := batch_results b ++ [r] |}).

Definition file_output_dir (output_dir : string) (i : Z) : string :=
  os_path_join output_dir ("file_" +:+ Py.str_int i).

(** One turn of [for i, odb_file in enumerate(odb_files, 1)]. *)
Definition batch_turn (output_dir : string) (item : Z * string)
  : Spall.M Batch unit :=
  let (i, odb_file) := item in
  Spall.try_except
    (result <~ in_world (process_odb_file odb_file
                           (Some (file_output_dir output_dir i))) ;;
     append (Some result))
    (fun e => append None).

Definition is_some {A} (o : option A) : bool :=
  match o with
  | Some _ => true
  | None => false
  end.

Definition summary_line (item : Z * option PostProcessingResults)
  : SummaryItem :=
  match item with
  | (i, Some result) =>
      SFileOk i (basename (odb_file result)) (Py.len (field_data result))
              (processing_time result)
  | (i, None) => SFileFailed i
  end.

Definition summary_lines (results : list (option PostProcessingResults))
  : list SummaryItem :=
  [STitle; SDate (strftime env "%Y-%m-%d %H:%M:%S");
   STotal (Py.len results);
   SSucceeded (Py.len (List.filter is_some results));
   SErrors (Py.len (List.filter (fun r => negb (is_some r)) results));
   SDetails]
  ++ map summary_line (enumerate 1 results).

Definition summary_file (output_dir : string) : string :=
  os_path_join output_dir "batch_summary.txt".

Definition _create_batch_summary
    (results : list (option PostProcessingResults)) (output_dir : string)
  : Spall.M World unit :=
  write_file (summary_file output_dir) (Summary (summary_lines results)).

(** The output directory of [batch_process] (lines 517-518). *)
Definition batch_dir (output_dir : option string) : string :=
  match output_dir with
  | Some d => d
  | None => os_path_join (PostProc.output_dir self)
              ("batch_" +:+ strftime env "%Y%m%d_%H%M%S")
  end.

Definition batch_process (odb_files : list string) (output_dir : option string)
  : Spall.M World (list (option PostProcessingResults)) :=
  let output_dir := batch_dir output_dir in
  makedirs output_dir ;;;
  fun w =>
    let (r, b) := Spall.for_loop (batch_turn output_dir) (enumerate 1 odb_files)
                           {| world := w; batch_results := [] |} in
    match r with
    | Ok _ =>
        (_create_batch_summary (batch_results b) output_dir ;;;
         Spall.ret (batch_results b)) (world b)
    | Raise e => (Raise e, world b)
    end.

(** *** [generate_report] *)

(** [max([max(step_data.keys()) for step_data in field_data.values()])
    if field_data else 0] *)
Definition total_time (fd : FieldData) : result Q :=
  match fd with
  | [] => Ok 0
  | _ :: _ =>
      maxima ← comprehension (fun step_data : StepData =>
                                Py.max (dict_keys step_data))
                             (dict_values fd);
      Py.max maxima
  end.

Definition report_arguments (results : PostProcessingResults)
    (total_time max_stress max_strain : Q) : list (string * FormatArg) :=
  [("odb_file", AStr (basename (odb_file results)));
   ("analysis_date", AStr (strftime env "%Y-%m-%d %H:%M:%S"));
   ("processing_time", ANum (processing_time results));
   ("num_steps", AInt (Py.len (field_data results)));
   ("total_time", ANum total_time);
   ("max_stress", ANum max_stress);
   ("max_strain", ANum max_strain)].

Definition _create_html_report (results : PostProcessingResults)
  : result string :=
  total_time ← total_time (field_data results);
  max_stress ← get_max_stress results;
  max_strain ← get_max_strain results;
  str_format (formatter env)
    (report_arguments results total_time max_stress max_strain)
    html_template.

Definition generate_report (results : PostProcessingResults)
    (output_file : option string) : Spall.M World unit :=
  let output_file :=
    match output_file with
    | Some f => f
    | None => os_path_join (results_output_dir results) "analysis_report.html"
    end in
  html_content <~ lift (_create_html_report results) ;;
  write_file output_file (Html html_content).

End Processing.

End PostProcIO.

(** *** Vocabulary of the processing *)

Module PostProcIOSpec.
Import PostProc PostProcSpec PostProcIO.

(** [res] is what processing the database at [file] into the directory
    [out] returns: the two extractions of the database opened at [file],
    with a processing time of [0]. *)
Definition processed_from (env : Environment) (self : PostProcessingSystem)
    (file out : string) (res : PostProcessingResults) : Prop :=
  odb_file res = file /\
  results_output_dir res = out /\
  processing_time res = 0 /\
  exists odb,
    openOdb env file = Ok odb /\
    _extract_field_data self odb = Ok (field_data res) /\
    _extract_history_data self odb = Ok (history_data res).

(** The entry of the batch results for the [i]-th file: [None], or the
    results of processing that file into its directory [file_<i>]. *)
Definition entry_ok (env : Environment) (self : PostProcessingSystem)
    (out : string) (item : Z * string) (entry : option PostProcessingResults)
  : Prop :=
  match entry with
  | None => True
  | Some res =>
      processed_from env self (snd item) (file_output_dir out (fst item)) res
  end.

(** A formatter for strings and integers. *)
Definition formatter_sample : Formatter :=
  {| format_value := fun v spec =>
       match v with
       | AStr s => Ok s
       | AInt n => Ok (Py.str_int n)
       | ANum x => Raise (ValueError "Unknown format code")
       end;
     format_beyond := fun _ _ =>
       Raise (ValueError "cannot switch from manual field specification") |}.

(** An environment with one database, [job.odb], where the library calls
    succeed without leaving a file. *)
Definition env_sample : Environment :=
  {| ODB_AVAILABLE := true;
     openOdb := fun file =>
       if String.eqb file "job.odb" then Ok odb_sample
       else Raise (AbaqusError "cannot open database");
     excel_writer := fun _ fs => (None, fs);
     figures := fun _ _ fs => (None, fs);
     strftime := fun _ => "20250101_120000";
     isoformat := "2025-01-01T12:00:00";
     formatter := formatter_sample |}.

(** The same, where writing the workbook fails. *)
Definition env_excel_fails : Environment :=
  {| ODB_AVAILABLE := true;
     openOdb := openOdb env_sample;
     excel_writer := fun _ fs =>
       (Some (IndexError "At least one sheet must be visible"), fs);
     figures := figures env_sample;
     strftime := strftime env_sample;
     isoformat := isoformat env_sample;
     formatter := formatter_sample |}.

(** The same as [env_sample], without the Abaqus modules. *)
Definition env_no_odb : Environment :=
  {| ODB_AVAILABLE := false;
     openOdb := openOdb env_sample;
     excel_writer := excel_writer env_sample;
     figures := figures env_sample;
     strftime := strftime env_sample;
     isoformat := isoformat env_sample;
     formatter := formatter_sample |}.

Definition world_empty : World := {| files := ∅; open_odbs := [] |}.

End PostProcIOSpec.

(** ** Extraction on a store of objects

    The two extraction methods once more, statement by statement, over a
    store of mutable objects. The dictionaries the methods build are
    objects that are updated in place and that hold references to the
    dictionaries under them; [self], the dictionary [self.config] and the
    two dictionaries it holds are objects of the store as well, so that a
    method could write to them. [PostProc] gives the same methods as
    functions from values to values; the theorems relate the two. The
    output database is read through its interface and is not part of the
    store. *)

Module PostProcStore.
Import PostProc.

(** Keys of the dictionaries: strings, and the numbers [frameValue]. *)
Inductive key :=
| KStr (s : string)
| KNum (q : Q).

Definition key_eqb (a b : key) : bool :=
  match a, b with
  | KStr s, KStr t => String.eqb s t
  | KNum p, KNum q => Qeq_bool p q
  | _, _ => false
  end.

(** What a dictionary entry or a variable holds: a number, a list of
    numbers (the lists are built by comprehensions and never updated), or
    a reference to an object: its place in the store. *)
Inductive value :=
| VNum (m : Py.Number)
| VNums (l : list Q)
| VRef (l : nat).

(** The objects: the dictionaries built by the extraction, the attribute
    dictionary of an instance and the dictionary [self.config], all under
    [Dict]; and the two dictionaries of the configuration, with the
    entries the default configuration gives them. *)
Inductive object :=
| Dict (entries : list (key * value))
| FieldOutputs (entries : list (string * list string))
| HistoryOutputs (entries : list (string * string)).

Definition Store := list object.

Section Program.

Notation "x <~ m ;; k" := (Spall.bind m (fun x => k))
  (at level 100, m at next level, right associativity).
Notation "m ;;; k" := (Spall.bind m (fun _ => k))
  (at level 100, right associativity).

(** A computation that does not touch the store. *)
Definition lift {A} (r : result A) : Spall.M Store A := fun s => (r, s).

(** [{}] and the dictionary literals: a new object, at the end of the
    store. *)
Definition alloc (o : object) : Spall.M Store value :=
  fun s => (Ok (VRef (length s)), s ++ [o]).

(** The object a value refers to. In Python every reference leads to an
    object and an operation on an object of another kind than it expects
    raises [TypeError] or [AttributeError]; both cases are [TypeError]
    here. *)
Definition deref (v : value) : Spall.M Store (nat * object) := fun s =>
  match v with
  | VRef l =>
      match s !! l with
      | Some o => (Ok (l, o), s)
      | None => (Raise (TypeError "no object"), s)
      end
  | _ => (Raise (TypeError "not an object"), s)
  end.

Definition entries_of (v : value) : Spall.M Store (nat * list (key * value)) :=
  r <~ deref v;;
  match snd r with
  | Dict entries => Spall.ret (fst r, entries)
  | _ => Spall.raise (TypeError "not a dictionary")
  end.

(** [d[k]] with a string [k]. *)
Definition getitem (d : value) (k : string) : Spall.M Store value :=
  r <~ entries_of d;;
  match dict_get key_eqb (KStr k) (snd r) with
  | Some v => Spall.ret v
  | None => Spall.raise (KeyError k)
  end.

(** [d[k] = v]: the object [d] refers to is updated in place. *)
Definition setitem (d : value) (k : key) (v : value) : Spall.M Store unit :=
  r <~ entries_of d;;
  fun s => (Ok tt, <[fst r := Dict (dict_set key_eqb k v (snd r))]> s).

(** [self.name] *)
Definition getattr (self : value) (name : string) : Spall.M Store value :=
  r <~ entries_of self;;
  match dict_get key_eqb (KStr name) (snd r) with
  | Some v => Spall.ret v
  | None =>
      Spall.raise (AttributeError
                     ("'PostProcessingSystem' object has no attribute '"
                      +:+ name +:+ "'"))
  end.

(** [d.items()] on the two dictionaries of the configuration. *)
Definition field_outputs_items (d : value)
  : Spall.M Store (list (string * list string)) :=
  r <~ deref d;;
  match snd r with
  | FieldOutputs entries => Spall.ret entries
  | _ => Spall.raise (TypeError "not a dictionary of components")
  end.

Definition history_outputs_items (d : value)
  : Spall.M Store (list (string * string)) :=
  r <~ deref d;;
  match snd r with
  | HistoryOutputs entries => Spall.ret entries
  | _ => Spall.raise (TypeError "not a dictionary of outputs")
  end.

(** The entries of the dictionary literals of lines 199-204 and
    233-239. *)
Definition sample_entries (s : FieldSample) : list (key * value) :=
  [(KStr "values", VNums (sample_values s));
   (KStr "max", VNum (Py.Lit (sample_max s)));
   (KStr "min", VNum (Py.Lit (sample_min s)));
   (KStr "mean", VNum (sample_mean s))].

Definition series_entries (h : HistorySeries) : list (key * value) :=
  [(KStr "times", VNums (series_times h));
   (KStr "values", VNums (series_values h));
   (KStr "max", VNum (Py.Lit (series_max h)));
   (KStr "min", VNum (Py.Lit (series_min h)));
   (KStr "mean", VNum (series_mean h))].

(** Body of [for component in components] (lines 196-204): the literal is
    built first, then [frame_data[field_type]] is looked up and
    updated. *)
Definition extract_component (frame_data : value) (field_type : string)
    (field_output : FieldOutput) (component : string) : Spall.M Store unit :=
  v0 <~ lift (first_value field_output);;
  if smem component (fv_data v0) then
    vals <~ lift (comprehension
                    (fun value => subscript (fv_data value) component)
                    (values field_output));;
    sample <~ lift (field_sample vals);;
    literal <~ alloc (Dict (sample_entries sample));;
    target <~ getitem frame_data field_type;;
    setitem target (KStr component) literal
  else Spall.ret tt.

(** Body of [for field_type, components in ... .items()]
    (lines 191-204). *)
Definition extract_field (frame_data : value) (frame : Frame)
    (item : string * list string) : Spall.M Store unit :=
  let (field_type, components) := item in
  match sget field_type (fieldOutputs frame) with
  | Some field_output =>
      empty <~ alloc (Dict []);;
      setitem frame_data (KStr field_type) empty;;;
      Spall.for_loop (extract_component frame_data field_type field_output)
                     components
  | None => Spall.ret tt
  end.

(** Body of [for frame in frames] (lines 187-207). *)
Definition extract_frame (self field_data : value) (step_name : string)
    (frame : Frame) : Spall.M Store unit :=
  frame_data <~ alloc (Dict []);;
  config <~ getattr self "config";;
  field_outputs <~ getitem config "field_outputs";;
  requested <~ field_outputs_items field_outputs;;
  Spall.for_loop (extract_field frame_data frame) requested;;;
  setitem frame_data (KStr "time") (VNum (Py.Lit (frameValue frame)));;;
  target <~ getitem field_data step_name;;
  setitem target (KNum (frameValue frame)) frame_data.

(** Body of [for step_name in steps] (lines 181-207). *)
Definition extract_step (self field_data : value) (odb : Odb)
    (step_name : string) : Spall.M Store unit :=
  step <~ lift (subscript (steps odb) step_name);;
  empty <~ alloc (Dict []);;
  setitem field_data (KStr step_name) empty;;;
  Spall.for_loop (extract_frame self field_data step_name) (frames step).

Definition _extract_field_data (self : value) (odb : Odb)
  : Spall.M Store value :=
  field_data <~ alloc (Dict []);;
  Spall.for_loop (extract_step self field_data odb)
                 (dict_keys (steps odb));;;
  Spall.ret field_data.

(** Body of [for history_name, output_name in ... .items()]
    (lines 223-239). *)
Definition extract_history (history_data : value) (step_name : string)
    (step : Step) (item : string * string) : Spall.M Store unit :=
  let (history_name, output_name) := item in
  match sget history_name (historyRegions step) with
  | Some history_region =>
      match sget output_name (historyOutputs history_region) with
      | Some history_output =>
          series <~ lift (history_series (ho_data history_output));;
          literal <~ alloc (Dict (series_entries series));;
          target <~ getitem history_data step_name;;
          setitem target (KStr history_name) literal
      | None => Spall.ret tt
      end
  | None => Spall.ret tt
  end.

(** Body of [for step_name in odb.steps.keys()] (lines 218-239). *)
Definition extract_step_history (self history_data : value) (odb : Odb)
    (step_name : string) : Spall.M Store unit :=
  step <~ lift (subscript (steps odb) step_name);;
  empty <~ alloc (Dict []);;
  setitem history_data (KStr step_name) empty;;;
  config <~ getattr self "config";;
  history_outputs <~ getitem config "history_outputs";;
  requested <~ history_outputs_items history_outputs;;
  Spall.for_loop (extract_history history_data step_name step) requested.

Definition _extract_history_data (self : value) (odb : Odb)
  : Spall.M Store value :=
  history_data <~ alloc (Dict []);;
  Spall.for_loop (extract_step_history self history_data odb)
                 (dict_keys (steps odb));;;
  Spall.ret history_data.

End Program.

(** *** The structure under a value *)

(** A tree of dictionaries with numbers and lists of numbers at the
    leaves: what a value stands for, whatever the places of the objects. *)
#[local] Unset Elimination Schemes.
Inductive tree :=
| TNum (m : Py.Number)
| TNums (l : list Q)
| TDict (entries : list (key * tree)).
#[local] Set Elimination Schemes.

(** Two lists related item by item. *)
Fixpoint all2 {A B} (R : A -> B -> Prop) (l : list A) (l' : list B) : Prop :=
  match l, l' with
  | [], [] => True
  | x :: t, y :: t' => R x y /\ all2 R t t'
  | _, _ => False
  end.

(** [v] stands for [t] in [s], with every object of it at a place in
    [[lo, hi)] and every dictionary at a lower place than the
    dictionaries under it. *)
Fixpoint models (s : Store) (hi : nat) (t : tree) (lo : nat) (v : value)
  {struct t} : Prop :=
  match t with
  | TNum m => v = VNum m
  | TNums l => v = VNums l
  | TDict ts =>
      exists l entries,
        v = VRef l /\ (lo <= l < hi)%nat /\
        s !! l = Some (Dict entries) /\
        all2 (fun kt kv =>
                fst kt = fst kv /\ models s hi (snd kt) (S l) (snd kv))
             ts entries
  end.

(** The entries of the dictionary at [l] stand for the entries [ts]. *)
Definition children (s : Store) (hi l : nat) (ts : list (key * tree))
    (entries : list (key * value)) : Prop :=
  all2 (fun kt kv =>
          fst kt = fst kv /\ models s hi (snd kt) (S l) (snd kv))
       ts entries.

(** From [s] to [s'] objects were added and, of the objects of [s], none
    but the one at [p] was updated. *)
Definition grows (p : nat) (s s' : Store) : Prop :=
  (length s <= length s')%nat /\
  forall l, (l < length s)%nat -> l <> p -> s' !! l = s !! l.

(** The trees of the extraction results. *)
Definition tree_of_sample (s : FieldSample) : tree :=
  TDict [(KStr "values", TNums (sample_values s));
         (KStr "max", TNum (Py.Lit (sample_max s)));
         (KStr "min", TNum (Py.Lit (sample_min s)));
         (KStr "mean", TNum (sample_mean s))].

(** The entries of a dictionary whose keys go through [enc] and whose
    values through [f]. *)
Definition encode {K T} (enc : K -> key) (f : T -> tree)
    (d : list (K * T)) : list (key * tree) :=
  map (fun e => (enc (fst e), f (snd e))) d.

Definition tree_of_components (c : list (string * FieldSample)) : tree :=
  TDict (encode KStr tree_of_sample c).

Definition tree_of_entry (e : FrameEntry) : tree :=
  match e with
  | Components c => tree_of_components c
  | TimeValue t => TNum (Py.Lit t)
  end.

Definition tree_of_frame (frame_data : FrameData) : tree :=
  TDict (encode KStr tree_of_entry frame_data).

Definition tree_of_step (step_data : StepData) : tree :=
  TDict (encode KNum tree_of_frame step_data).

Definition tree_of_field_data (field_data : FieldData) : tree :=
  TDict (encode KStr tree_of_step field_data).

Definition tree_of_series (h : HistorySeries) : tree :=
  TDict [(KStr "times", TNums (series_times h));
         (KStr "values", TNums (series_values h));
         (KStr "max", TNum (Py.Lit (series_max h)));
         (KStr "min", TNum (Py.Lit (series_min h)));
         (KStr "mean", TNum (series_mean h))].

Definition tree_of_channels (c : list (string * HistorySeries)) : tree :=
  TDict (encode KStr tree_of_series c).

Definition tree_of_history_data (history_data : HistoryData) : tree :=
  TDict (encode KStr tree_of_channels history_data).

(** [self] refers, in [s], to a system whose configuration dictionary
    holds the entries of [cfg], each in a dictionary of its own. *)
Definition holds_entry {A} (s : Store) (entries : list (key * value))
    (name : string) (kind : A -> object) (entry : option A) : Prop :=
  match entry with
  | Some requested =>
      exists l, dict_get key_eqb (KStr name) entries = Some (VRef l) /\
                s !! l = Some (kind requested)
  | None => dict_get key_eqb (KStr name) entries = None
  end.

Definition holds (s : Store) (self : value) (cfg : Config) : Prop :=
  exists l attributes c entries,
    self = VRef l /\
    s !! l = Some (Dict attributes) /\
    dict_get key_eqb (KStr "config") attributes = Some (VRef c) /\
    s !! c = Some (Dict entries) /\
    holds_entry s entries "field_outputs" FieldOutputs (field_outputs cfg) /\
    holds_entry s entries "history_outputs" HistoryOutputs
                (history_outputs cfg).

(** The outcome [r] of a call that left the store [s] is the outcome
    [expected] of the function on values: the same exception, or a value
    that stands for the tree of the result with all its objects at
    places from [lo] on. *)
Definition outcome {A} (tree_of : A -> tree) (s : Store) (lo : nat)
    (r : result value) (expected : result A) : Prop :=
  match r, expected with
  | Ok v, Ok a => models s (length s) (tree_of a) lo v
  | Raise e, Raise e' => e = e'
  | _, _ => False
  end.

(** The call [run] from the store [s] follows the function on values,
    whose outcome is [expected]: it ends with outcome [r] in the store
    [s] followed by the objects [new], so that no object of [s] was
    updated, and [r] is [expected] on objects of [new] alone. *)
Definition follows {A} (tree_of : A -> tree) (run : Spall.M Store value)
    (s : Store) (expected : result A) (r : result value)
    (new : list object) : Prop :=
  run s = (r, s ++ new) /\
  outcome tree_of (s ++ new) (length s) r expected.

(** A store with a system that holds the configuration of
    [PostProcSpec.system0]. *)
Definition store_sample : Store :=
  [Dict [(KStr "config", VRef 1)];
   Dict [(KStr "field_outputs", VRef 2); (KStr "history_outputs", VRef 3)];
   FieldOutputs [("stress", ["S11"; "S22"]); ("strain", ["E11"; "E22"])];
   HistoryOutputs [("kinetic_energy", "KE")]].

End PostProcStore.

(** ** Facts about the Python primitives *)

Section PyFacts.

Lemma lt_true (x y : Q) : Py.lt x y = true <-> x < y.
Proof.
  unfold Py.lt. rewrite negb_true_iff. split.
  - intros H. apply Qnot_le_lt. intros Hle.
    apply Qle_bool_iff in Hle. congruence.
  - intros H. destruct (Qle_bool y x) eqn:E; [|reflexivity].
    apply Qle_bool_iff in E. exfalso. exact (Qlt_not_le _ _ H E).
Qed.

Lemma lt_false (x y : Q) : Py.lt x y = false <-> y <= x.
Proof.
  unfold Py.lt. rewrite negb_false_iff. apply Qle_bool_iff.
Qed.

Lemma max2_cases (a b : Q) :
  (Py.max2 a b = a /\ b <= a) \/ (Py.max2 a b = b /\ a < b).
Proof.
  unfold Py.max2, Py.gt. destruct (Py.lt a b) eqn:E.
  - right. split; [reflexivity|]. now apply lt_true.
  - left. split; [reflexivity|]. now apply lt_false.
Qed.

Lemma min2_cases (a b : Q) :
  (Py.min2 a b = a /\ a <= b) \/ (Py.min2 a b = b /\ b < a).
Proof.
  unfold Py.min2. destruct (Py.lt b a) eqn:E.
  - right. split; [reflexivity|]. now apply lt_true.
  - left. split; [reflexivity|]. now apply lt_false.
Qed.

(** The scan of [max] returns an element of the sequence that bounds all
    the others. *)
Lemma fold_max2_spec (t : list Q) (x : Q) :
  is_maximum (fold_left Py.max2 t x) (x :: t).
Proof.
  revert x. induction t as [|y t IH]; intros x; simpl.
  - split; [now left|]. intros z [<-|[]]. apply Qle_refl.
  - destruct (IH (Py.max2 x y)) as [Hin Hub]. split.
    + destruct Hin as [Hin|Hin]; [|now right; right].
      rewrite <- Hin.
      destruct (max2_cases x y) as [[E _]|[E _]]; rewrite E.
      * now left.
      * right; now left.
    + intros z Hz.
      assert (Hxy : x <= Py.max2 x y /\ y <= Py.max2 x y).
      { destruct (max2_cases x y) as [[E H]|[E H]]; rewrite E; split;
          try apply Qle_refl; try assumption. now apply Qlt_le_weak. }
      destruct Hxy as [Hx Hy].
      assert (Hm : Py.max2 x y <= fold_left Py.max2 t (Py.max2 x y))
        by (apply Hub; now left).
      destruct Hz as [<-|[<-|Hz]].
      * eapply Qle_trans; eassumption.
      * eapply Qle_trans; eassumption.
      * apply Hub. now right.
Qed.

Lemma fold_min2_spec (t : list Q) (x : Q) :
  is_minimum (fold_left Py.min2 t x) (x :: t).
Proof.
  revert x. induction t as [|y t IH]; intros x; simpl.
  - split; [now left|]. intros z [<-|[]]. apply Qle_refl.
  - destruct (IH (Py.min2 x y)) as [Hin Hlb]. split.
    + destruct Hin as [Hin|Hin]; [|now right; right].
      rewrite <- Hin.
      destruct (min2_cases x y) as [[E _]|[E _]]; rewrite E.
      * now left.
      * right; now left.
    + intros z Hz.
      assert (Hxy : Py.min2 x y <= x /\ Py.min2 x y <= y).
      { destruct (min2_cases x y) as [[E H]|[E H]]; rewrite E; split;
          try apply Qle_refl; try assumption. now apply Qlt_le_weak. }
      destruct Hxy as [Hx Hy].
      assert (Hm : fold_left Py.min2 t (Py.min2 x y) <= Py.min2 x y)
        by (apply Hlb; now left).
      destruct Hz as [<-|[<-|Hz]].
      * eapply Qle_trans; eassumption.
      * eapply Qle_trans; eassumption.
      * apply Hlb. now right.
Qed.

Lemma max_spec (l : list Q) :
  l <> [] -> exists m, Py.max l = Ok m /\ is_maximum m l.
Proof.
  destruct l as [|x t]; [congruence|]. intros _.
  exists (fold_left Py.max2 t x). split; [reflexivity|apply fold_max2_spec].
Qed.

Lemma min_spec (l : list Q) :
  l <> [] -> exists m, Py.min l = Ok m /\ is_minimum m l.
Proof.
  destruct l as [|x t]; [congruence|]. intros _.
  exists (fold_left Py.min2 t x). split; [reflexivity|apply fold_min2_spec].
Qed.

End PyFacts.

(** ** Data reduction engine *)

Section Reduction.
Import PostProc.

Lemma field_sample_nonempty (vals : list Q) :
  vals <> [] ->
  exists mx mn,
    Py.max vals = Ok mx /\ Py.min vals = Ok mn /\
    field_sample vals =
      Ok {| sample_values := vals; sample_max := mx; sample_min := mn;
            sample_mean := Py.np_mean vals |}.
Proof.
  intros Hne.
  destruct (max_spec vals Hne) as [mx [Hmx _]].
  destruct (min_spec vals Hne) as [mn [Hmn _]].
  exists mx, mn. split; [assumption|]. split; [assumption|].
  unfold field_sample. destruct vals as [|x t]; [congruence|].
  unfold if_values. rewrite Hmx, Hmn. reflexivity.
Qed.

Lemma field_sample_total (vals : list Q) :
  exists s, field_sample vals = Ok s /\ sample_values s = vals.
Proof.
  destruct vals as [|x t].
  - eexists. split; reflexivity.
  - destruct (field_sample_nonempty (x :: t)) as [mx [mn [_ [_ E]]]];
      [discriminate|].
    eexists. split; [exact E|reflexivity].
Qed.

(** The history literal computes the same three statistics as the field
    literal, from the [data] of the points. *)
Lemma history_series_field_sample (data : list HistoryPoint) :
  exists s h,
    field_sample (map hp_data data) = Ok s /\
    history_series data = Ok h /\
    series_times h = map hp_time data /\
    series_values h = map hp_data data /\
    series_max h = sample_max s /\
    series_min h = sample_min s /\
    series_mean h = sample_mean s.
Proof.
  unfold history_series, field_sample.
  destruct (map hp_data data) as [|x t] eqn:E.
  - do 2 eexists. repeat split; reflexivity.
  - unfold if_values. simpl.
    do 2 eexists. repeat split; reflexivity.
Qed.

(** X23. The reduction of a sample set, the mean apart: an empty sequence
    gives [max = min = 0] and the mean [0] that the code writes; a
    non-empty one gives a largest and a smallest element of the
    sequence, and as mean the result of [np.mean] on the sequence;
    [[7]] gives [7, 7] and [[1, 2, 3]] gives [3, 1]; the values of a
    history channel are reduced in the same way. *)
Theorem reduce_samples_extrema :
  field_sample [] =
    Ok {| sample_values := []; sample_max := 0; sample_min := 0;
          sample_mean := Py.Lit 0 |} /\
  (forall vals : list Q, vals <> [] ->
     exists s, field_sample vals = Ok s /\
               sample_values s = vals /\
               is_maximum (sample_max s) vals /\
               is_minimum (sample_min s) vals /\
               sample_mean s = Py.np_mean vals) /\
  (exists s, field_sample [7] = Ok s /\
             sample_max s = 7 /\ sample_min s = 7) /\
  (exists s, field_sample [1; 2; 3] = Ok s /\
             sample_max s = 3 /\ sample_min s = 1) /\
  (forall data : list HistoryPoint,
     exists s h,
       field_sample (map hp_data data) = Ok s /\
       history_series data = Ok h /\
       series_times h = map hp_time data /\
       series_values h = map hp_data data /\
       series_max h = sample_max s /\
       series_min h = sample_min s /\
       series_mean h = sample_mean s).
Proof.
  split; [reflexivity|]. split; [|split; [|split]].
  - intros vals Hne.
    destruct (field_sample_nonempty vals Hne) as [mx [mn [Hmx [Hmn E]]]].
    destruct (max_spec vals Hne) as [mx' [Hmx' Smx]].
    destruct (min_spec vals Hne) as [mn' [Hmn' Smn]].
    assert (mx' = mx) by congruence. assert (mn' = mn) by congruence.
    subst mx' mn'.
    eexists. split; [exact E|]. simpl.
    repeat split; try apply Smx; try apply Smn.
  - eexists. split; [reflexivity|]. simpl. repeat split; reflexivity.
  - eexists. split; [reflexivity|]. simpl. repeat split; reflexivity.
  - apply history_series_field_sample.
Qed.

(** The non-empty case of X23 at [[4, -1, 9/2]]. *)
Lemma reduce_samples_extrema_witness :
  exists s, field_sample [4; -1; 9 # 2] = Ok s /\
            sample_values s = [4; -1; 9 # 2] /\
            is_maximum (sample_max s) [4; -1; 9 # 2] /\
            is_minimum (sample_min s) [4; -1; 9 # 2] /\
            sample_mean s = Py.np_mean [4; -1; 9 # 2].
Proof.
  apply (proj1 (proj2 reduce_samples_extrema) [4; -1; 9 # 2]). discriminate.
Defined.

End Reduction.

(** ** Loops and dictionaries *)

Section Control.
Context {A S : Type} (body : A -> S -> result S).

(** A loop whose body raises at some item, whatever the accumulator, raises. *)
Lemma for_each_raises (l : list A) (x : A) :
  In x l ->
  (forall acc, exists e, body x acc = Raise e) ->
  forall acc, exists e, for_each body l acc = Raise e.
Proof.
  intros Hin Hx. induction l as [|y t IH]; [destruct Hin|].
  intros acc. simpl. destruct (body y acc) as [acc'|e] eqn:E.
  - destruct Hin as [->|Hin].
    + destruct (Hx acc) as [e He]. congruence.
    + exact (IH Hin acc').
  - now exists e.
Qed.

(** A loop whose body returns at every item returns. *)
Lemma for_each_returns (l : list A) :
  (forall x acc, In x l -> exists acc', body x acc = Ok acc') ->
  forall acc, exists r, for_each body l acc = Ok r.
Proof.
  induction l as [|y t IH]; intros Hb acc; simpl.
  - now exists acc.
  - destruct (Hb y acc) as [acc' E]; [now left|]. rewrite E. simpl.
    apply IH. intros x a Hx. apply Hb. now right.
Qed.

(** An invariant of the accumulator, indexed by the items done so far. *)
Lemma for_each_invariant (P : list A -> S -> Prop) (l : list A) :
  (forall done x acc acc',
     P done acc -> body x acc = Ok acc' -> P (done ++ [x]) acc') ->
  forall done acc r,
    P done acc -> for_each body l acc = Ok r -> P (done ++ l) r.
Proof.
  intros Hstep. induction l as [|y t IH]; intros done acc r HP; simpl.
  - intros [= <-]. now rewrite app_nil_r.
  - destruct (body y acc) as [acc'|e] eqn:E; [|discriminate].
    simpl. intros Hr.
    replace (done ++ y :: t) with ((done ++ [y]) ++ t)
      by (rewrite <- app_assoc; reflexivity).
    eapply IH; [|exact Hr]. eapply Hstep; eassumption.
Qed.


End Control.

Section DictFacts.
Context {V : Type}.

Lemma sget_cons (k k0 : string) (v0 : V) (d : list (string * V)) :
  sget k ((k0, v0) :: d) = if String.eqb k0 k then Some v0 else sget k d.
Proof. reflexivity. Qed.

Lemma sget_sset (k k' : string) (v : V) (d : list (string * V)) :
  sget k (sset k' v d) = if String.eqb k' k then Some v else sget k d.
Proof.
  unfold sget, sset. induction d as [|[k0 v0] t IH]; simpl.
  - reflexivity.
  - destruct (String.eqb k0 k') eqn:E0; simpl.
    + apply String.eqb_eq in E0. subst k0.
      destruct (String.eqb k' k); reflexivity.
    + rewrite IH. destruct (String.eqb k0 k) eqn:E1; [|reflexivity].
      apply String.eqb_eq in E1. subst k0.
      rewrite String.eqb_sym in E0. now rewrite E0.
Qed.

Lemma sget_keys (k : string) (v : V) (d : list (string * V)) :
  sget k d = Some v -> In k (dict_keys d).
Proof.
  unfold sget. induction d as [|[k0 v0] t IH]; simpl; [discriminate|].
  destruct (String.eqb k0 k) eqn:E.
  - apply String.eqb_eq in E. now left.
  - intros H. right. now apply IH.
Qed.

Lemma smem_subscript (k : string) (d : list (string * V)) :
  smem k d = true -> exists v, subscript d k = Ok v.
Proof.
  unfold smem, dict_mem, subscript, sget.
  destruct (dict_get String.eqb k d) as [v|]; [|discriminate].
  intros _. now exists v.
Qed.

End DictFacts.


Lemma comprehension_returns {A B} (f : A -> result B) (l : list A) :
  (forall x, In x l -> exists y, f x = Ok y) ->
  exists ys, comprehension f l = Ok ys.
Proof.
  induction l as [|x t IH]; intros Hf; simpl.
  - now exists [].
  - destruct (Hf x) as [y Ey]; [now left|]. rewrite Ey. simpl.
    destruct IH as [ys Eys]; [intros z Hz; apply Hf; now right|].
    rewrite Eys. simpl. now exists (y :: ys).
Qed.

Lemma keys_sget {V} (k : string) (d : list (string * V)) :
  In k (dict_keys d) -> exists v, sget k d = Some v.
Proof.
  unfold sget. induction d as [|[k0 v0] t IH]; simpl; [intros []|].
  intros [->|Hin].
  - rewrite String.eqb_refl. now exists v0.
  - destruct (String.eqb k0 k); [now exists v0|now apply IH].
Qed.

(** ** Field extraction *)

Section Extraction.
Import PostProc PostProcSpec.

Lemma extract_component_no_values fo component acc :
  values fo = [] ->
  extract_component fo component acc =
    Raise (IndexError "list index out of range").
Proof.
  intros E. unfold extract_component, first_value. now rewrite E.
Qed.

Lemma extract_component_absent fo v0 rest component acc :
  values fo = v0 :: rest ->
  smem component (fv_data v0) = false ->
  extract_component fo component acc = Ok acc.
Proof.
  intros E H. unfold extract_component, first_value. rewrite E. simpl.
  now rewrite H.
Qed.

Lemma extract_component_present fo v0 rest component acc :
  values fo = v0 :: rest ->
  smem component (fv_data v0) = true ->
  extract_component fo component acc =
    (vals ← raw_values fo component;
     sample ← field_sample vals;
     Ok (sset component sample acc)).
Proof.
  intros E H. unfold extract_component, first_value. rewrite E. simpl.
  rewrite H. unfold raw_values. now rewrite E.
Qed.

Lemma extract_component_well_formed fo component acc :
  field_well_formed fo ->
  exists acc', extract_component fo component acc = Ok acc'.
Proof.
  intros [Hne Hkeys]. destruct (values fo) as [|v0 rest] eqn:E; [congruence|].
  destruct (smem component (fv_data v0)) eqn:Hc.
  - rewrite (extract_component_present fo v0 rest component acc E Hc).
    unfold raw_values.
    destruct (comprehension_returns
                (fun value => subscript (fv_data value) component)
                (values fo)) as [vals Ev].
    { intros v Hv. apply smem_subscript. rewrite <- Hc.
      rewrite E in Hv. apply Hkeys; [assumption|now left]. }
    rewrite Ev. simpl.
    destruct (field_sample_total vals) as [s [Es _]]. rewrite Es. simpl.
    eauto.
  - rewrite (extract_component_absent fo v0 rest component acc E Hc). eauto.
Qed.

Lemma extract_field_no_values frame field_type component components fo acc :
  sget field_type (fieldOutputs frame) = Some fo ->
  values fo = [] ->
  extract_field frame (field_type, component :: components) acc =
    Raise (IndexError "list index out of range").
Proof.
  intros Hfo E. unfold extract_field. rewrite Hfo. simpl.
  now rewrite (extract_component_no_values fo component [] E).
Qed.

Lemma in_requested_fields cfg item :
  In item (requested_fields cfg) <->
  exists requested, field_outputs cfg = Some requested /\ In item requested.
Proof.
  unfold requested_fields. destruct (field_outputs cfg) as [requested|].
  - split; [intros H; now exists requested|].
    intros [r [[= <-] H]]. exact H.
  - split; [intros []|]. intros [r [E _]]. discriminate.
Qed.

Lemma extract_frame_requested cfg frame requested :
  field_outputs cfg = Some requested ->
  extract_frame cfg frame =
    (frame_data ← for_each (extract_field frame) requested [];
     Ok (sset "time" (TimeValue (frameValue frame)) frame_data)).
Proof. intros E. unfold extract_frame. now rewrite E. Qed.

Lemma extract_frame_no_key cfg frame :
  field_outputs cfg = None ->
  extract_frame cfg frame = Raise (KeyError "field_outputs").
Proof. intros E. unfold extract_frame. now rewrite E. Qed.

Lemma extract_frame_no_values cfg frame field_type component components fo :
  In (field_type, component :: components) (requested_fields cfg) ->
  sget field_type (fieldOutputs frame) = Some fo ->
  values fo = [] ->
  exists e, extract_frame cfg frame = Raise e.
Proof.
  intros Hin Hfo E. apply in_requested_fields in Hin.
  destruct Hin as [requested [Hreq Hin]].
  rewrite (extract_frame_requested cfg frame requested Hreq).
  assert (Hb : forall acc, exists e,
             extract_field frame (field_type, component :: components) acc
             = Raise e).
  { intros acc. eexists. eapply extract_field_no_values; eassumption. }
  destruct (for_each_raises _ _ _ Hin Hb []) as [e He].
  exists e. now rewrite He.
Qed.

Lemma extract_field_well_formed frame item acc :
  (forall fo, sget (fst item) (fieldOutputs frame) = Some fo ->
              field_well_formed fo) ->
  exists acc', extract_field frame item acc = Ok acc'.
Proof.
  destruct item as [field_type components]. simpl. intros Hwf.
  unfold extract_field.
  destruct (sget field_type (fieldOutputs frame)) as [fo|] eqn:Hfo; [|eauto].
  assert (Hb : forall c a, In c components ->
                           exists a', extract_component fo c a = Ok a').
  { intros c a _. apply extract_component_well_formed. now apply Hwf. }
  destruct (for_each_returns _ _ Hb []) as [comps Ec].
  rewrite Ec. simpl. eauto.
Qed.

Lemma extract_frame_well_formed cfg frame requested :
  field_outputs cfg = Some requested ->
  (forall field_type components fo,
     In (field_type, components) requested ->
     sget field_type (fieldOutputs frame) = Some fo ->
     field_well_formed fo) ->
  exists frame_data, extract_frame cfg frame = Ok frame_data.
Proof.
  intros Hreq Hwf. rewrite (extract_frame_requested cfg frame requested Hreq).
  assert (Hb : forall item acc, In item requested ->
                                exists acc', extract_field frame item acc = Ok acc').
  { intros [field_type components] acc Hin.
    apply extract_field_well_formed. simpl. intros fo Hfo.
    eapply Hwf; eassumption. }
  destruct (for_each_returns _ _ Hb []) as [fd Efd].
  rewrite Efd. simpl. eauto.
Qed.




















Lemma extract_components_from_raw fo components comps :
  for_each (extract_component fo) components [] = Ok comps ->
  forall c s, sget c comps = Some s -> from_raw fo c s /\ In c components.
Proof.
  intros H.
  apply (for_each_invariant (extract_component fo)
           (fun done cs => forall c s, sget c cs = Some s ->
                                       from_raw fo c s /\ In c done)
           components) with (done := []) (acc := []); [|discriminate|exact H].
  intros done x acc acc' IH Hx c s Hc.
  destruct (values fo) as [|v0 rest] eqn:Ev.
  - rewrite (extract_component_no_values fo x acc Ev) in Hx. discriminate.
  - destruct (smem x (fv_data v0)) eqn:Hmem.
    + rewrite (extract_component_present fo v0 rest x acc Ev Hmem) in Hx.
      destruct (raw_values fo x) as [vals|e] eqn:Er; [|discriminate].
      unfold mbind, result_bind in Hx.
      destruct (field_sample_total vals) as [smp [Es Ev']].
      rewrite Es in Hx. injection Hx as <-.
      rewrite sget_sset in Hc. destruct (String.eqb x c) eqn:Exc.
      * apply String.eqb_eq in Exc. subst x. injection Hc as <-.
        split; [|apply in_or_app; right; now left].
        exists v0, rest. rewrite Ev'. now repeat split.
      * destruct (IH c s Hc) as [Hr Hin]. split; [exact Hr|].
        apply in_or_app. now left.
    + rewrite (extract_component_absent fo v0 rest x acc Ev Hmem) in Hx.
      injection Hx as <-. destruct (IH c s Hc) as [Hr Hin].
      split; [exact Hr|]. apply in_or_app. now left.
Qed.

(** X2. Every sample of a frame's snapshot belongs to a requested field type
    that the frame holds and to a requested component that its first
    value carries, and was computed from the raw values: a snapshot holds
    no sample for an absent field type or component. *)
Lemma snapshot_samples_from_raw cfg frame frame_data field_type comps c s :
  extract_frame cfg frame = Ok frame_data ->
  sget field_type frame_data = Some (Components comps) ->
  sget c comps = Some s ->
  exists fo components,
    sget field_type (fieldOutputs frame) = Some fo /\
    from_raw fo c s /\
    In (field_type, components) (requested_fields cfg) /\
    In c components.
Proof.
  unfold requested_fields.
  destruct (field_outputs cfg) as [requested|] eqn:Hreq;
    [|rewrite (extract_frame_no_key cfg frame Hreq); discriminate].
  rewrite (extract_frame_requested cfg frame requested Hreq).
  destruct (for_each (extract_field frame) requested [])
    as [fd|e] eqn:E; [|discriminate].
  simpl. intros [= <-]. rewrite sget_sset.
  destruct (String.eqb "time" field_type); [discriminate|].
  revert comps c s.
  apply (for_each_invariant (extract_field frame)
           (fun done fd => forall comps c s,
              sget field_type fd = Some (Components comps) ->
              sget c comps = Some s ->
              exists fo components,
                sget field_type (fieldOutputs frame) = Some fo /\
                from_raw fo c s /\
                In (field_type, components) done /\ In c components)
           requested) with (done := []) (acc := []);
    [|discriminate|exact E].
  intros done [ft components] acc acc' IH Hx comps c s Hft Hc.
  unfold extract_field in Hx.
  destruct (sget ft (fieldOutputs frame)) as [fo|] eqn:Hfo.
  - destruct (for_each (extract_component fo) components []) as [cs|e] eqn:Ecs;
      [|discriminate].
    simpl in Hx. injection Hx as <-. rewrite sget_sset in Hft.
    destruct (String.eqb ft field_type) eqn:Eft.
    + apply String.eqb_eq in Eft. subst ft. injection Hft as <-.
      destruct (extract_components_from_raw fo components cs Ecs c s Hc)
        as [Hr Hin].
      exists fo, components. repeat split; try assumption.
      apply in_or_app. right. now left.
    + destruct (IH comps c s Hft Hc) as [fo' [cs' [H1 [H2 [H3 H4]]]]].
      exists fo', cs'. repeat split; try assumption.
      apply in_or_app. now left.
  - injection Hx as <-.
    destruct (IH comps c s Hft Hc) as [fo' [cs' [H1 [H2 [H3 H4]]]]].
    exists fo', cs'. repeat split; try assumption.
    apply in_or_app. now left.
Qed.

Lemma snapshot_samples_from_raw_witness :
  exists frame_data comps s,
    extract_frame (config system0)
      {| frameValue := 0;
         fieldOutputs :=
           [("stress", {| values := [{| fv_data := [("S11", 3)] |};
                                     {| fv_data := [("S11", 8)] |}] |})] |}
    = Ok frame_data /\
    sget "stress" frame_data = Some (Components comps) /\
    sget "S11" comps = Some s /\
    exists fo components,
      sget "stress" [("stress", {| values := [{| fv_data := [("S11", 3)] |};
                                              {| fv_data := [("S11", 8)] |}] |})]
      = Some fo /\
      from_raw fo "S11" s /\
      In ("stress", components) (requested_fields (config system0)) /\
      In "S11" components.
Proof.
  do 3 eexists. split; [reflexivity|]. split; [reflexivity|].
  split; [reflexivity|].
  eapply (snapshot_samples_from_raw (config system0)
            {| frameValue := 0;
               fieldOutputs :=
                 [("stress", {| values := [{| fv_data := [("S11", 3)] |};
                                           {| fv_data := [("S11", 8)] |}] |})] |});
    reflexivity.
Defined.



(** C6 (failing input). The frame of [odb_empty_field] holds the requested
    field type ["stress"] with no values, so the requested component
    ["S11"] is absent from the frame's raw data; the extraction raises
    [IndexError] instead of leaving the component out. *)
Theorem absent_component_raises :
  exists step frame fo,
    sget "Step-1" (steps odb_empty_field) = Some step /\
    In frame (frames step) /\
    sget "stress" (fieldOutputs frame) = Some fo /\
    (forall v, In v (values fo) -> smem "S11" (fv_data v) = false) /\
    In ("stress", ["S11"; "S22"]) (requested_fields (config system0)) /\
    _extract_field_data system0 odb_empty_field =
      Raise (IndexError "list index out of range").
Proof.
  do 3 eexists. split; [reflexivity|]. split; [left; reflexivity|].
  split; [reflexivity|]. split; [intros v []|].
  split; [left; reflexivity|]. reflexivity.
Qed.

(** The same check raises [KeyError] when a later value lacks a component
    the first value carries. *)
Lemma ragged_component_raises :
  _extract_field_data system0 odb_ragged_field = Raise (KeyError "S11").
Proof. reflexivity. Qed.

End Extraction.

(** ** Report aggregator *)

Section Aggregator.
Import PostProc PostProcSpec.

Lemma scanned_refl (acc : Q) : scanned acc [] acc.
Proof.
  split; [apply Qle_refl|]. split; [intros x []|now left].
Qed.

Lemma scanned_app (a b c : Q) (xs ys : list Q) :
  scanned a xs b -> scanned b ys c -> scanned a (xs ++ ys) c.
Proof.
  intros [Hab [Hxs Hb]] [Hbc [Hys Hc]]. split; [|split].
  - eapply Qle_trans; eassumption.
  - intros x Hx. apply in_app_or in Hx. destruct Hx as [Hx|Hx].
    + eapply Qle_trans; [apply Hxs; assumption|assumption].
    + now apply Hys.
  - destruct Hc as [->|Hc].
    + destruct Hb as [->|Hb]; [now left|].
      right. apply in_or_app. now left.
    + right. apply in_or_app. now right.
Qed.

Lemma fold_max2_scanned (l : list Q) (acc : Q) :
  scanned acc l (fold_left Py.max2 l acc).
Proof.
  destruct (fold_max2_spec l acc) as [Hin Hub]. split; [|split].
  - apply Hub. now left.
  - intros x Hx. apply Hub. now right.
  - destruct Hin as [<-|Hin]; [now left|now right].
Qed.

Lemma fold_max2_sample_max (cs : list FieldSample) (acc : Q) :
  fold_left (fun m component_data => Py.max2 m (sample_max component_data))
            cs acc
  = fold_left Py.max2 (map sample_max cs) acc.
Proof.
  revert acc. induction cs as [|c cs IH]; intros acc; simpl; [reflexivity|].
  apply IH.
Qed.

Lemma max_over_frame_scanned key frame_data acc r :
  max_over_frame key frame_data acc = Ok r ->
  scanned acc (frame_maxima key frame_data) r.
Proof.
  unfold max_over_frame, frame_maxima.
  destruct frame_data as [|entry rest].
  - intros [= <-]. apply scanned_refl.
  - destruct (sget key (entry :: rest)) as [[comps|t]|].
    + intros [= <-]. rewrite fold_max2_sample_max. apply fold_max2_scanned.
    + discriminate.
    + intros [= <-]. apply scanned_refl.
Qed.

Lemma max_over_frames_scanned key (fds : list FrameData) acc r :
  for_each (max_over_frame key) fds acc = Ok r ->
  scanned acc (flat_map (frame_maxima key) fds) r.
Proof.
  revert acc. induction fds as [|fd fds IH]; intros acc; simpl.
  - intros [= <-]. apply scanned_refl.
  - destruct (max_over_frame key fd acc) as [a|e] eqn:E; [|discriminate].
    simpl. intros Hr. eapply scanned_app.
    + eapply max_over_frame_scanned; eassumption.
    + now apply IH.
Qed.

Lemma max_over_steps_scanned key (sds : list StepData) acc r :
  for_each (fun step_data a =>
              for_each (max_over_frame key) (dict_values step_data) a)
           sds acc = Ok r ->
  scanned acc
    (flat_map (fun step_data =>
                 flat_map (frame_maxima key) (dict_values step_data)) sds) r.
Proof.
  revert acc. induction sds as [|sd sds IH]; intros acc; simpl.
  - intros [= <-]. apply scanned_refl.
  - destruct (for_each (max_over_frame key) (dict_values sd) acc)
      as [a|e] eqn:E; [|discriminate].
    simpl. intros Hr. eapply scanned_app.
    + eapply max_over_frames_scanned; eassumption.
    + now apply IH.
Qed.

(** X1. What [get_max_stress] and [get_max_strain] return: the larger of
    [0] and the maxima stored under the field type. In particular the result
    is [0] when no such maximum is stored, and it is a largest stored
    maximum as soon as one of them is positive. *)
Lemma max_over_spec (key : string) (fd : FieldData) (m : Q) :
  max_over key fd = Ok m ->
  scanned 0 (field_maxima key fd) m /\
  (field_maxima key fd = [] -> m = 0) /\
  ((exists x, In x (field_maxima key fd) /\ 0 < x) ->
   is_maximum m (field_maxima key fd)).
Proof.
  intros H. apply max_over_steps_scanned in H. fold (field_maxima key fd) in H.
  split; [assumption|]. destruct H as [H0 [Hub Hin]]. split.
  - intros E. rewrite E in Hin. destruct Hin as [->|[]]. reflexivity.
  - intros [x [Hx Hpos]]. split; [|assumption].
    destruct Hin as [->|Hin]; [|assumption].
    exfalso. apply (Qlt_not_le _ _ Hpos). now apply Hub.
Qed.

Lemma max_over_spec_witness :
  scanned 0 (field_maxima "stress"
               [("Step-1", [(0, [("stress",
                  Components [("S11", {| sample_values := [3; 8];
                                         sample_max := 8; sample_min := 3;
                                         sample_mean := Py.np_mean [3; 8] |})]);
                                 ("time", TimeValue 0)])])]) 8 /\
  is_maximum 8 (field_maxima "stress"
               [("Step-1", [(0, [("stress",
                  Components [("S11", {| sample_values := [3; 8];
                                         sample_max := 8; sample_min := 3;
                                         sample_mean := Py.np_mean [3; 8] |})]);
                                 ("time", TimeValue 0)])])]).
Proof.
  destruct (max_over_spec "stress"
              [("Step-1", [(0, [("stress",
                  Components [("S11", {| sample_values := [3; 8];
                                         sample_max := 8; sample_min := 3;
                                         sample_mean := Py.np_mean [3; 8] |})]);
                                 ("time", TimeValue 0)])])] 8)
    as [Hs [_ Hm]]; [reflexivity|].
  split; [exact Hs|]. apply Hm. exists 8. split; [now left|reflexivity].
Defined.

(** C4 (failing input). Extracting [odb_compression] stores the stress
    maxima [-5] and [-20]; their maximum is [-5], and [get_max_stress]
    (so the [max_stress] of [get_summary_statistics]) returns [0], which
    is none of them. With no stress field at all it returns [0] as well. *)
Theorem get_max_stress_all_negative :
  exists fd,
    _extract_field_data system0 odb_compression = Ok fd /\
    field_maxima "stress" fd = [-5; -20] /\
    is_maximum (-5) (field_maxima "stress" fd) /\
    get_max_stress (results_of fd) = Ok 0 /\
    (exists st, get_summary_statistics (results_of fd) = Ok st /\
                PostProc.max_stress st = 0) /\
    ~ 0 == -5 /\
    get_max_stress (results_of []) = Ok 0.
Proof.
  eexists. split; [reflexivity|]. split; [reflexivity|]. split.
  - split; [now left|]. intros x [<-|[<-|[]]]; discriminate.
  - split; [reflexivity|]. split.
    + eexists. split; reflexivity.
    + split; [discriminate|reflexivity].
Qed.

End Aggregator.

(** ** Threshold analyzer *)

Section Analyzer.
Import Spall SpallSpec.

Lemma completed_all (rs : list RunOutcome) :
  Forall (fun r => status_completed r = true) (completed rs).
Proof.
  unfold completed. apply List.Forall_forall. intros r Hr.
  apply List.filter_In in Hr. tauto.
Qed.

Lemma velocities_where_completed (keep : bool -> bool) (rs : list RunOutcome) :
  Forall (fun r => status_completed r = true) rs ->
  velocities_where keep rs =
    Ok (map velocity (List.filter (fun r => keep (in_fracture_set r)) rs)).
Proof.
  induction 1 as [|r rs Hr _ IH]; simpl; [reflexivity|].
  destruct r as [v s e t f j|v msg]; [|discriminate]. simpl.
  rewrite IH. simpl. destruct (keep f); reflexivity.
Qed.

Lemma fracture_velocities_completed (rs : list RunOutcome) :
  Forall (fun r => status_completed r = true) rs ->
  velocities_where (fun f => f) rs =
    Ok (map velocity (List.filter in_fracture_set rs)).
Proof.
  intros H. rewrite (velocities_where_completed _ _ H). do 2 f_equal.
Qed.

Lemma max_stress_completed (rs : list RunOutcome) :
  Forall (fun r => status_completed r = true) rs ->
  exists stresses,
    comprehension max_stress rs = Ok stresses /\
    length stresses = length rs.
Proof.
  induction 1 as [|r rs Hr _ [ss [E L]]]; simpl.
  - now exists [].
  - destruct r as [v s e t f j|v msg]; [|discriminate]. simpl.
    rewrite E. simpl. exists (s :: ss). split; [reflexivity|].
    simpl. now rewrite L.
Qed.

Lemma fracture_set_completed (rs : list RunOutcome) :
  List.filter in_fracture_set (completed rs) = fracture_set rs.
Proof.
  unfold completed, fracture_set. induction rs as [|r rs IH]; [reflexivity|].
  destruct r as [v s e t [|] j|v msg]; simpl; now rewrite IH.
Qed.

(** With a completed record [analyze] returns the full analysis, entry by
    entry. *)
Lemma analyze_full (self : SpallFractureResults) :
  completed (results self) <> [] ->
  exists a lo hi,
    analyze self = Ok (Full a) /\
    total_velocities a = Py.len (velocities self) /\
    successful_calculations a = Py.len (completed (results self)) /\
    failed_calculations a =
      (Py.len (results self) - Py.len (completed (results self)))%Z /\
    fracture_velocities a = map velocity (fracture_set (results self)) /\
    no_fracture_velocities a =
      map velocity (List.filter (fun r => negb (in_fracture_set r))
                           (completed (results self))) /\
    critical_velocity a =
      match Py.min (fracture_velocities a) with
      | Ok v => Some v
      | Raise _ => None
      end /\
    max_stress_range a = (lo, hi).
Proof.
  intros Hne. unfold analyze. fold (completed (results self)).
  pose proof (completed_all (results self)) as Hall.
  destruct (completed (results self)) as [|c cs] eqn:Ec; [congruence|].
  rewrite (fracture_velocities_completed _ Hall).
  rewrite (velocities_where_completed negb _ Hall).
  destruct (max_stress_completed _ Hall) as [stresses [Es Ls]].
  assert (Hfs : List.filter in_fracture_set (c :: cs)
                = fracture_set (results self)).
  { rewrite <- Ec. apply fracture_set_completed. }
  rewrite Hfs.
  destruct stresses as [|s0 ss]; [discriminate|].
  destruct (map velocity (fracture_set (results self))) as [|v0 vs] eqn:Ef.
  - unfold mbind, result_bind. rewrite Es. simpl.
    do 3 eexists. split; [reflexivity|]. simpl.
    repeat split; reflexivity.
  - unfold mbind, result_bind. rewrite Es. simpl.
    do 3 eexists. split; [reflexivity|]. simpl.
    repeat split; reflexivity.
Qed.

(** Without a completed record [analyze] returns the error entry alone. *)
Lemma analyze_error_only (self : SpallFractureResults) :
  completed (results self) = [] ->
  analyze self = Ok (ErrorOnly "Нет успешных результатов для анализа").
Proof.
  intros E. unfold analyze. fold (completed (results self)). now rewrite E.
Qed.

End Analyzer.

(** ** Paths *)

Section Paths.

Lemma append_inv_head (a b c : string) : a +:+ b = a +:+ c -> b = c.
Proof.
  induction a as [|x a IH]; simpl; [trivial|].
  intros [= H]. now apply IH.
Qed.

Lemma append_length (a b : string) :
  String.length (a +:+ b) = (String.length a + String.length b)%nat.
Proof. induction a as [|x a IH]; simpl; [reflexivity|now rewrite IH]. Qed.

Lemma to_int_not_nil (n : Z) :
  Z.to_int n <> Decimal.Pos Decimal.Nil /\ Z.to_int n <> Decimal.Neg Decimal.Nil.
Proof.
  destruct n as [|p|p]; simpl; split; try discriminate;
    intros [= H]; exact (DecimalPos.Unsigned.to_uint_nonnil p H).
Qed.

(** Distinct integers print differently. *)
Lemma str_int_inj (a b : Z) : Py.str_int a = Py.str_int b -> a = b.
Proof.
  unfold Py.str_int. intros H. apply DecimalZ.to_int_inj.
  destruct (to_int_not_nil a) as [Ha1 Ha2].
  destruct (to_int_not_nil b) as [Hb1 Hb2].
  pose proof (NilZero.isi _ Ha1 Ha2) as Ea.
  pose proof (NilZero.isi _ Hb1 Hb2) as Eb.
  rewrite H in Ea. congruence.
Qed.

Lemma velocity_dir_eq (out : string) (v : Q) :
  Spall.velocity_dir out v
  = with_sep out +:+ "velocity_" +:+ Py.str_int (Py.int v).
Proof. reflexivity. Qed.

Lemma result_file_eq (out : string) (v : Q) :
  Spall.result_file out v
  = with_sep (Spall.velocity_dir out v) +:+ "results.json".
Proof. reflexivity. Qed.

(** Velocities with distinct integer parts get distinct directories; the
    directory is named after the integer part alone. *)
Lemma velocity_dir_inj (out : string) (v1 v2 : Q) :
  Spall.velocity_dir out v1 = Spall.velocity_dir out v2 <->
  Py.int v1 = Py.int v2.
Proof.
  rewrite !velocity_dir_eq. split.
  - intros H. apply append_inv_head in H.
    apply (append_inv_head "velocity_") in H. now apply str_int_inj.
  - now intros ->.
Qed.

Lemma with_sep_length (a : string) :
  (String.length a <= String.length (with_sep a))%nat.
Proof.
  unfold with_sep. destruct a as [|x a]; [simpl; lia|].
  destruct (ends_with_slash (String x a)); [lia|].
  rewrite append_length. lia.
Qed.

(** The result file is not the directory that holds it. *)
Lemma result_file_not_dir (out : string) (v : Q) :
  Spall.result_file out v <> Spall.velocity_dir out v.
Proof.
  rewrite result_file_eq. intros H.
  apply (f_equal String.length) in H. rewrite append_length in H.
  pose proof (with_sep_length (Spall.velocity_dir out v)). simpl in H. lia.
Qed.

Lemma append_assoc (a b c : string) : (a +:+ b) +:+ c = a +:+ b +:+ c.
Proof.
  induction a as [|x a IH]; [reflexivity|].
  change (String x ((a +:+ b) +:+ c) = String x (a +:+ b +:+ c)).
  now rewrite IH.
Qed.

Lemma with_sep_cases (a : string) :
  with_sep a = a \/ with_sep a = a +:+ "/".
Proof.
  unfold with_sep. destruct a as [|x a]; [now left|].
  destruct (ends_with_slash (String x a)); [now left|now right].
Qed.

Lemma uint_of_string_append_none (s t : string) :
  NilEmpty.uint_of_string t = None ->
  NilEmpty.uint_of_string (s +:+ t) = None.
Proof.
  intros H. induction s as [|a s IH]; simpl; [exact H|now rewrite IH].
Qed.

Lemma int_of_string_append_none (s t : string) :
  NilEmpty.uint_of_string t = None ->
  NilZero.int_of_string t = None ->
  NilZero.int_of_string (s +:+ t) = None.
Proof.
  intros Hu Hi. destruct s as [|a s]; [exact Hi|].
  change (String a s +:+ t) with (String a (s +:+ t)).
  unfold NilZero.int_of_string, NilZero.uint_of_string.
  pose proof (uint_of_string_append_none (String a s) t Hu) as H1.
  pose proof (uint_of_string_append_none s t Hu) as H2.
  change (String a s +:+ t) with (String a (s +:+ t)) in H1.
  rewrite H1. destruct (s +:+ t) eqn:E.
  - destruct (Ascii.eqb a "-"); reflexivity.
  - rewrite H2. destruct (Ascii.eqb a "-"); reflexivity.
Qed.

(** The digits of an integer never end in a path component. *)
Lemma str_int_not_suffixed (n : Z) (s t : string) :
  NilEmpty.uint_of_string t = None ->
  NilZero.int_of_string t = None ->
  Py.str_int n <> s +:+ t.
Proof.
  intros Hu Hi H. unfold Py.str_int in H.
  destruct (to_int_not_nil n) as [H1 H2].
  pose proof (NilZero.isi _ H1 H2) as E. rewrite H in E.
  rewrite (int_of_string_append_none s t Hu Hi) in E. discriminate.
Qed.

(** No directory of a velocity is the result file of another. *)
Lemma velocity_dir_not_result_file (out : string) (v v' : Q) :
  Spall.velocity_dir out v <> Spall.result_file out v'.
Proof.
  rewrite result_file_eq, !velocity_dir_eq. intros H.
  destruct (with_sep_cases
              (with_sep out +:+ "velocity_" +:+ Py.str_int (Py.int v')))
    as [E|E]; rewrite E in H; clear E;
    rewrite !append_assoc in H;
    apply append_inv_head in H;
    apply (append_inv_head "velocity_") in H;
    revert H; apply str_int_not_suffixed; reflexivity.
Qed.

Lemma report_file_not_velocity_dir (out : string) (v : Q) :
  os_path_join out "summary_report.txt" <> Spall.velocity_dir out v.
Proof.
  rewrite velocity_dir_eq.
  change (os_path_join out "summary_report.txt")
    with (with_sep out +:+ "summary_report.txt").
  intros H. apply append_inv_head in H. discriminate.
Qed.

Lemma report_file_not_out (out : string) :
  os_path_join out "summary_report.txt" <> out.
Proof.
  change (os_path_join out "summary_report.txt")
    with (with_sep out +:+ "summary_report.txt").
  intros H. apply (f_equal String.length) in H. rewrite append_length in H.
  pose proof (with_sep_length out). simpl in H. lia.
Qed.

Lemma velocity_dir_length (out : string) (v : Q) :
  (String.length out < String.length (Spall.velocity_dir out v))%nat.
Proof.
  rewrite velocity_dir_eq, !append_length.
  pose proof (with_sep_length out). simpl. lia.
Qed.

Lemma result_file_not_out (out : string) (v : Q) :
  Spall.result_file out v <> out.
Proof.
  rewrite result_file_eq. intros H.
  apply (f_equal String.length) in H. rewrite append_length in H.
  pose proof (with_sep_length (Spall.velocity_dir out v)).
  pose proof (velocity_dir_length out v). simpl in H. lia.
Qed.

End Paths.

(** ** File system *)

Section PathChains.
Import FS.

Lemma append_cons (c : ascii) (a b : string) :
  String c a +:+ b = String c (a +:+ b).
Proof. reflexivity. Qed.

Lemma append_nil_r (a : string) : a +:+ EmptyString = a.
Proof.
  induction a as [|c a IH]; [reflexivity|].
  rewrite append_cons. now rewrite IH.
Qed.

Lemma snoc_append (pre : string) (c : ascii) (a : string) :
  (pre +:+ String c EmptyString) +:+ a = pre +:+ String c a.
Proof. now rewrite append_assoc. Qed.

Lemma chain_from_slash (pre : string) (named : bool) (a b : string) :
  chain_from pre named (a +:+ String "/" b)
  = chain_from pre named a ++ chain_from (pre +:+ a +:+ "/") false b.
Proof.
  revert pre named. induction a as [|c a IH]; intros pre named.
  - change (EmptyString +:+ String "/" b) with (String "/" b).
    cbn [chain_from]. change (Ascii.eqb "/" "/") with true. cbv iota.
    change (EmptyString +:+ "/")%string with "/"%string. reflexivity.
  - rewrite append_cons. cbn [chain_from].
    destruct (Ascii.eqb c "/") eqn:Ec.
    + rewrite IH, <- app_assoc. do 2 f_equal.
      apply Ascii.eqb_eq in Ec. subst c.
      rewrite snoc_append. reflexivity.
    + rewrite IH. do 2 f_equal. rewrite snoc_append. reflexivity.
Qed.

Lemma chain_from_plain (b pre : string) :
  slash_free b = true -> chain_from pre true b = [pre +:+ b].
Proof.
  revert pre. induction b as [|c b IH]; intros pre Hb.
  - now rewrite append_nil_r.
  - cbn [slash_free] in Hb. apply andb_true_iff in Hb.
    destruct Hb as [Hc Hb]. apply negb_true_iff in Hc.
    cbn [chain_from]. rewrite Hc, (IH _ Hb), append_assoc. reflexivity.
Qed.

Lemma chain_from_name (b pre : string) (named : bool) :
  plain_name b -> chain_from pre named b = [pre +:+ b].
Proof.
  intros [Hne Hb]. destruct b as [|c b]; [congruence|].
  cbn [slash_free] in Hb. apply andb_true_iff in Hb.
  destruct Hb as [Hc Hb]. apply negb_true_iff in Hc.
  cbn [chain_from]. rewrite Hc, (chain_from_plain _ _ Hb), append_assoc.
  reflexivity.
Qed.

Lemma ends_with_slash_cons (c : ascii) (a : string) :
  ends_with_slash (String c a)
  = match a with
    | EmptyString => Ascii.eqb c "/"
    | _ => ends_with_slash a
    end.
Proof.
  unfold ends_with_slash. cbn [list_ascii_of_string rev].
  destruct a as [|d a]; [reflexivity|].
  cbn [list_ascii_of_string rev].
  destruct (rev (list_ascii_of_string a)) as [|x l]; reflexivity.
Qed.

Lemma ends_with_slash_split (a : string) :
  ends_with_slash a = true -> exists a0, a = a0 +:+ "/".
Proof.
  induction a as [|c a IH]; [discriminate|].
  rewrite ends_with_slash_cons. destruct a as [|d a].
  - intros H. apply Ascii.eqb_eq in H. subst c. now exists EmptyString.
  - intros H. destruct (IH H) as [a0 E]. exists (String c a0).
    rewrite append_cons. now rewrite <- E.
Qed.

(** The chain of a path joined with a name is the chain of the path,
    followed by the joined path. *)
Lemma chain_join (out name : string) :
  plain_name name ->
  chain (os_path_join out name) = chain out ++ [os_path_join out name].
Proof.
  intros Hn. pose proof Hn as [Hne Hsf].
  assert (E : os_path_join out name = with_sep out +:+ name).
  { unfold os_path_join. destruct name as [|c name]; [congruence|].
    cbn [slash_free] in Hsf. apply andb_true_iff in Hsf.
    destruct Hsf as [Hc _]. apply negb_true_iff in Hc. now rewrite Hc. }
  rewrite E. unfold chain, with_sep.
  destruct out as [|c out].
  - change (EmptyString +:+ name) with name.
    now rewrite (chain_from_name name EmptyString false Hn).
  - destruct (ends_with_slash (String c out)) eqn:Es.
    + destruct (ends_with_slash_split _ Es) as [a0 Ea]. rewrite Ea.
      assert (L : chain_from EmptyString false ((a0 +:+ "/") +:+ name)
                  = chain_from EmptyString false a0
                    ++ [(a0 +:+ "/") +:+ name]).
      { rewrite append_assoc.
        change ("/" +:+ name)%string with (String "/" name).
        rewrite chain_from_slash, (chain_from_name name _ false Hn).
        do 2 f_equal. exact (append_assoc a0 "/" name). }
      assert (R : chain_from EmptyString false (a0 +:+ "/")
                  = chain_from EmptyString false a0).
      { change (a0 +:+ "/") with (a0 +:+ String "/" EmptyString).
        rewrite chain_from_slash. cbn [chain_from]. apply app_nil_r. }
      rewrite L, R. reflexivity.
    + rewrite append_assoc.
      change ("/" +:+ name)%string with (String "/" name).
      rewrite chain_from_slash, (chain_from_name name _ false Hn).
      do 2 f_equal. exact (append_assoc (String c out) "/" name).
Qed.

Lemma chain_from_length (p pre : string) (named : bool) (q : string) :
  In q (chain_from pre named p) ->
  (String.length q <= String.length pre + String.length p)%nat.
Proof.
  revert pre named. induction p as [|c p IH]; intros pre named.
  - cbn [chain_from]. destruct named; [|intros []].
    intros [<-|[]]. lia.
  - cbn [chain_from]. destruct (Ascii.eqb c "/").
    + intros H. apply in_app_or in H. destruct H as [H|H].
      * destruct named; [|destruct H]. destruct H as [<-|[]].
        cbn [String.length]. lia.
      * apply IH in H. rewrite append_length in H.
        cbn [String.length] in *. lia.
    + intros H. apply IH in H. rewrite append_length in H.
      cbn [String.length] in *. lia.
Qed.

(** No name of a chain is longer than the path. *)
Lemma chain_length (p q : string) :
  In q (chain p) -> (String.length q <= String.length p)%nat.
Proof. intros H. apply chain_from_length in H. exact H. Qed.

Lemma join_length (out name : string) :
  plain_name name ->
  (String.length out < String.length (os_path_join out name))%nat.
Proof.
  intros [Hne Hsf]. unfold os_path_join. destruct name as [|c name];
    [congruence|].
  cbn [slash_free] in Hsf. apply andb_true_iff in Hsf.
  destruct Hsf as [Hc _]. apply negb_true_iff in Hc. rewrite Hc.
  rewrite append_length. pose proof (with_sep_length out).
  cbn [String.length]. lia.
Qed.

(** A joined path is on the way to nothing above it. *)
Lemma join_not_in_chain (out name : string) :
  plain_name name -> ~ In (os_path_join out name) (chain out).
Proof.
  intros Hn H. apply chain_length in H.
  pose proof (join_length out name Hn). lia.
Qed.

Lemma names_file_join (out name : string) :
  plain_name name -> names_file (os_path_join out name) = true.
Proof.
  intros Hn. unfold names_file. rewrite (chain_join out name Hn).
  rewrite last_snoc. apply String.eqb_refl.
Qed.

Lemma removelast_chain_join (out name : string) :
  plain_name name -> removelast (chain (os_path_join out name)) = chain out.
Proof.
  intros Hn. rewrite (chain_join out name Hn). apply removelast_last.
Qed.

Lemma normal_not_empty (p : string) :
  FS.normal p = true -> p <> EmptyString.
Proof. intros H ->. discriminate. Qed.

Lemma join_not_empty (out name : string) :
  plain_name name -> os_path_join out name <> EmptyString.
Proof.
  intros Hn E. pose proof (join_length out name Hn) as H.
  rewrite E in H. cbn in H. lia.
Qed.

End PathChains.

Section FSOperations.
Import FS.
Context {N : Type} (dir : N) (is_dir : N -> bool).
Hypothesis is_dir_dir : is_dir dir = true.

Lemma mkdir_chain_passes path anc rest (fs : gmap string N) :
  Forall (dir_at is_dir fs) anc ->
  mkdir_chain dir is_dir path (anc ++ rest) fs
  = mkdir_chain dir is_dir path rest fs.
Proof.
  induction 1 as [|p anc [n [E Hn]] _ IH]; [reflexivity|].
  cbn [app mkdir_chain]. now rewrite E, Hn.
Qed.

Lemma lookup_fold_insert (l : list string) (fs : gmap string N) (q : string) :
  (In q l -> fold_right (fun q m => <[q := dir]> m) fs l !! q = Some dir) /\
  (~ In q l -> fold_right (fun q m => <[q := dir]> m) fs l !! q = fs !! q).
Proof.
  induction l as [|p l [IH1 IH2]]; cbn [fold_right].
  - split; [intros []|reflexivity].
  - destruct (decide (p = q)) as [->|Hne].
    + split; [intros _; apply lookup_insert_eq|].
      intros H. exfalso. apply H. now left.
    + rewrite lookup_insert_ne by exact Hne. split.
      * intros [H|H]; [congruence|now apply IH1].
      * intros H. apply IH2. intros H'. apply H. now right.
Qed.

(** What a successful [makedirs] leaves: the names of the chain hold
    directories, and every other path holds what it held. *)
Lemma mkdir_chain_ok path ch (fs fs' : gmap string N) :
  mkdir_chain dir is_dir path ch fs = Ok fs' ->
  Forall (dir_at is_dir fs') ch /\
  (forall q, ~ In q ch -> fs' !! q = fs !! q) /\
  (forall q, dir_at is_dir fs q -> dir_at is_dir fs' q).
Proof.
  revert fs'. induction ch as [|p rest IH]; intros fs'; cbn [mkdir_chain].
  - intros [= <-]. split; [constructor|]. split; auto.
  - destruct (fs !! p) as [n|] eqn:E.
    + destruct (is_dir n) eqn:Hn.
      * intros H. destruct (IH fs' H) as [H1 [H2 H3]]. split; [|split].
        -- constructor; [apply H3; now exists n|exact H1].
        -- intros q Hq. apply H2. intros H'. apply Hq. now right.
        -- exact H3.
      * destruct rest as [|q [|r rest]]; discriminate.
    + intros [= <-]. split; [|split].
      * apply List.Forall_forall. intros q Hq. exists dir.
        split; [|exact is_dir_dir].
        now apply (proj1 (lookup_fold_insert (p :: rest) fs q)).
      * intros q Hq. now apply (proj2 (lookup_fold_insert (p :: rest) fs q)).
      * intros q [n [Eq Hn]].
        destruct (in_dec string_dec q (p :: rest)) as [Hin|Hin].
        -- exists dir. split; [|exact is_dir_dir].
           now apply (proj1 (lookup_fold_insert (p :: rest) fs q)).
        -- exists n. split; [|exact Hn].
           rewrite <- Eq.
           now apply (proj2 (lookup_fold_insert (p :: rest) fs q)).
Qed.

(** [makedirs] succeeds when every name of the chain is free or holds a
    directory. *)
Lemma mkdir_chain_free path ch (fs : gmap string N) :
  Forall (free_or_dir is_dir fs) ch ->
  exists fs', mkdir_chain dir is_dir path ch fs = Ok fs'.
Proof.
  induction 1 as [|p rest [E|[n [E Hn]]] _ [fs' IH]]; cbn [mkdir_chain].
  - now exists fs.
  - rewrite E. eauto.
  - rewrite E, Hn. eauto.
Qed.

Lemma mkdir_chain_raises path ch (fs : gmap string N) e :
  mkdir_chain dir is_dir path ch fs = Raise e ->
  e = FileExistsError path \/ exists q, e = NotADirectoryError q.
Proof.
  induction ch as [|p rest IH]; cbn [mkdir_chain]; [discriminate|].
  destruct (fs !! p) as [n|]; [|discriminate].
  destruct (is_dir n); [exact IH|].
  destruct rest as [|q [|r rest]]; intros [= <-]; eauto.
Qed.

Lemma mkdir_null_raises ch (fs : gmap string N) :
  mkdir_null is_dir ch fs = ValueError "embedded null byte" \/
  exists q, mkdir_null is_dir ch fs = NotADirectoryError q.
Proof.
  induction ch as [|p rest IH]; cbn [mkdir_null]; [now left|].
  destruct (null_free p); [|now left].
  destruct (fs !! p) as [n|]; [|now left].
  destruct (is_dir n); [exact IH|].
  destruct rest as [|q rest]; [now left|].
  destruct (null_free q); [right; now exists q|now left].
Qed.

Lemma makedirs_raises path (fs : gmap string N) e :
  makedirs dir is_dir path fs = Raise e ->
  e = FileExistsError path \/ (exists q, e = NotADirectoryError q) \/
  e = FileNotFoundError path \/ e = ValueError "embedded null byte".
Proof.
  unfold makedirs. destruct path as [|c path].
  - intros [= <-]. tauto.
  - destruct (null_free (String c path)).
    + intros H. apply mkdir_chain_raises in H. tauto.
    + intros [= <-].
      destruct (mkdir_null_raises (chain (String c path)) fs) as [->|[q ->]];
        eauto.
Qed.

Lemma makedirs_ok path (fs fs' : gmap string N) :
  makedirs dir is_dir path fs = Ok fs' ->
  Forall (dir_at is_dir fs') (chain path) /\
  (forall q, ~ In q (chain path) -> fs' !! q = fs !! q) /\
  (forall q, dir_at is_dir fs q -> dir_at is_dir fs' q).
Proof.
  unfold makedirs. destruct path as [|c path]; [discriminate|].
  destruct (null_free (String c path)); [|discriminate].
  apply mkdir_chain_ok.
Qed.

Lemma makedirs_free path (fs : gmap string N) :
  path <> EmptyString ->
  null_free path = true ->
  Forall (free_or_dir is_dir fs) (chain path) ->
  exists fs', makedirs dir is_dir path fs = Ok fs'.
Proof.
  intros Hne Hnull H. unfold makedirs.
  destruct path as [|c path]; [congruence|]. rewrite Hnull.
  now apply mkdir_chain_free.
Qed.

(** Below directories that exist, [makedirs] is a single [mkdir]. *)
Lemma makedirs_leaf path anc k (fs : gmap string N) :
  path <> EmptyString ->
  null_free path = true ->
  chain path = anc ++ [k] ->
  Forall (dir_at is_dir fs) anc ->
  makedirs dir is_dir path fs
  = match fs !! k with
    | Some n => if is_dir n then Ok fs else Raise (FileExistsError path)
    | None => Ok (<[k := dir]> fs)
    end.
Proof.
  intros Hne Hnull Hc Hanc. unfold makedirs.
  destruct path as [|c path]; [congruence|].
  rewrite Hnull, Hc, (mkdir_chain_passes _ _ _ _ Hanc). reflexivity.
Qed.

Lemma resolve_parents_dirs path ch (fs : gmap string N) :
  Forall (dir_at is_dir fs) ch -> resolve_parents is_dir path ch fs = Ok tt.
Proof.
  induction 1 as [|p rest [n [E Hn]] _ IH]; [reflexivity|].
  cbn [resolve_parents]. now rewrite E, Hn.
Qed.

Lemma resolve_parents_raises path ch (fs : gmap string N) e :
  resolve_parents is_dir path ch fs = Raise e ->
  e = NotADirectoryError path \/ e = FileNotFoundError path.
Proof.
  induction ch as [|p rest IH]; cbn [resolve_parents]; [discriminate|].
  destruct (fs !! p) as [n|]; [|intros [= <-]; now right].
  destruct (is_dir n); [exact IH|intros [= <-]; now left].
Qed.

Lemma write_ok path content (fs fs' : gmap string N) :
  write is_dir path content fs = Ok fs' -> fs' = <[path := content]> fs.
Proof.
  unfold write. destruct path as [|c path]; [discriminate|].
  destruct (null_free (String c path)); [|discriminate].
  unfold mbind at 1, result_bind at 1.
  destruct (resolve_parents is_dir _ _ fs) as [[]|e]; [|discriminate].
  unfold mbind, result_bind.
  destruct (negb (names_file (String c path))); [discriminate|].
  destruct (fs !! String c path) as [n|]; [|now intros [= <-]].
  destruct (is_dir n); [discriminate|now intros [= <-]].
Qed.

Lemma write_raises path content (fs : gmap string N) e :
  write is_dir path content fs = Raise e ->
  e = IsADirectoryError path \/ e = NotADirectoryError path \/
  e = FileNotFoundError path \/ e = ValueError "embedded null byte".
Proof.
  unfold write. destruct path as [|c path]; [intros [= <-]; tauto|].
  destruct (null_free (String c path)); [|intros [= <-]; tauto].
  unfold mbind at 1, result_bind at 1.
  destruct (resolve_parents is_dir _ _ fs) as [[]|e'] eqn:E.
  - unfold mbind, result_bind.
    destruct (negb (names_file (String c path))); [intros [= <-]; tauto|].
    destruct (fs !! String c path) as [n|]; [|discriminate].
    destruct (is_dir n); [intros [= <-]; tauto|discriminate].
  - unfold mbind, result_bind. intros [= <-].
    apply resolve_parents_raises in E. tauto.
Qed.

(** In a directory that exists, writing fails only on a directory. *)
Lemma write_under path content (fs : gmap string N) :
  path <> EmptyString ->
  null_free path = true ->
  names_file path = true ->
  Forall (dir_at is_dir fs) (removelast (chain path)) ->
  write is_dir path content fs
  = match fs !! path with
    | Some n =>
        if is_dir n then Raise (IsADirectoryError path)
        else Ok (<[path := content]> fs)
    | None => Ok (<[path := content]> fs)
    end.
Proof.
  intros Hne Hnull Hn Hp. unfold write.
  destruct path as [|c path]; [congruence|].
  rewrite Hnull, (resolve_parents_dirs _ _ _ Hp), Hn. reflexivity.
Qed.

Lemma dir_at_insert_dir (fs : gmap string N) (p q : string) :
  dir_at is_dir fs q -> dir_at is_dir (<[p := dir]> fs) q.
Proof.
  intros [n [E Hn]]. destruct (decide (p = q)) as [->|Hne].
  - exists dir. split; [apply lookup_insert_eq|exact is_dir_dir].
  - exists n. split; [now rewrite lookup_insert_ne|exact Hn].
Qed.

Lemma dir_at_insert_ne (fs : gmap string N) (p q : string) (n : N) :
  p <> q -> dir_at is_dir fs q -> dir_at is_dir (<[p := n]> fs) q.
Proof.
  intros Hne [m [E Hm]]. exists m. split; [now rewrite lookup_insert_ne|exact Hm].
Qed.

End FSOperations.

Section SweepPaths.
Import FS Spall.

Lemma slash_free_app (a b : string) :
  slash_free (a +:+ b) = slash_free a && slash_free b.
Proof.
  induction a as [|c a IH]; [reflexivity|].
  rewrite append_cons. cbn [slash_free]. rewrite IH.
  now rewrite andb_assoc.
Qed.

Lemma slash_free_uint (d : Decimal.uint) :
  slash_free (NilEmpty.string_of_uint d) = true.
Proof. induction d; cbn; auto. Qed.

Lemma slash_free_str_int (n : Z) : slash_free (Py.str_int n) = true.
Proof.
  unfold Py.str_int, NilZero.string_of_int.
  destruct (Z.to_int n) as [d|d]; unfold NilZero.string_of_uint.
  - destruct d; try apply slash_free_uint. reflexivity.
  - cbn [slash_free]. change (Ascii.eqb "-" "/") with false. cbn [negb andb].
    destruct d; try apply slash_free_uint. reflexivity.
Qed.

Lemma null_free_app (a b : string) :
  null_free (a +:+ b) = null_free a && null_free b.
Proof.
  induction a as [|c a IH]; [reflexivity|].
  rewrite append_cons. cbn [null_free]. rewrite IH.
  now rewrite andb_assoc.
Qed.

Lemma null_free_uint (d : Decimal.uint) :
  null_free (NilEmpty.string_of_uint d) = true.
Proof. induction d; cbn; auto. Qed.

Lemma null_free_str_int (n : Z) : null_free (Py.str_int n) = true.
Proof.
  unfold Py.str_int, NilZero.string_of_int.
  destruct (Z.to_int n) as [d|d]; unfold NilZero.string_of_uint.
  - destruct d; try apply null_free_uint. reflexivity.
  - cbn [null_free]. change (Ascii.eqb "-" Ascii.zero) with false.
    cbn [negb andb].
    destruct d; try apply null_free_uint. reflexivity.
Qed.

(** A path joined with a plain name has a null character only if one of
    the two has. *)
Lemma null_free_join (out name : string) :
  plain_name name ->
  null_free out = true -> null_free name = true ->
  null_free (os_path_join out name) = true.
Proof.
  intros [Hne Hs] Ho Hn. unfold os_path_join.
  destruct name as [|c name]; [congruence|].
  cbn [slash_free] in Hs. apply andb_prop in Hs. destruct Hs as [Hc _].
  destruct (Ascii.eqb c "/"); [discriminate|].
  rewrite null_free_app, Hn, andb_true_r. unfold with_sep.
  destruct out as [|c0 out]; [reflexivity|].
  destruct (ends_with_slash (String c0 out)); [exact Ho|].
  now rewrite null_free_app, Ho.
Qed.

Lemma normal_null_free (p : string) :
  normal p = true -> null_free p = true.
Proof. intros H. apply andb_prop in H. tauto. Qed.

Lemma plain_numbered (prefix : string) (n : Z) :
  prefix <> EmptyString -> slash_free prefix = true ->
  plain_name (prefix +:+ Py.str_int n).
Proof.
  intros Hne Hp. split.
  - destruct prefix as [|c prefix]; [congruence|]. rewrite append_cons.
    discriminate.
  - now rewrite slash_free_app, Hp, slash_free_str_int.
Qed.

Lemma plain_velocity (v : Q) :
  plain_name ("velocity_" +:+ Py.str_int (Py.int v)).
Proof. apply plain_numbered; [discriminate|reflexivity]. Qed.

Lemma null_free_velocity_dir (out : string) (v : Q) :
  null_free out = true -> null_free (velocity_dir out v) = true.
Proof.
  intros Ho. apply null_free_join; [apply plain_velocity|exact Ho|].
  now rewrite null_free_app, null_free_str_int.
Qed.

Lemma null_free_result_file (out : string) (v : Q) :
  null_free out = true -> null_free (result_file out v) = true.
Proof.
  intros Ho. apply null_free_join; [split; [discriminate|reflexivity]| |].
  - now apply null_free_velocity_dir.
  - reflexivity.
Qed.

Lemma is_directory_spec (n : Node) : is_directory n = true <-> n = Directory.
Proof. destruct n; split; (reflexivity || discriminate). Qed.

Lemma dir_at_directory (fs : gmap string Node) (p : string) :
  dir_at is_directory fs p <-> fs !! p = Some Directory.
Proof.
  split.
  - intros [n [E Hn]]. apply is_directory_spec in Hn. now subst n.
  - intros E. now exists Directory.
Qed.

Lemma chain_velocity_dir (out : string) (v : Q) :
  chain (velocity_dir out v) = chain out ++ [velocity_dir out v].
Proof. apply chain_join, plain_velocity. Qed.

Lemma chain_result_file (out : string) (v : Q) :
  chain (result_file out v)
  = (chain out ++ [velocity_dir out v]) ++ [result_file out v].
Proof.
  unfold result_file. rewrite chain_join by (split; [discriminate|reflexivity]).
  now rewrite chain_velocity_dir.
Qed.

Lemma result_file_not_in_chain (out : string) (v : Q) :
  ~ In (result_file out v) (chain out).
Proof.
  intros H. apply chain_length in H.
  pose proof (join_length out _ (plain_velocity v)) as H1.
  fold (velocity_dir out v) in H1.
  assert (H2 : (String.length (velocity_dir out v)
                < String.length (result_file out v))%nat).
  { apply join_length. split; [discriminate|reflexivity]. }
  lia.
Qed.

Lemma report_not_in_chain (out : string) :
  ~ In (os_path_join out "summary_report.txt") (chain out).
Proof. apply join_not_in_chain. split; [discriminate|reflexivity]. Qed.

End SweepPaths.

(** ** Sweep controller *)

Section SweepFacts.
Import Spall SpallSpec.
Context {Session : Type} (env : @Environment Session)
        (self : SpallFractureSystem).

(** What one turn of the loop does to [analysis_results] and to the file
    system: an oracle failure appends one failed record and writes
    nothing; a completed run appends its record and then either makes
    the directory of the velocity and writes the record to the result
    file, or, when one of the two raises, appends a failed record for
    the same velocity as well. *)
Lemma iteration_spec (params : Params) (out : string) (v : Q) (l : Loop) :
  exists l',
    iteration env self params out v l = (Ok tt, l') /\
    ((exists msg,
        analysis_results l' = analysis_results l ++ [Failed v msg] /\
        files (world l') = files (world l)) \/
     (exists s e t j fs1,
        analysis_results l' =
          analysis_results l ++ [Completed v s e t (Py.gt v 200) j] /\
        FS.makedirs Directory is_directory (velocity_dir out v)
                    (files (world l)) = Ok fs1 /\
        files (world l') =
          <[result_file out v := JsonFile (Completed v s e t (Py.gt v 200) j)]>
            fs1) \/
     (exists s e t j msg,
        analysis_results l' =
          analysis_results l
            ++ [Completed v s e t (Py.gt v 200) j; Failed v msg])).
Proof.
  destruct l as [w rs].
  unfold iteration, try_except, try_block, bind, in_world,
    _create_model_for_velocity, _run_calculation, _extract_results,
    _save_velocity_results, abaqus, random_uniform, append, ret,
    makedirs, write_file, on_files, bind.
  cbn [world analysis_results session files draws].
  destruct (abaqus_create_model env v params (session w)) as [[msg|] s1].
  { eexists. split; [reflexivity|]. left. eexists. split; reflexivity. }
  cbn [world analysis_results session files draws].
  destruct (abaqus_job env _ _ s1) as [[msg|] s2].
  { eexists. split; [reflexivity|]. left. eexists. split; reflexivity. }
  cbn [world analysis_results session files draws].
  destruct (FS.makedirs Directory is_directory (velocity_dir out v) (files w))
    as [fs1|e1] eqn:Em; cbn [world analysis_results session files draws].
  - match goal with
    | |- context [FS.write is_directory ?p ?c fs1] =>
        destruct (FS.write is_directory p c fs1) as [fs2|e2] eqn:Ew
    end; cbn [world analysis_results session files draws].
    + apply write_ok in Ew. subst fs2.
      eexists. split; [reflexivity|]. right; left.
      do 5 eexists. split; [reflexivity|]. split; reflexivity.
    + eexists. split; [reflexivity|]. right; right.
      cbn [analysis_results]. rewrite <- app_assoc. do 5 eexists. reflexivity.
  - eexists. split; [reflexivity|]. right; right.
    cbn [analysis_results]. rewrite <- app_assoc. do 5 eexists. reflexivity.
Qed.

Lemma iteration_turn (params : Params) (out : string) (v : Q) (l : Loop) :
  exists l' rs,
    iteration env self params out v l = (Ok tt, l') /\
    analysis_results l' = analysis_results l ++ rs /\
    turn_records v rs.
Proof.
  destruct (iteration_spec params out v l)
    as [l' [E [[msg [H _]]|[[s [e [t [j [fs1 [H _]]]]]]
                           |[s [e [t [j [msg H]]]]]]]]];
    exists l'; eexists; (split; [exact E|]); (split; [exact H|]);
    constructor.
Qed.

(** The loop never raises, and leaves the records of a sweep. *)
Lemma for_loop_sweep (params : Params) (out : string) (V : list Q) (l : Loop) :
  exists l' rs,
    for_loop (iteration env self params out) V l = (Ok tt, l') /\
    analysis_results l' = analysis_results l ++ rs /\
    sweep_records V rs.
Proof.
  revert l. induction V as [|v V IH]; intros l.
  - exists l, []. split; [reflexivity|]. split; [now rewrite app_nil_r|].
    constructor.
  - destruct (iteration_turn params out v l) as [l1 [rs1 [E1 [H1 T1]]]].
    destruct (IH l1) as [l2 [rs2 [E2 [H2 T2]]]].
    exists l2, (rs1 ++ rs2). split; [|split].
    + simpl. unfold bind. now rewrite E1.
    + rewrite H2, H1. now rewrite app_assoc.
    + now constructor.
Qed.

(** The results [run_analysis] returns hold the requested velocities and
    the records of a sweep over them. *)
Lemma run_analysis_sweep (V : list Q) (out : option string)
    (params : option Params) (w w' : World) (res : SpallFractureResults) :
  run_analysis env self V out params w = (Ok res, w') ->
  velocities res = V /\ sweep_records V (results res).
Proof.
  unfold run_analysis. destruct (ABAQUS_AVAILABLE env); [|discriminate].
  cbn [negb]. unfold bind at 1. cbv beta.
  match goal with
  | |- context [makedirs ?d w] =>
      destruct (makedirs d w) as [[[]|e] w1]; [|discriminate]
  end.
  match goal with
  | |- context [for_loop (iteration env self ?p ?o) V ?l0] =>
      destruct (for_loop_sweep p o V l0) as [l' [rs [E [H T]]]]
  end.
  rewrite E. simpl in H. unfold bind, ret.
  destruct (_generate_summary_report env _ (world l')) as [[[]|e] w2];
    [|discriminate].
  intros [= <- <-]. simpl. rewrite H. now split.
Qed.

(** A turn that finds the output directory in place and the paths of its
    velocity writable leaves exactly one record, of that velocity. *)
Lemma iteration_clean (params : Params) (out : string) (v : Q) (l : Loop) :
  FS.null_free out = true ->
  Forall (FS.dir_at is_directory (files (world l))) (FS.chain out) ->
  (files (world l) !! velocity_dir out v = None \/
   files (world l) !! velocity_dir out v = Some Directory) ->
  files (world l) !! result_file out v <> Some Directory ->
  exists l' r,
    iteration env self params out v l = (Ok tt, l') /\
    analysis_results l' = analysis_results l ++ [r] /\
    velocity r = v /\
    (files (world l') = files (world l) \/
     files (world l') =
       <[result_file out v := JsonFile r]>
         (<[velocity_dir out v := Directory]> (files (world l)))).
Proof.
  destruct l as [w rs]. cbn [world analysis_results].
  intros Hnull Hout Hdir Hfile.
  unfold iteration, try_except, try_block, bind, in_world,
    _create_model_for_velocity, _run_calculation, _extract_results,
    _save_velocity_results, abaqus, random_uniform, append, ret,
    makedirs, write_file, on_files, bind.
  cbn [world analysis_results session files draws].
  destruct (abaqus_create_model env v params (session w)) as [[msg|] s1].
  { do 2 eexists. split; [reflexivity|]. split; [reflexivity|].
    split; [reflexivity|]. now left. }
  cbn [world analysis_results session files draws].
  destruct (abaqus_job env _ _ s1) as [[msg|] s2].
  { do 2 eexists. split; [reflexivity|]. split; [reflexivity|].
    split; [reflexivity|]. now left. }
  cbn [world analysis_results session files draws].
  rewrite (makedirs_leaf Directory is_directory (velocity_dir out v)
             (FS.chain out) (velocity_dir out v) (files w)
             (join_not_empty _ _ (plain_velocity v))
             (null_free_velocity_dir out v Hnull)
             (chain_velocity_dir out v) Hout).
  assert (Hw : forall fs1 content,
             Forall (FS.dir_at is_directory fs1) (FS.chain out) ->
             fs1 !! velocity_dir out v = Some Directory ->
             fs1 !! result_file out v <> Some Directory ->
             FS.write is_directory (result_file out v) content fs1
             = Ok (<[result_file out v := content]> fs1)).
  { intros fs1 content H1 H2 H3.
    rewrite write_under.
    - destruct (fs1 !! result_file out v) as [[| | |]|]; try reflexivity.
      congruence.
    - apply join_not_empty. split; [discriminate|reflexivity].
    - now apply null_free_result_file.
    - apply names_file_join. split; [discriminate|reflexivity].
    - rewrite chain_result_file, removelast_last.
      apply Forall_app. split; [exact H1|].
      constructor; [now apply dir_at_directory|constructor]. }
  destruct Hdir as [Edir|Edir]; rewrite Edir;
    cbn [is_directory world analysis_results session files draws].
  - rewrite Hw.
    + cbn [world analysis_results session files draws].
      do 2 eexists. split; [reflexivity|]. split; [reflexivity|].
      split; [reflexivity|]. right. reflexivity.
    + eapply List.Forall_impl; [|exact Hout]. intros q Hq.
      now apply (dir_at_insert_dir Directory is_directory eq_refl).
    + apply lookup_insert_eq.
    + rewrite lookup_insert_ne by (apply not_eq_sym, result_file_not_dir).
      exact Hfile.
  - rewrite Hw by assumption.
    cbn [world analysis_results session files draws].
    do 2 eexists. split; [reflexivity|]. split; [reflexivity|].
    split; [reflexivity|]. right. cbn [world files].
    now rewrite (insert_id (files w) _ _ Edir).
Qed.

Lemma writable_after_turn (out : string) (V : list Q) (v : Q) (r : RunOutcome)
    (fs : gmap string Node) :
  writable_for out V fs ->
  writable_for out V
    (<[result_file out v := JsonFile r]> (<[velocity_dir out v := Directory]> fs)).
Proof.
  intros [Hrep Hv]. split.
  - destruct (decide (result_file out v = os_path_join out "summary_report.txt"))
      as [E|E].
    + rewrite <- E, lookup_insert_eq. discriminate.
    + rewrite lookup_insert_ne by exact E.
      rewrite lookup_insert_ne
        by (apply not_eq_sym, report_file_not_velocity_dir).
      exact Hrep.
  - intros v' Hin. destruct (Hv v' Hin) as [Hd Hf]. split.
    + rewrite lookup_insert_ne
        by (apply not_eq_sym, velocity_dir_not_result_file).
      destruct (decide (velocity_dir out v = velocity_dir out v')) as [E|E].
      * rewrite <- E, lookup_insert_eq. now right.
      * now rewrite lookup_insert_ne by exact E.
    + destruct (decide (result_file out v = result_file out v')) as [E|E].
      * rewrite <- E, lookup_insert_eq. discriminate.
      * rewrite lookup_insert_ne by exact E.
        now rewrite lookup_insert_ne by apply velocity_dir_not_result_file.
Qed.

Lemma dirs_after_turn (out : string) (v : Q) (r : RunOutcome)
    (fs : gmap string Node) :
  Forall (FS.dir_at is_directory fs) (FS.chain out) ->
  Forall (FS.dir_at is_directory
            (<[result_file out v := JsonFile r]>
               (<[velocity_dir out v := Directory]> fs)))
         (FS.chain out).
Proof.
  intros H. apply List.Forall_forall. intros q Hq.
  apply dir_at_insert_ne.
  - intros E. subst q. now apply result_file_not_in_chain in Hq.
  - apply (dir_at_insert_dir Directory is_directory eq_refl).
    now apply (proj1 (List.Forall_forall _ _) H).
Qed.

Lemma for_loop_clean (params : Params) (out : string) (V : list Q) :
  FS.null_free out = true ->
  forall (V' : list Q) (l : Loop),
    (forall v, In v V' -> In v V) ->
    Forall (FS.dir_at is_directory (files (world l))) (FS.chain out) ->
    writable_for out V (files (world l)) ->
    exists l' rs,
      for_loop (iteration env self params out) V' l = (Ok tt, l') /\
      analysis_results l' = analysis_results l ++ rs /\
      map velocity rs = V' /\
      Forall (FS.dir_at is_directory (files (world l'))) (FS.chain out) /\
      writable_for out V (files (world l')).
Proof.
  intros Hnull. induction V' as [|v V' IH]; intros l Hsub Hdirs Hw.
  - exists l, []. split; [reflexivity|]. split; [now rewrite app_nil_r|].
    now split.
  - destruct (proj2 Hw v (Hsub v (or_introl eq_refl))) as [Hd Hf].
    destruct (iteration_clean params out v l Hnull Hdirs Hd Hf)
      as [l1 [r [E1 [H1 [Hv Hfs]]]]].
    destruct (IH l1) as [l2 [rs [E2 [H2 [Hm [Hd2 Hw2]]]]]].
    + intros v' Hv'. apply Hsub. now right.
    + destruct Hfs as [->| ->]; [exact Hdirs|now apply dirs_after_turn].
    + destruct Hfs as [->| ->]; [exact Hw|now apply writable_after_turn].
    + exists l2, (r :: rs). split; [|split; [|split; [|split]]].
      * simpl. unfold bind. now rewrite E1.
      * rewrite H2, H1, <- app_assoc. reflexivity.
      * simpl. now rewrite Hv, Hm.
      * exact Hd2.
      * exact Hw2.
Qed.

(** The output directory made, with what the sweep needs. *)
Lemma makedirs_for_sweep (out : string) (V : list Q) (w : @World Session) :
  FS.normal out = true ->
  Forall (FS.free_or_dir is_directory (files w)) (FS.chain out) ->
  writable_for out V (files w) ->
  exists w1 : World,
    makedirs out w = (Ok tt, w1) /\
    session w1 = session w /\ draws w1 = draws w /\
    Forall (FS.dir_at is_directory (files w1)) (FS.chain out) /\
    (forall q, ~ In q (FS.chain out) -> files w1 !! q = files w !! q) /\
    writable_for out V (files w1).
Proof.
  intros Hnorm Hfree Hw. unfold makedirs, on_files.
  destruct (makedirs_free Directory is_directory out (files w)
              (normal_not_empty out Hnorm) (normal_null_free out Hnorm)
              Hfree)
    as [fs1 E].
  rewrite E. eexists. split; [reflexivity|]. cbn [session draws files].
  destruct (makedirs_ok Directory is_directory eq_refl out _ _ E)
    as [H1 [H2 H3]].
  split; [reflexivity|]. split; [reflexivity|]. split; [exact H1|].
  split; [exact H2|].
  assert (Hcase : forall q, fs1 !! q = files w !! q \/
                            fs1 !! q = Some Directory).
  { intros q. destruct (in_dec string_dec q (FS.chain out)) as [Hin|Hin].
    - right. apply dir_at_directory.
      now apply (proj1 (List.Forall_forall _ _) H1).
    - left. now apply H2. }
  destruct Hw as [Hrep Hv]. split.
  - rewrite H2; [exact Hrep|apply report_not_in_chain].
  - intros v Hin. destruct (Hv v Hin) as [Hd Hf]. split.
    + destruct (Hcase (velocity_dir out v)) as [-> | ->];
        [exact Hd|now right].
    + rewrite H2; [exact Hf|apply result_file_not_in_chain].
Qed.

(** X3. With Abaqus available, at least one velocity and an output
    directory [out], written normally, that can be made (every name on
    the way to it, and [out] itself, is free or a directory) and can
    take the files of the sweep, [run_analysis] returns results that hold
    exactly one record per requested velocity, in the order of the
    request. *)
Lemma run_analysis_clean (V : list Q) (out : string)
    (params : option Params) (w : World) :
  ABAQUS_AVAILABLE env = true ->
  V <> [] ->
  FS.normal out = true ->
  Forall (FS.free_or_dir is_directory (files w)) (FS.chain out) ->
  writable_for out V (files w) ->
  exists res w',
    run_analysis env self V (Some out) params w = (Ok res, w') /\
    velocities res = V /\
    map velocity (results res) = V /\
    length (results res) = length V.
Proof.
  intros Hab HV Hnorm Hfree Hw.
  pose proof (normal_null_free out Hnorm) as Hnull.
  unfold run_analysis. rewrite Hab.
  cbn [negb]. unfold bind at 1. cbv beta.
  destruct (makedirs_for_sweep out V w Hnorm Hfree Hw)
    as [w1 [E1 [_ [_ [Hd1 [_ Hw1]]]]]].
  rewrite E1.
  match goal with
  | |- context [for_loop (iteration env self ?p out) V ?l0] =>
      destruct (for_loop_clean p out V Hnull V l0 (fun v H => H) Hd1 Hw1)
        as [l' [rs [E [H [Hm [Hd' Hw']]]]]]
  end.
  rewrite E. simpl in H. unfold bind, ret, _generate_summary_report.
  destruct (max_spec V HV) as [hi [Ehi _]].
  destruct (min_spec V HV) as [lo [Elo _]].
  cbn [velocities results output_dir]. rewrite Elo, Ehi.
  unfold mbind, result_bind, write_file, on_files. cbv beta iota.
  rewrite write_under.
  - destruct (files (world l') !! os_path_join out "summary_report.txt")
      as [[| | |]|] eqn:Er; [destruct (proj1 Hw' Er)| | | |];
      cbn [is_directory];
      do 2 eexists; (split; [reflexivity|]); cbn [velocities results];
      rewrite H; (split; [reflexivity|]); (split; [exact Hm|]);
      rewrite <- Hm; now rewrite length_map.
  - apply join_not_empty. split; [discriminate|reflexivity].
  - apply null_free_join;
      [split; [discriminate|reflexivity]|exact Hnull|reflexivity].
  - apply names_file_join. split; [discriminate|reflexivity].
  - rewrite removelast_chain_join by (split; [discriminate|reflexivity]).
    exact Hd'.
Qed.

(** X6. Without Abaqus [run_analysis] raises [RuntimeError] before any
    run: no result is returned and the world is left as it was. *)
Lemma run_analysis_without_abaqus (V : list Q) (out : option string)
    (params : option Params) (w : World) :
  ABAQUS_AVAILABLE env = false ->
  exists msg,
    run_analysis env self V out params w = (Raise (RuntimeError msg), w).
Proof.
  intros H. unfold run_analysis. rewrite H. eexists. reflexivity.
Qed.

(** X4. A failure signalled while the model of a velocity is built is
    recorded as a failed record carrying its message; nothing is written
    and the turn returns, so the loop goes on. *)
Lemma model_failure_recorded (params : Params) (out : string) (v : Q)
    (l : Loop) (msg : string) (s' : Session) :
  abaqus_create_model env v params (session (world l)) = (Some msg, s') ->
  exists l',
    iteration env self params out v l = (Ok tt, l') /\
    analysis_results l' = analysis_results l ++ [Failed v msg] /\
    files (world l') = files (world l) /\
    session (world l') = s'.
Proof.
  intros E. destruct l as [w rs]. cbn [world] in E.
  unfold iteration, try_except, try_block, bind, in_world,
    _create_model_for_velocity, abaqus, append, ret, bind.
  cbn [world analysis_results session files draws]. rewrite E.
  eexists. split; [reflexivity|]. repeat split; reflexivity.
Qed.

End SweepFacts.

Section SweepRecords.
Import Spall SpallSpec.

Lemma turn_records_velocity (v : Q) (rs : list RunOutcome) :
  turn_records v rs -> forall r, In r rs -> velocity r = v.
Proof.
  intros [msg|s e t j|s e t j msg] r Hr; simpl in Hr;
    repeat destruct Hr as [<-|Hr]; try reflexivity; destruct Hr.
Qed.

Lemma sweep_records_velocity (V : list Q) (rs : list RunOutcome) :
  sweep_records V rs -> forall r, In r rs -> In (velocity r) V.
Proof.
  induction 1 as [|v vs rs rest Ht _ IH]; intros r Hr; [destruct Hr|].
  apply in_app_or in Hr. destruct Hr as [Hr|Hr].
  - left. symmetry. eapply turn_records_velocity; eassumption.
  - right. now apply IH.
Qed.

Lemma sweep_records_length (V : list Q) (rs : list RunOutcome) :
  sweep_records V rs ->
  (length V <= length rs <= 2 * length V)%nat.
Proof.
  induction 1 as [|v vs rs rest Ht _ IH]; [simpl; lia|].
  rewrite length_app. destruct Ht; simpl; lia.
Qed.

Lemma sweep_records_groups (V : list Q) (rs : list RunOutcome) :
  sweep_records V rs ->
  exists groups,
    rs = concat groups /\
    Forall2 (fun v group =>
               turn_records v group /\
               (1 <= length group <= 2)%nat /\
               forall r, In r group -> velocity r = v)
            V groups.
Proof.
  induction 1 as [|v vs rs rest Ht _ [groups [E IH]]].
  - exists []. split; [reflexivity|constructor].
  - exists (rs :: groups). split; [simpl; now rewrite E|].
    constructor; [|exact IH]. split; [exact Ht|]. split.
    + destruct Ht; simpl; lia.
    + intros r Hr. eapply turn_records_velocity; eassumption.
Qed.

(** X5. Whatever the environment does, the results [run_analysis] returns
    hold the requested velocities, only records of requested velocities,
    and between one and two records per requested velocity: the records
    are, in the order of the requested velocities, one group for each of
    them (a velocity requested twice has two groups), and the group of a
    velocity is its failed record, its completed record, or its
    completed record followed by its failed record. *)
Lemma run_analysis_records {Session : Type} (env : @Environment Session)
    (sys : SpallFractureSystem) (V : list Q) (out : option string)
    (params : option Params) (w w' : World) (res : SpallFractureResults) :
  run_analysis env sys V out params w = (Ok res, w') ->
  velocities res = V /\
  (forall r, In r (results res) -> In (velocity r) V) /\
  (length V <= length (results res) <= 2 * length V)%nat /\
  exists groups,
    results res = concat groups /\
    Forall2 (fun v group =>
               turn_records v group /\
               (1 <= length group <= 2)%nat /\
               forall r, In r group -> velocity r = v)
            V groups.
Proof.
  intros H. destruct (run_analysis_sweep env sys V out params w w' res H)
    as [Hv Hs].
  split; [exact Hv|]. split; [|split].
  - now apply sweep_records_velocity.
  - now apply sweep_records_length.
  - now apply sweep_records_groups.
Qed.

Lemma run_analysis_records_witness :
  match run_analysis env_mesh_error system0 [100; 150] (Some "out") None
                     world_stale_file
  with
  | (Ok res, _) =>
      velocities res = [100; 150] /\
      (forall r, In r (results res) -> In (velocity r) [100; 150]) /\
      (length [100; 150] <= length (results res)
       <= 2 * length [100; 150])%nat /\
      exists groups,
        results res = concat groups /\
        Forall2 (fun v group =>
                   turn_records v group /\
                   (1 <= length group <= 2)%nat /\
                   forall r, In r group -> velocity r = v)
                [100; 150] groups
  | (Raise _, _) => False
  end.
Proof.
  destruct (run_analysis env_mesh_error system0 [100; 150] (Some "out") None
                         world_stale_file) as [[res|e] w'] eqn:E.
  - exact (run_analysis_records env_mesh_error system0 [100; 150]
                                (Some "out") None world_stale_file w' res E).
  - vm_compute in E. discriminate.
Defined.

Lemma run_analysis_clean_witness :
  exists res w',
    run_analysis env_mesh_error system0 [100; 150; 200] (Some "out") None
                 world_empty = (Ok res, w') /\
    velocities res = [100; 150; 200] /\
    map velocity (results res) = [100; 150; 200] /\
    length (results res) = length [100; 150; 200].
Proof.
  apply (run_analysis_clean env_mesh_error system0 [100; 150; 200] "out"
                            None world_empty).
  - reflexivity.
  - discriminate.
  - reflexivity.
  - change (FS.chain "out") with ["out"%string].
    constructor; [left; apply lookup_empty|constructor].
  - split; [vm_compute; discriminate|].
    intros v _. split; [left; apply lookup_empty|].
    cbn [files world_empty]. rewrite lookup_empty. discriminate.
Defined.

Lemma run_analysis_without_abaqus_witness :
  exists msg,
    run_analysis env_no_abaqus system0 [100; 150] None None world_empty
    = (Raise (RuntimeError msg), world_empty).
Proof.
  apply (run_analysis_without_abaqus env_no_abaqus system0 [100; 150] None
                                     None world_empty).
  reflexivity.
Defined.

(** Scenario. The sweep over [100, 150, 200, 250, 300] in which the model for
    150 fails with "mesh generation error": the record of 150 is failed
    and carries the message, one calculation is counted as failed, and
    150 is in neither velocity set of the analysis. *)
Lemma scenario_mesh_generation_error :
  match fst (run_analysis env_mesh_error system0 [100; 150; 200; 250; 300]
                          (Some "out") None world_empty) with
  | Ok res =>
      map velocity (results res) = [100; 150; 200; 250; 300] /\
      nth_error (results res) 1 = Some (Failed 150 "mesh generation error") /\
      exists a,
        analyze res = Ok (Full a) /\
        total_velocities a = 5%Z /\
        successful_calculations a = 4%Z /\
        failed_calculations a = 1%Z /\
        critical_velocity a = Some 250 /\
        fracture_velocities a = [250; 300] /\
        no_fracture_velocities a = [100; 200]
  | Raise _ => False
  end.
Proof.
  vm_compute run_analysis. cbn [fst].
  split; [reflexivity|]. split; [reflexivity|].
  eexists. repeat split; reflexivity.
Qed.

Lemma model_failure_recorded_witness :
  exists l',
    iteration env_mesh_error system0 default_params "out" 150
              {| world := world_empty; analysis_results := [] |}
    = (Ok tt, l') /\
    analysis_results l' = [] ++ [Failed 150 "mesh generation error"] /\
    files (world l') = files world_empty /\
    session (world l') = tt.
Proof.
  apply (model_failure_recorded env_mesh_error system0 default_params "out"
           150 {| world := world_empty; analysis_results := [] |}
           "mesh generation error" tt).
  reflexivity.
Defined.

End SweepRecords.

(** ** Properties of the sweep and of the analysis *)

Section SpallProperties.
Import Spall SpallSpec.

Lemma fracture_set_in_results (rs : list RunOutcome) (v : Q) :
  In v (map velocity (fracture_set rs)) -> In v (map velocity rs).
Proof.
  intros H. apply in_map_iff in H. destruct H as [r [<- Hr]].
  apply in_map. apply List.filter_In in Hr. tauto.
Qed.

Lemma fracture_set_of_none_completed (rs : list RunOutcome) :
  completed rs = [] -> fracture_set rs = [].
Proof.
  intros E. rewrite <- fracture_set_completed. now rewrite E.
Qed.

(** C1. [analyze] always returns; when the fracture set of the records
    (the completed records with [fracture_occurred]) is not empty, the
    critical velocity it reports is a smallest velocity of that set and
    is the velocity of one of the records; when the fracture set is empty
    it reports none. For results returned by [run_analysis] the critical
    velocity is one of the requested velocities. *)
Theorem critical_velocity_is_minimum :
  (forall self : SpallFractureResults,
     exists a,
       analyze self = Ok a /\
       match fracture_set (results self) with
       | [] => get_critical_velocity a = None
       | _ :: _ =>
           exists cv,
             get_critical_velocity a = Some cv /\
             is_minimum cv (map velocity (fracture_set (results self))) /\
             In cv (map velocity (results self))
       end) /\
  (forall (Session : Type) (env : @Environment Session) sys V out params
          w w' res a cv,
     run_analysis env sys V out params w = (Ok res, w') ->
     analyze res = Ok a ->
     get_critical_velocity a = Some cv ->
     In cv V).
Proof.
  assert (Hfirst : forall self : SpallFractureResults,
     exists a,
       analyze self = Ok a /\
       match fracture_set (results self) with
       | [] => get_critical_velocity a = None
       | _ :: _ =>
           exists cv,
             get_critical_velocity a = Some cv /\
             is_minimum cv (map velocity (fracture_set (results self))) /\
             In cv (map velocity (results self))
       end).
  { intros self.
    destruct (completed (results self)) as [|c cs] eqn:Ec.
    - rewrite (analyze_error_only self Ec). eexists. split; [reflexivity|].
      now rewrite (fracture_set_of_none_completed _ Ec).
    - destruct (analyze_full self) as [a [lo [hi [E [_ [_ [_ [Hf [_ [Hc _]]]]]]]]]];
        [congruence|].
      exists (Full a). split; [exact E|]. simpl. rewrite Hc, Hf.
      destruct (fracture_set (results self)) as [|r rs] eqn:Ef;
        [reflexivity|].
      destruct (min_spec (map velocity (r :: rs))) as [m [Em Hm]];
        [discriminate|].
      rewrite Em. exists m. split; [reflexivity|]. split; [exact Hm|].
      apply fracture_set_in_results. rewrite Ef. apply Hm. }
  split; [exact Hfirst|].
  intros Session env sys V out params w w' res a cv Hrun Ha Hcv.
  destruct (run_analysis_sweep env sys V out params w w' res Hrun)
    as [_ Hsweep].
  destruct (Hfirst res) as [a' [Ea' Hmatch]].
  assert (a' = a) by congruence. subst a'.
  destruct (fracture_set (results res)) as [|r rs]; [congruence|].
  destruct Hmatch as [cv' [Ecv' [_ Hin]]].
  assert (cv' = cv) by congruence. subst cv'.
  apply in_map_iff in Hin. destruct Hin as [r' [<- Hr']].
  eapply sweep_records_velocity; eassumption.
Qed.

(** The scenario of the sweep [100, 150, 200, 250, 300]: fracture above
    200, critical velocity 250. *)
Lemma critical_velocity_is_minimum_witness :
  match fst (run_analysis env_ok system0 [100; 150; 200; 250; 300]
                          (Some "out") None world_empty) with
  | Ok res =>
      exists a, analyze res = Ok (Full a) /\
                critical_velocity a = Some 250 /\
                fracture_velocities a = [250; 300] /\
                no_fracture_velocities a = [100; 150; 200] /\
                In 250 [100; 150; 200; 250; 300]
  | Raise _ => False
  end.
Proof.
  vm_compute run_analysis. cbn [fst].
  eexists. split; [reflexivity|]. split; [reflexivity|].
  split; [reflexivity|]. split; [reflexivity|].
  eapply (proj2 critical_velocity_is_minimum unit env_ok system0
            [100; 150; 200; 250; 300] (Some "out") None world_empty).
  - vm_compute. reflexivity.
  - vm_compute. reflexivity.
  - reflexivity.
Defined.

(** C2 (failing input). The output directory already holds a regular file
    named [velocity_100]; the run for velocity 100 completes, its record
    is appended, [_save_velocity_results] raises, and the handler appends
    a failed record for the same velocity: one requested velocity, two
    records. *)
Theorem save_failure_records_velocity_twice :
  exists res w',
    run_analysis env_ok system0 [100] (Some "out") None world_stale_file
    = (Ok res, w') /\
    results res =
      [Completed 100 50 (1 # 100) 50 false "SpallJob_v100";
       Failed 100 "[Errno 17] File exists: 'out/velocity_100'"] /\
    length (results res) = 2%nat /\
    length (velocities res) = 1%nat.
Proof.
  do 2 eexists. split; [vm_compute; reflexivity|].
  split; [reflexivity|]. split; reflexivity.
Qed.

(** C3 (counterexample). The sweep over [150] whose only run fails returns
    [results_all_failed]; on it [analyze] returns the error entry alone,
    without any count. *)
Lemma no_data_summary_has_counts_counterexample :
  fst (run_analysis env_mesh_error system0 [150] (Some "out") None
                    world_empty) = Ok results_all_failed /\
  completed (results results_all_failed) = [] /\
  exists a, analyze results_all_failed = Ok a /\ get_counts a = None.
Proof.
  split; [vm_compute; reflexivity|].
  split; [reflexivity|]. eexists. split; reflexivity.
Qed.

(** C3 (amended). Without a completed record [analyze] returns, without
    raising, a mapping that holds an error message and nothing else: no
    critical velocity and no count. *)
Theorem no_completed_gives_error_only (self : SpallFractureResults) :
  completed (results self) = [] ->
  exists msg,
    analyze self = Ok (ErrorOnly msg) /\
    get_critical_velocity (ErrorOnly msg) = None /\
    get_counts (ErrorOnly msg) = None.
Proof.
  intros E. eexists. split; [now apply analyze_error_only|].
  split; reflexivity.
Qed.

Lemma no_completed_gives_error_only_witness :
  completed (results results_all_failed) = [] /\
  exists msg,
    analyze results_all_failed = Ok (ErrorOnly msg) /\
    get_critical_velocity (ErrorOnly msg) = None /\
    get_counts (ErrorOnly msg) = None.
Proof.
  split; [reflexivity|].
  apply (no_completed_gives_error_only results_all_failed). reflexivity.
Defined.

(** C7 (counterexample). In [results_partial] three velocities were
    requested and one record is held: [total_velocities] is 3, not the
    number of records. The results of the sweep over [100] that failed to
    write its record hold one velocity and two records:
    [total_velocities] is 1. *)
Lemma total_velocities_is_record_count_counterexample :
  (completed (results results_partial) <> [] /\
   exists a,
     analyze results_partial = Ok (Full a) /\
     Py.len (results results_partial) = 1%Z /\
     total_velocities a = 3%Z) /\
  match fst (run_analysis env_ok system0 [100] (Some "out") None
                          world_stale_file) with
  | Ok res =>
      completed (results res) <> [] /\
      exists a,
        analyze res = Ok (Full a) /\
        Py.len (results res) = 2%Z /\
        total_velocities a = 1%Z
  | Raise _ => False
  end.
Proof.
  split.
  - split; [discriminate|]. eexists. repeat split; reflexivity.
  - vm_compute run_analysis. cbn [fst].
    split; [discriminate|]. eexists. repeat split; reflexivity.
Qed.

(** C7 (amended). With a completed record the analysis holds
    [total_velocities], the number of requested velocities (the number of
    records when the two sequences have the same length),
    [successful_calculations], the number of completed records, and
    [failed_calculations], the number of records minus the number of
    completed ones. *)
Theorem analysis_counts (self : SpallFractureResults) :
  completed (results self) <> [] ->
  exists a,
    analyze self = Ok (Full a) /\
    total_velocities a = Py.len (velocities self) /\
    successful_calculations a = Py.len (completed (results self)) /\
    failed_calculations a =
      (Py.len (results self) - Py.len (completed (results self)))%Z /\
    (length (velocities self) = length (results self) ->
     total_velocities a = Py.len (results self)).
Proof.
  intros Hne.
  destruct (analyze_full self Hne) as [a [lo [hi [E [Ht [Hs [Hf _]]]]]]].
  exists a. repeat split; try assumption.
  intros Hlen. rewrite Ht. unfold Py.len. now rewrite Hlen.
Qed.

Lemma analysis_counts_witness :
  exists a,
    analyze results_partial = Ok (Full a) /\
    total_velocities a = Py.len (velocities results_partial) /\
    successful_calculations a =
      Py.len (completed (results results_partial)) /\
    failed_calculations a =
      (Py.len (results results_partial)
       - Py.len (completed (results results_partial)))%Z /\
    (length (velocities results_partial) = length (results results_partial) ->
     total_velocities a = Py.len (results results_partial)).
Proof.
  apply (analysis_counts results_partial). discriminate.
Defined.

End SpallProperties.

(** ** Persistence of the outcomes *)

Section Persistence.
Import Spall SpallSpec.

(** C8 (counterexample). The velocities 100.2 and 100.7 differ and share
    the directory [out/velocity_100]: after the sweep over both, two
    completed records exist and the one document left is that of 100.7.
    The failed outcome of velocity 150 is written nowhere. *)
Lemma outcome_persisted_per_velocity_counterexample :
  ~ (1002 # 10) == (1007 # 10) /\
  velocity_dir "out" (1002 # 10) = velocity_dir "out" (1007 # 10) /\
  match run_analysis env_ok system0 [1002 # 10; 1007 # 10] (Some "out") None
                     world_empty with
  | (Ok res, w') =>
      map status_completed (results res) = [true; true] /\
      files w' !! "out/velocity_100/results.json" =
        Some (JsonFile (Completed (1007 # 10) 50 (1 # 100) 50 false
                                  "SpallJob_v100"))
  | (Raise _, _) => False
  end /\
  match run_analysis env_mesh_error system0 [150] (Some "out") None
                     world_empty with
  | (Ok res, w') =>
      results res = [Failed 150 "mesh generation error"] /\
      files w' !! result_file "out" 150 = None /\
      files w' !! velocity_dir "out" 150 = None
  | (Raise _, _) => False
  end.
Proof.
  split; [discriminate|]. split; [reflexivity|]. split.
  - vm_compute. split; reflexivity.
  - vm_compute. repeat split; reflexivity.
Qed.

(** C8 (amended). In one turn of the loop that leaves one record: a
    completed record was written, in that turn, as the document
    [results.json] of the directory [velocity_<n>] under the output
    directory, [n] being the integer part of the velocity; a failed
    record was written nowhere. Two velocities share the directory
    exactly when their integer parts agree. *)
Theorem completed_outcome_persisted
    {Session : Type} (env : @Environment Session) (sys : SpallFractureSystem)
    (params : Params) (out : string) (v : Q) (l l' : Loop) (r : RunOutcome) :
  iteration env sys params out v l = (Ok tt, l') ->
  analysis_results l' = analysis_results l ++ [r] ->
  velocity r = v /\
  match r with
  | Completed _ _ _ _ _ _ =>
      files (world l') !! result_file out v = Some (JsonFile r) /\
      files (world l') !! velocity_dir out v = Some Directory
  | Failed _ _ => files (world l') = files (world l)
  end /\
  velocity_dir out v =
    with_sep out +:+ "velocity_" +:+ Py.str_int (Py.int v) /\
  result_file out v = with_sep (velocity_dir out v) +:+ "results.json" /\
  forall v2, velocity_dir out v = velocity_dir out v2 <-> Py.int v = Py.int v2.
Proof.
  intros Hit Hres.
  destruct (iteration_spec env sys params out v l)
    as [l1 [E [[msg [H Hf]]|[[s [e [t [j [fs1 [H [Hm Hf]]]]]]]
                            |[s [e [t [j [msg H]]]]]]]]];
    rewrite Hit in E; injection E as <-; rewrite Hres in H;
    apply app_inv_head in H.
  - injection H as ->. split; [reflexivity|]. split; [exact Hf|].
    split; [reflexivity|]. split; [reflexivity|].
    intros v2. apply velocity_dir_inj.
  - injection H as ->. split; [reflexivity|]. split.
    + rewrite Hf. split.
      * apply lookup_insert_eq.
      * rewrite lookup_insert_ne by apply result_file_not_dir.
        apply dir_at_directory.
        destruct (makedirs_ok Directory is_directory eq_refl _ _ _ Hm)
          as [Hd _].
        apply (proj1 (List.Forall_forall _ _) Hd).
        rewrite chain_velocity_dir. apply in_or_app. right. now left.
    + split; [reflexivity|]. split; [reflexivity|].
      intros v2. apply velocity_dir_inj.
  - discriminate.
Qed.

Lemma completed_outcome_persisted_witness :
  let l := {| world := world_empty; analysis_results := [] |} in
  let r := Completed (1007 # 10) 50 (1 # 100) 50 false "SpallJob_v100" in
  let l' := snd (iteration env_ok system0 default_params "out" (1007 # 10) l) in
  files (world l') !! result_file "out" (1007 # 10) = Some (JsonFile r) /\
  files (world l') !! "out/velocity_100" = Some Directory /\
  velocity_dir "out" (1007 # 10) = velocity_dir "out" (1002 # 10).
Proof.
  intros l r l'.
  destruct (completed_outcome_persisted env_ok system0 default_params "out"
              (1007 # 10) l l' r) as [_ [[Hfile Hdir] [_ [_ Hshare]]]].
  - vm_compute. reflexivity.
  - vm_compute. reflexivity.
  - split; [exact Hfile|]. split; [exact Hdir|].
    apply Hshare. reflexivity.
Defined.

End Persistence.


(** ** Further properties of the threshold analyzer *)

Section AnalyzerMore.
Import Spall SpallSpec SpallMore.

Lemma filter_partition_permutation {A} (f : A -> bool) (l : list A) :
  Permutation (List.filter f l ++ List.filter (fun x => negb (f x)) l) l.
Proof.
  induction l as [|x l IH]; simpl; [constructor|].
  destruct (f x); simpl.
  - now constructor.
  - apply Permutation_sym, Permutation_cons_app, Permutation_sym, IH.
Qed.

Lemma max_stress_completed_stresses (rs : list RunOutcome) :
  Forall (fun r => status_completed r = true) rs ->
  comprehension max_stress rs = Ok (completed_stresses rs).
Proof.
  induction 1 as [|r rs Hr _ IH]; [reflexivity|]. simpl.
  destruct r as [v s e t f j|v msg]; [|discriminate]. simpl.
  now rewrite IH.
Qed.

Lemma completed_stresses_completed (rs : list RunOutcome) :
  completed_stresses (completed rs) = completed_stresses rs.
Proof.
  unfold completed. induction rs as [|r rs IH]; [reflexivity|].
  destruct r as [v s e t f j|v msg]; simpl; now rewrite IH.
Qed.

(** X7. With a completed record, the stress range of the analysis is the
    smallest and the largest [max_stress] of the completed records, and
    its lower end does not exceed its upper end. *)
Lemma analyze_stress_range (self : SpallFractureResults) :
  completed (results self) <> [] ->
  exists a,
    analyze self = Ok (Full a) /\
    is_minimum (fst (max_stress_range a)) (completed_stresses (results self)) /\
    is_maximum (snd (max_stress_range a)) (completed_stresses (results self)) /\
    fst (max_stress_range a) <= snd (max_stress_range a).
Proof.
  intros Hne. unfold analyze. fold (completed (results self)).
  pose proof (completed_all (results self)) as Hall.
  pose proof (completed_stresses_completed (results self)) as Hcs.
  destruct (completed (results self)) as [|c cs] eqn:Ec; [congruence|].
  rewrite (fracture_velocities_completed _ Hall).
  rewrite (velocities_where_completed negb _ Hall).
  rewrite (max_stress_completed_stresses _ Hall). rewrite Hcs.
  assert (Hs : completed_stresses (results self) <> []).
  { rewrite <- Hcs. destruct c as [v s e t f j|v msg]; [discriminate|].
    inversion Hall as [|? ? Hc _]. discriminate. }
  destruct (min_spec _ Hs) as [lo [Elo Hlo]].
  destruct (max_spec _ Hs) as [hi [Ehi Hhi]].
  unfold mbind, result_bind. rewrite Elo, Ehi.
  destruct (map velocity (List.filter in_fracture_set (c :: cs)))
    as [|v0 vs] eqn:Ef.
  - eexists. split; [reflexivity|]. simpl.
    split; [exact Hlo|]. split; [exact Hhi|]. apply Hhi, Hlo.
  - destruct (min_spec (v0 :: vs)) as [m [Em _]]; [discriminate|].
    rewrite Em. eexists. split; [reflexivity|]. simpl.
    split; [exact Hlo|]. split; [exact Hhi|]. apply Hhi, Hlo.
Qed.

Lemma analyze_stress_range_witness :
  exists a,
    analyze results_partial = Ok (Full a) /\
    is_minimum (fst (max_stress_range a))
               (completed_stresses (results results_partial)) /\
    is_maximum (snd (max_stress_range a))
               (completed_stresses (results results_partial)) /\
    fst (max_stress_range a) <= snd (max_stress_range a).
Proof.
  apply (analyze_stress_range results_partial). discriminate.
Defined.

(** X8. With a completed record, the fracture and the no-fracture
    velocities of the analysis together are the velocities of the
    completed records, each as often as it completed; their numbers add up
    to [successful_calculations], which with [failed_calculations] adds up
    to the number of records; and [failed_calculations] is not negative. *)
Lemma analyze_partition (self : SpallFractureResults) :
  completed (results self) <> [] ->
  exists a,
    analyze self = Ok (Full a) /\
    Permutation (fracture_velocities a ++ no_fracture_velocities a)
                (map velocity (completed (results self))) /\
    (Py.len (fracture_velocities a) + Py.len (no_fracture_velocities a)
     = successful_calculations a)%Z /\
    (successful_calculations a + failed_calculations a
     = Py.len (results self))%Z /\
    (0 <= failed_calculations a)%Z.
Proof.
  intros Hne.
  destruct (analyze_full self Hne)
    as [a [lo [hi [E [_ [Hs [Hf [Hfv [Hnv _]]]]]]]]].
  exists a. split; [exact E|].
  assert (HP : Permutation (fracture_velocities a ++ no_fracture_velocities a)
                           (map velocity (completed (results self)))).
  { rewrite Hfv, Hnv, <- fracture_set_completed, <- map_app.
    apply Permutation_map, filter_partition_permutation. }
  split; [exact HP|]. split; [|split].
  - rewrite Hs. unfold Py.len. rewrite <- Nat2Z.inj_add, <- length_app.
    f_equal. rewrite (Permutation_length HP). apply length_map.
  - rewrite Hs, Hf. lia.
  - rewrite Hf. unfold Py.len, completed.
    pose proof (List.filter_length_le status_completed (results self)). lia.
Qed.

Lemma analyze_partition_witness :
  exists a,
    analyze results_partial = Ok (Full a) /\
    Permutation (fracture_velocities a ++ no_fracture_velocities a)
                (map velocity (completed (results results_partial))) /\
    (Py.len (fracture_velocities a) + Py.len (no_fracture_velocities a)
     = successful_calculations a)%Z /\
    (successful_calculations a + failed_calculations a
     = Py.len (results results_partial))%Z /\
    (0 <= failed_calculations a)%Z.
Proof.
  apply (analyze_partition results_partial). discriminate.
Defined.

End AnalyzerMore.

(** ** Further properties of the sweep *)

Section SweepRecordsMore.
Import Spall SpallSpec SpallMore.

Lemma turn_records_fracture (v : Q) (rs : list RunOutcome) :
  turn_records v rs ->
  forall r, In r rs -> in_fracture_set r = true -> 200 < velocity r.
Proof.
  intros [msg|s e t j|s e t j msg] r Hr; simpl in Hr;
    repeat destruct Hr as [<-|Hr]; try destruct Hr; simpl;
    try discriminate; intros H; now apply lt_true.
Qed.

Lemma turn_records_no_fracture (v : Q) (rs : list RunOutcome) :
  turn_records v rs ->
  forall r, In r rs -> status_completed r = true ->
            in_fracture_set r = false -> velocity r <= 200.
Proof.
  intros [msg|s e t j|s e t j msg] r Hr; simpl in Hr;
    repeat destruct Hr as [<-|Hr]; try destruct Hr; simpl;
    try discriminate; intros _ H; now apply lt_false.
Qed.

Lemma sweep_records_fracture (V : list Q) (rs : list RunOutcome) :
  sweep_records V rs ->
  forall r, In r rs ->
    (in_fracture_set r = true -> 200 < velocity r) /\
    (status_completed r = true -> in_fracture_set r = false ->
     velocity r <= 200).
Proof.
  induction 1 as [|v vs rs rest Ht _ IH]; intros r Hr; [destruct Hr|].
  apply in_app_or in Hr. destruct Hr as [Hr|Hr]; [|now apply IH].
  split.
  - now apply (turn_records_fracture v rs).
  - now apply (turn_records_no_fracture v rs).
Qed.

Lemma sweep_records_covers (V : list Q) (rs : list RunOutcome) :
  sweep_records V rs -> forall v, In v V -> exists r, In r rs /\ velocity r = v.
Proof.
  induction 1 as [|v0 vs rs rest Ht _ IH]; intros v Hv; [destruct Hv|].
  destruct Hv as [<-|Hv].
  - destruct Ht; eexists; (split; [apply in_or_app; left; now left|]);
      reflexivity.
  - destruct (IH v Hv) as [r [Hr E]]. exists r. split; [|exact E].
    apply in_or_app. now right.
Qed.

(** X9. In the results of a sweep the fracture flag of a completed run is
    decided by its velocity alone ([velocity > 200]): every fracture
    velocity of the analysis is above 200, every no-fracture velocity is
    at most 200, and the critical velocity, when there is one, is above
    200 and above every no-fracture velocity. *)
Lemma sweep_fracture_threshold {Session : Type} (env : @Environment Session)
    (sys : SpallFractureSystem) (V : list Q) (out : option string)
    (params : option Params) (w w' : World) (res : SpallFractureResults)
    (a : Analysis) :
  run_analysis env sys V out params w = (Ok res, w') ->
  analyze res = Ok (Full a) ->
  (forall v, In v (fracture_velocities a) -> 200 < v) /\
  (forall v, In v (no_fracture_velocities a) -> v <= 200) /\
  (forall cv, critical_velocity a = Some cv ->
     200 < cv /\ forall v, In v (no_fracture_velocities a) -> v < cv).
Proof.
  intros Hrun Ha.
  destruct (run_analysis_sweep env sys V out params w w' res Hrun)
    as [_ Hsweep].
  assert (Hne : completed (results res) <> []).
  { intros E. rewrite (analyze_error_only res E) in Ha. discriminate. }
  destruct (analyze_full res Hne)
    as [a' [lo [hi [E [_ [_ [_ [Hfv [Hnv [Hc _]]]]]]]]]].
  assert (a' = a) by congruence. subst a'.
  assert (Hfrac : forall v, In v (fracture_velocities a) -> 200 < v).
  { intros v Hv. rewrite Hfv in Hv. apply in_map_iff in Hv.
    destruct Hv as [r [<- Hr]]. apply List.filter_In in Hr.
    destruct Hr as [Hr Hf].
    now apply (sweep_records_fracture V (results res) Hsweep r Hr). }
  assert (Hno : forall v, In v (no_fracture_velocities a) -> v <= 200).
  { intros v Hv. rewrite Hnv in Hv. apply in_map_iff in Hv.
    destruct Hv as [r [<- Hr]]. apply List.filter_In in Hr.
    destruct Hr as [Hr Hf]. apply List.filter_In in Hr.
    destruct Hr as [Hr Hcomp]. apply negb_true_iff in Hf.
    now apply (sweep_records_fracture V (results res) Hsweep r Hr). }
  split; [exact Hfrac|]. split; [exact Hno|].
  intros cv Hcv. rewrite Hc in Hcv.
  destruct (fracture_velocities a) as [|v0 vs] eqn:Ef; [discriminate|].
  destruct (min_spec (v0 :: vs)) as [m [Em [Hin _]]]; [discriminate|].
  rewrite Em in Hcv. injection Hcv as <-.
  assert (H200 : 200 < m) by now apply Hfrac.
  split; [exact H200|]. intros v Hv.
  eapply Qle_lt_trans; [apply Hno; exact Hv|exact H200].
Qed.

Lemma sweep_fracture_threshold_witness :
  match run_analysis env_mesh_error system0 [300; 150; 100; 250]
                     (Some "out") None world_empty with
  | (Ok res, _) =>
      match analyze res with
      | Ok (Full a) =>
          (forall v, In v (fracture_velocities a) -> 200 < v) /\
          (forall v, In v (no_fracture_velocities a) -> v <= 200) /\
          (forall cv, critical_velocity a = Some cv ->
             200 < cv /\ forall v, In v (no_fracture_velocities a) -> v < cv)
      | _ => False
      end
  | (Raise _, _) => False
  end.
Proof.
  destruct (run_analysis env_mesh_error system0 [300; 150; 100; 250]
                         (Some "out") None world_empty)
    as [[res|e] w'] eqn:Erun; [|vm_compute in Erun; discriminate].
  destruct (analyze res) as [[msg|a]|e] eqn:Ea.
  - vm_compute in Erun. injection Erun as <- _. vm_compute in Ea. discriminate.
  - exact (sweep_fracture_threshold env_mesh_error system0 _ _ _ _ _ _ _
                                    Erun Ea).
  - vm_compute in Erun. injection Erun as <- _. vm_compute in Ea. discriminate.
Defined.

End SweepRecordsMore.

Section SummaryReport.
Import Spall SpallSpec SpallMore.
Context {Session : Type} (env : @Environment Session)
        (self : SpallFractureSystem).


(** X11. When [run_analysis] returns, the report it wrote under the
    output directory holds the five heading lines (with the smallest and
    the largest requested velocity) followed by one line per record, in
    the order of the records, and every requested velocity has a line. *)
Lemma run_analysis_report (V : list Q) (out : option string)
    (params : option Params) (w w' : World) (res : SpallFractureResults) :
  run_analysis env self V out params w = (Ok res, w') ->
  exists lo hi,
    is_minimum lo V /\ is_maximum hi V /\
    files w' !! report_path (output_dir res)
    = Some (ReportFile (report_head env V lo hi
                          ++ map report_line (results res))) /\
    forall v, In v V ->
      exists r, In r (results res) /\ velocity r = v /\
                In (report_line r) (map report_line (results res)).
Proof.
  intros Hrun.
  destruct (run_analysis_sweep env self V out params w w' res Hrun)
    as [HV Hsweep].
  revert Hrun. unfold run_analysis.
  destruct (ABAQUS_AVAILABLE env); [|discriminate].
  cbn [negb]. unfold bind at 1. cbv beta.
  match goal with
  | |- context [makedirs ?d w] =>
      destruct (makedirs d w) as [[[]|e] w1]; [|discriminate]
  end.
  match goal with
  | |- context [for_loop (iteration env self ?p ?o) V ?l0] =>
      destruct (for_loop_sweep env self p o V l0) as [l' [rs [E [H T]]]]
  end.
  rewrite E. unfold bind, ret, _generate_summary_report, raise.
  cbn [velocities results output_dir].
  destruct V as [|v0 V0].
  { cbn [Py.min mbind result_bind].
    unfold mbind, result_bind, write_file, on_files, bind. cbv beta iota.
    match goal with
    | |- context [FS.write is_directory ?p ?c ?fs] =>
        destruct (FS.write is_directory p c fs); discriminate
    end. }
  destruct (min_spec (v0 :: V0)) as [lo [Elo Hlo]]; [discriminate|].
  destruct (max_spec (v0 :: V0)) as [hi [Ehi Hhi]]; [discriminate|].
  rewrite Elo, Ehi.
  unfold mbind, result_bind, write_file, on_files. cbv beta iota.
  match goal with
  | |- context [FS.write is_directory ?p ?c ?fs] =>
      destruct (FS.write is_directory p c fs) as [fs2|e2] eqn:Er;
        [apply write_ok in Er; subst fs2|discriminate]
  end.
  intros [= <- <-]. exists lo, hi. split; [exact Hlo|].
  split; [exact Hhi|]. cbn [files output_dir results].
  split; [unfold report_path; rewrite lookup_insert_eq; reflexivity|].
  intros v Hv.
  destruct (sweep_records_covers _ _ Hsweep v Hv) as [r [Hr Ev]].
  exists r. split; [exact Hr|]. split; [exact Ev|].
  now apply in_map.
Qed.

End SummaryReport.

Section SummaryReportWitnesses.
Import Spall SpallSpec SpallMore.


Lemma run_analysis_report_witness :
  match run_analysis env_mesh_error system0 [100; 150] (Some "out") None
                     world_empty with
  | (Ok res, w') =>
      exists lo hi,
        is_minimum lo [100; 150] /\ is_maximum hi [100; 150] /\
        files w' !! report_path (output_dir res)
        = Some (ReportFile (report_head env_mesh_error [100; 150] lo hi
                              ++ map report_line (results res))) /\
        forall v, In v [100; 150] ->
          exists r, In r (results res) /\ velocity r = v /\
                    In (report_line r) (map report_line (results res))
  | (Raise _, _) => False
  end.
Proof.
  destruct (run_analysis env_mesh_error system0 [100; 150] (Some "out") None
                         world_empty) as [[res|e] w'] eqn:Erun.
  - exact (run_analysis_report env_mesh_error system0 _ _ _ _ _ _ Erun).
  - vm_compute in Erun. discriminate.
Defined.

End SummaryReportWitnesses.

(** ** Analysis parameters *)

Section Parameters.
Import Spall SpallSpec SpallMore.

Lemma sget_app {V} (k : string) (l1 l2 : list (string * V)) :
  sget k (l1 ++ l2)
  = match sget k l1 with Some v => Some v | None => sget k l2 end.
Proof.
  unfold sget. induction l1 as [|[k0 v0] l1 IH]; simpl; [reflexivity|].
  destruct (String.eqb k0 k); [reflexivity|exact IH].
Qed.

Lemma update_lookup (d other : Params) (k : string) :
  sget k (update d other)
  = match last_update k other with
    | Some v => Some v
    | None => sget k d
    end.
Proof.
  unfold update, last_update. revert d.
  induction other as [|[k1 v1] other IH]; intros d; simpl; [reflexivity|].
  rewrite IH, sget_app, sget_sset, sget_cons.
  destruct (sget k (rev other)); [reflexivity|].
  destruct (String.eqb k1 k); reflexivity.
Qed.

Lemma sset_keys {V} (k : string) (v : V) (d : list (string * V)) :
  exists extra, dict_keys (sset k v d) = dict_keys d ++ extra.
Proof.
  unfold sset. induction d as [|[k0 v0] d [extra IH]]; simpl.
  - now exists [k].
  - destruct (String.eqb k0 k); simpl.
    + exists []. now rewrite app_nil_r.
    + exists extra. now rewrite IH.
Qed.

Lemma update_keys (d other : Params) :
  exists extra, dict_keys (update d other) = dict_keys d ++ extra.
Proof.
  unfold update. revert d.
  induction other as [|[k1 v1] other IH]; intros d; simpl.
  - exists []. now rewrite app_nil_r.
  - destruct (IH (sset k1 v1 d)) as [e1 E1].
    destruct (sset_keys k1 v1 d) as [e2 E2].
    exists (e2 ++ e1). rewrite E1, E2. now rewrite app_assoc.
Qed.

Context {Session : Type} (env : @Environment Session)
        (self : SpallFractureSystem).

Lemma run_analysis_params_eq (V : list Q) (out : option string)
    (params : option Params) (w w' : World) (res : SpallFractureResults) :
  run_analysis env self V out params w = (Ok res, w') ->
  analysis_params res
  = match params with
    | Some p => update default_params p
    | None => default_params
    end.
Proof.
  unfold run_analysis. destruct (ABAQUS_AVAILABLE env); [|discriminate].
  cbn [negb]. unfold bind at 1. cbv beta.
  match goal with
  | |- context [makedirs ?d w] =>
      destruct (makedirs d w) as [[[]|e] w1]; [|discriminate]
  end.
  match goal with
  | |- context [for_loop (iteration env self ?p ?o) V ?l0] =>
      destruct (for_loop (iteration env self p o) V l0) as [[[]|e] l']
  end; [|discriminate].
  unfold bind, ret.
  match goal with
  | |- context [_generate_summary_report env ?r ?x] =>
      destruct (_generate_summary_report env r x) as [[[]|e] w2]
  end; [|discriminate].
  intros [= <- <-]. cbn [analysis_params].
  destruct params as [[|kv p]|]; reflexivity.
Qed.

(** X12. The parameters stored in the results of a sweep are the
    defaults with the caller's values merged over them key by key: a key
    the caller gave holds the caller's (last) value, any other key holds
    its default, and the five default keys come first, in their order. *)
Lemma run_analysis_params (V : list Q) (out : option string)
    (p : Params) (w w' : World) (res : SpallFractureResults) :
  run_analysis env self V out (Some p) w = (Ok res, w') ->
  (forall k, sget k (analysis_params res)
             = match last_update k p with
               | Some v => Some v
               | None => sget k default_params
               end) /\
  exists extra,
    dict_keys (analysis_params res)
    = ["time_period"; "element_size"; "contact_friction";
       "symmetry_planes"; "output_frequency"] ++ extra.
Proof.
  intros H. rewrite (run_analysis_params_eq V out (Some p) w w' res H).
  split.
  - intros k. apply update_lookup.
  - apply (update_keys default_params p).
Qed.

End Parameters.

Section ParametersWitness.
Import Spall SpallSpec SpallMore.

Lemma run_analysis_params_witness :
  match run_analysis env_ok system0 [100] (Some "out")
          (Some [("element_size", PNum (1 # 1000)); ("mass_scaling", PNum 4)])
          world_empty with
  | (Ok res, _) =>
      (forall k, sget k (analysis_params res)
                 = match last_update k [("element_size", PNum (1 # 1000));
                                        ("mass_scaling", PNum 4)] with
                   | Some v => Some v
                   | None => sget k default_params
                   end) /\
      exists extra,
        dict_keys (analysis_params res)
        = ["time_period"; "element_size"; "contact_friction";
           "symmetry_planes"; "output_frequency"] ++ extra
  | (Raise _, _) => False
  end.
Proof.
  destruct (run_analysis env_ok system0 [100] (Some "out")
              (Some [("element_size", PNum (1 # 1000));
                     ("mass_scaling", PNum 4)]) world_empty)
    as [[res|e] w'] eqn:Erun.
  - exact (run_analysis_params env_ok system0 _ _ _ _ _ _ Erun).
  - vm_compute in Erun. discriminate.
Defined.

End ParametersWitness.

(** ** History extraction *)

Section History.
Import PostProc PostProcSpec PostProcMore.

Lemma history_series_total (data : list HistoryPoint) :
  exists h,
    history_series data = Ok h /\
    series_times h = map hp_time data /\
    series_values h = map hp_data data.
Proof.
  destruct (history_series_field_sample data)
    as [s [h [_ [E [Ht [Hv _]]]]]].
  now exists h.
Qed.

Lemma extract_history_returns step item acc :
  exists acc', extract_history step item acc = Ok acc'.
Proof.
  destruct item as [history_name output_name]. unfold extract_history.
  destruct (sget history_name (historyRegions step)) as [region|]; [|eauto].
  destruct (sget output_name (historyOutputs region)) as [ho|]; [|eauto].
  destruct (history_series_total (ho_data ho)) as [h [E _]].
  rewrite E. simpl. eauto.
Qed.

Lemma step_history_returns step cfg :
  exists channels, for_each (extract_history step) cfg [] = Ok channels.
Proof.
  apply for_each_returns. intros item acc _. apply extract_history_returns.
Qed.

(** Where the channels of one step come from. *)
Lemma step_history_spec step cfg channels :
  for_each (extract_history step) cfg [] = Ok channels ->
  forall name h, sget name channels = Some h ->
    exists output_name region ho,
      In (name, output_name) cfg /\
      sget name (historyRegions step) = Some region /\
      sget output_name (historyOutputs region) = Some ho /\
      history_series (ho_data ho) = Ok h.
Proof.
  intros H.
  apply (for_each_invariant (extract_history step)
           (fun done acc => forall name h, sget name acc = Some h ->
              exists output_name region ho,
                In (name, output_name) done /\
                sget name (historyRegions step) = Some region /\
                sget output_name (historyOutputs region) = Some ho /\
                history_series (ho_data ho) = Ok h)
           cfg) with (done := []) (acc := []); [|discriminate|exact H].
  intros done [hname oname] acc acc' IH Hx name h Hn.
  assert (Hold : sget name acc = Some h ->
                 exists output_name region ho,
                   In (name, output_name) (done ++ [(hname, oname)]) /\
                   sget name (historyRegions step) = Some region /\
                   sget output_name (historyOutputs region) = Some ho /\
                   history_series (ho_data ho) = Ok h).
  { intros Hacc. destruct (IH name h Hacc) as [o [r [ho [H1 H2]]]].
    exists o, r, ho. split; [apply in_or_app; now left|exact H2]. }
  unfold extract_history in Hx.
  destruct (sget hname (historyRegions step)) as [region|] eqn:Hr;
    [|injection Hx as <-; now apply Hold].
  destruct (sget oname (historyOutputs region)) as [ho|] eqn:Ho;
    [|injection Hx as <-; now apply Hold].
  destruct (history_series (ho_data ho)) as [series|e] eqn:Es;
    [|discriminate].
  simpl in Hx. injection Hx as <-. rewrite sget_sset in Hn.
  destruct (String.eqb hname name) eqn:En; [|now apply Hold].
  apply String.eqb_eq in En. subst hname. injection Hn as <-.
  exists oname, region, ho. split; [apply in_or_app; right; now left|].
  now repeat split.
Qed.

(** The body of the loop over the steps. *)
Lemma history_data_steps self odb hd :
  _extract_history_data self odb = Ok hd ->
  (forall step_name channels, sget step_name hd = Some channels ->
     exists step,
       sget step_name (steps odb) = Some step /\
       for_each (extract_history step)
                (requested_histories (config self)) []
       = Ok channels) /\
  (forall step_name, In step_name (dict_keys (steps odb)) ->
     exists channels, sget step_name hd = Some channels).
Proof.
  intros H. unfold _extract_history_data in H.
  apply (for_each_invariant _
           (fun done acc =>
              (forall step_name channels, sget step_name acc = Some channels ->
                 exists step,
                   sget step_name (steps odb) = Some step /\
                   for_each (extract_history step)
                            (requested_histories (config self)) []
                   = Ok channels) /\
              (forall step_name, In step_name done ->
                 exists channels, sget step_name acc = Some channels))
           (dict_keys (steps odb))) with (done := []) (acc := []) in H.
  - exact H.
  - intros done x acc acc' [IH1 IH2] Hx.
    destruct (subscript (steps odb) x) as [step|e] eqn:Es; [|discriminate].
    simpl in Hx.
    destruct (history_outputs (config self)) as [requested|] eqn:Hreq;
      [|discriminate].
    assert (Er : requested_histories (config self) = requested).
    { unfold requested_histories. now rewrite Hreq. }
    simpl in Hx.
    destruct (for_each (extract_history step) requested [])
      as [channels|e] eqn:Ec; [|discriminate].
    simpl in Hx. injection Hx as <-.
    unfold subscript in Es.
    destruct (sget x (steps odb)) as [step'|] eqn:Ex; [|discriminate].
    injection Es as ->. split.
    + intros step_name chs Hs. rewrite sget_sset in Hs.
      destruct (String.eqb x step_name) eqn:En.
      * apply String.eqb_eq in En. subst x. injection Hs as <-.
        exists step. now rewrite Er.
      * now apply IH1.
    + intros step_name Hin. rewrite sget_sset.
      destruct (String.eqb x step_name) eqn:En; [eauto|].
      apply in_app_or in Hin. destruct Hin as [Hin|[->|[]]].
      * now apply IH2.
      * rewrite String.eqb_refl in En. discriminate.
  - split; [discriminate|intros ? []].
Qed.

Lemma history_extraction_with_key self odb requested :
  history_outputs (config self) = Some requested ->
  exists hd, _extract_history_data self odb = Ok hd.
Proof.
  intros Hcfg. unfold _extract_history_data. apply for_each_returns.
  intros step_name acc Hin.
  destruct (keys_sget step_name (steps odb) Hin) as [step Hstep].
  unfold subscript. rewrite Hstep, Hcfg. simpl.
  destruct (step_history_returns step requested) as [channels E].
  rewrite E. simpl. eauto.
Qed.

(** X13. History extraction returns exactly when the configuration holds
    the key [history_outputs] or the database has no step. With the key
    it never raises, whatever the database and the requested channels,
    and its result has an entry for every step of the database (an empty
    one when no requested channel is found); without the key it returns
    the empty dictionary on a database without steps and raises the
    [KeyError] of the key at the first step otherwise. *)
Lemma history_extraction_returns (self : PostProcessingSystem) (odb : Odb) :
  ((exists hd, _extract_history_data self odb = Ok hd) <->
   (history_outputs (config self) <> None \/ steps odb = [])) /\
  (history_outputs (config self) <> None ->
   exists hd,
     _extract_history_data self odb = Ok hd /\
     forall step_name step, sget step_name (steps odb) = Some step ->
       exists channels, sget step_name hd = Some channels) /\
  (history_outputs (config self) = None ->
   (steps odb = [] -> _extract_history_data self odb = Ok []) /\
   (steps odb <> [] ->
    _extract_history_data self odb = Raise (KeyError "history_outputs"))).
Proof.
  assert (Hnone : history_outputs (config self) = None ->
            (steps odb = [] -> _extract_history_data self odb = Ok []) /\
            (steps odb <> [] ->
             _extract_history_data self odb
             = Raise (KeyError "history_outputs"))).
  { intros Hcfg. unfold _extract_history_data.
    destruct (steps odb) as [|[k step] t] eqn:Es.
    - split; [reflexivity|congruence].
    - split; [discriminate|]. intros _. simpl.
      unfold subscript. rewrite sget_cons, String.eqb_refl. simpl.
      now rewrite Hcfg. }
  assert (Hsome : history_outputs (config self) <> None ->
            exists hd,
              _extract_history_data self odb = Ok hd /\
              forall step_name step, sget step_name (steps odb) = Some step ->
                exists channels, sget step_name hd = Some channels).
  { intros Hcfg.
    destruct (history_outputs (config self)) as [requested|] eqn:Hreq;
      [|congruence].
    destruct (history_extraction_with_key self odb requested Hreq)
      as [hd E].
    exists hd. split; [exact E|].
    intros step_name step Hs.
    apply (proj2 (history_data_steps self odb hd E)).
    eapply sget_keys; exact Hs. }
  split; [|split; assumption].
  split.
  - intros [hd E].
    destruct (history_outputs (config self)) as [requested|] eqn:Hreq;
      [left; discriminate|].
    right. destruct (steps odb) as [|x t] eqn:Es; [reflexivity|].
    exfalso. destruct (Hnone eq_refl) as [_ Hr].
    rewrite Hr in E; discriminate.
  - intros [Hcfg|Hs].
    + destruct (Hsome Hcfg) as [hd [E _]]. now exists hd.
    + destruct (history_outputs (config self)) as [requested|] eqn:Hreq.
      * destruct (Hsome ltac:(discriminate)) as [hd [E _]]. now exists hd.
      * exists []. now apply (proj1 (Hnone eq_refl)).
Qed.

(** X14. Every series of the history data belongs to a requested channel
    whose region the step holds under the channel name and whose output
    the region holds under the configured identifier; its times and
    values are those of the output's points, index for index and in the
    order of the points, and of an output without points the series is
    empty with [max = min = mean = 0]. *)
Lemma history_series_from_raw (self : PostProcessingSystem) (odb : Odb)
    (hd : HistoryData) (step_name name : string)
    (channels : list (string * HistorySeries)) (h : HistorySeries) :
  _extract_history_data self odb = Ok hd ->
  sget step_name hd = Some channels ->
  sget name channels = Some h ->
  exists step output_name region ho,
    sget step_name (steps odb) = Some step /\
    In (name, output_name) (requested_histories (config self)) /\
    sget name (historyRegions step) = Some region /\
    sget output_name (historyOutputs region) = Some ho /\
    series_times h = map hp_time (ho_data ho) /\
    series_values h = map hp_data (ho_data ho) /\
    length (series_times h) = length (series_values h) /\
    (ho_data ho = [] ->
     series_max h = 0 /\ series_min h = 0 /\ series_mean h = Py.Lit 0).
Proof.
  intros E Hs Hn.
  destruct (proj1 (history_data_steps self odb hd E) step_name channels Hs)
    as [step [Hstep Hc]].
  destruct (step_history_spec step _ channels Hc name h Hn)
    as [oname [region [ho [Hin [Hr [Ho Hh]]]]]].
  destruct (history_series_total (ho_data ho)) as [h' [Eh' [Ht Hv]]].
  assert (h' = h) by congruence. subst h'.
  exists step, oname, region, ho. repeat split; try assumption.
  - now rewrite Ht, Hv, !length_map.
  - destruct (ho_data ho); [|discriminate]. now injection Hh as <-.
  - destruct (ho_data ho); [|discriminate]. now injection Hh as <-.
  - destruct (ho_data ho); [|discriminate]. now injection Hh as <-.
Qed.

Lemma history_extraction_returns_witness :
  (exists hd channels,
     _extract_history_data system0 odb_sample = Ok hd /\
     sget "Step-1" hd = Some channels) /\
  _extract_history_data system_no_keys odb_sample
  = Raise (KeyError "history_outputs").
Proof.
  destruct (history_extraction_returns system0 odb_sample)
    as [_ [Hsome _]].
  destruct (history_extraction_returns system_no_keys odb_sample)
    as [_ [_ Hnone]].
  split.
  - destruct Hsome as [hd [E H]]; [discriminate|].
    destruct (H "Step-1" _ eq_refl) as [channels Hc].
    now exists hd, channels.
  - apply (Hnone eq_refl). discriminate.
Defined.

Lemma history_series_from_raw_witness :
  exists hd channels h step output_name region ho,
    _extract_history_data system0 odb_sample = Ok hd /\
    sget "Step-1" hd = Some channels /\
    sget "kinetic_energy" channels = Some h /\
    sget "Step-1" (steps odb_sample) = Some step /\
    In ("kinetic_energy", output_name)
       (requested_histories (config system0)) /\
    sget "kinetic_energy" (historyRegions step) = Some region /\
    sget output_name (historyOutputs region) = Some ho /\
    series_times h = map hp_time (ho_data ho) /\
    series_values h = map hp_data (ho_data ho).
Proof.
  do 3 eexists.
  destruct (history_series_from_raw system0 odb_sample _ "Step-1"
              "kinetic_energy" _ _ eq_refl eq_refl eq_refl)
    as [step [o [r [ho [H1 [H2 [H3 [H4 [H5 [H6 _]]]]]]]]]].
  exists step, o, r, ho. repeat split; assumption.
Defined.

End History.

(** ** Steps and frames of the field data *)

Section DictMore.
Context {K V : Type} (eqb : K -> K -> bool).

Lemma dict_set_values (k : K) (v : V) (d : list (K * V)) (x : V) :
  In x (dict_values (dict_set eqb k v d)) -> x = v \/ In x (dict_values d).
Proof.
  unfold dict_values. induction d as [|[k0 v0] d IH]; simpl.
  - intros [<-|[]]. now left.
  - destruct (eqb k0 k); simpl.
    + intros [<-|H]; [now left|right; now right].
    + intros [<-|H]; [right; now left|].
      destruct (IH H) as [->|H']; [now left|right; now right].
Qed.

Lemma dict_set_length (k : K) (v : V) (d : list (K * V)) :
  (length (dict_set eqb k v d) <= S (length d))%nat.
Proof.
  induction d as [|[k0 v0] d IH]; simpl; [lia|].
  destruct (eqb k0 k); simpl; lia.
Qed.

Lemma dict_set_fresh (k : K) (v : V) (d : list (K * V)) :
  (forall k0, In k0 (dict_keys d) -> eqb k0 k = false) ->
  dict_set eqb k v d = d ++ [(k, v)].
Proof.
  unfold dict_keys. induction d as [|[k0 v0] d IH]; simpl; [reflexivity|].
  intros H. rewrite (H k0) by now left. f_equal. apply IH.
  intros k1 H1. apply H. now right.
Qed.

End DictMore.

Section Timeline.
Import PostProc PostProcSpec PostProcMore.

Lemma Qeq_bool_trans_l (a b c : Q) :
  Qeq_bool a b = true -> Qeq_bool a c = Qeq_bool b c.
Proof.
  intros H. apply Qeq_bool_iff in H.
  destruct (Qeq_bool a c) eqn:E1, (Qeq_bool b c) eqn:E2; try reflexivity.
  - apply Qeq_bool_iff in E1. apply Qeq_bool_neq in E2.
    exfalso. apply E2. rewrite <- H. exact E1.
  - apply Qeq_bool_iff in E2. apply Qeq_bool_neq in E1.
    exfalso. apply E1. rewrite H. exact E2.
Qed.

Lemma dict_get_set_Q {V} (k k' : Q) (v : V) (d : list (Q * V)) :
  dict_get Qeq_bool k (dict_set Qeq_bool k' v d)
  = if Qeq_bool k' k then Some v else dict_get Qeq_bool k d.
Proof.
  induction d as [|[k0 v0] d IH]; simpl; [reflexivity|].
  destruct (Qeq_bool k0 k') eqn:E0; simpl.
  - rewrite (Qeq_bool_trans_l k0 k' k E0).
    destruct (Qeq_bool k' k); reflexivity.
  - rewrite IH. destruct (Qeq_bool k0 k) eqn:E1; [|reflexivity].
    destruct (Qeq_bool k' k) eqn:E2; [|reflexivity].
    apply Qeq_bool_iff in E1, E2. apply Qeq_bool_neq in E0.
    exfalso. apply E0. rewrite E1, E2. reflexivity.
Qed.

Lemma extract_frame_time cfg frame frame_data :
  extract_frame cfg frame = Ok frame_data ->
  sget "time" frame_data = Some (TimeValue (frameValue frame)).
Proof.
  destruct (field_outputs cfg) as [requested|] eqn:Hreq;
    [|rewrite (extract_frame_no_key cfg frame Hreq); discriminate].
  rewrite (extract_frame_requested cfg frame requested Hreq).
  destruct (for_each (extract_field frame) requested [])
    as [fd|e]; [|discriminate].
  simpl. intros [= <-]. rewrite sget_sset. reflexivity.
Qed.

(** Where the snapshots of one step come from. *)
Lemma extract_step_spec cfg step step_data :
  extract_step cfg step = Ok step_data ->
  (forall t frame_data, dict_get Qeq_bool t step_data = Some frame_data ->
     exists frame,
       last_frame_at t frame (frames step) /\
       extract_frame cfg frame = Ok frame_data) /\
  (length step_data <= length (frames step))%nat.
Proof.
  intros H. unfold extract_step in H.
  apply (for_each_invariant (frame_body cfg)
           (fun done acc =>
              (forall t frame_data, dict_get Qeq_bool t acc = Some frame_data ->
                 exists frame,
                   last_frame_at t frame done /\
                   extract_frame cfg frame = Ok frame_data) /\
              (length acc <= length done)%nat)
           (frames step)) with (done := []) (acc := []) in H.
  - exact H.
  - intros done x acc acc' [IH1 IH2] Hx. unfold frame_body in Hx.
    destruct (extract_frame cfg x) as [fdx|e] eqn:Ex; [|discriminate].
    simpl in Hx. injection Hx as <-. split.
    + intros t fd Hget. rewrite dict_get_set_Q in Hget.
      destruct (Qeq_bool (frameValue x) t) eqn:Et.
      * injection Hget as <-. exists x. split; [|exact Ex].
        exists done, []. split; [reflexivity|].
        split; [now apply Qeq_bool_iff|intros f []].
      * destruct (IH1 t fd Hget) as [frame [[b [a [Hd [Ht Ha]]]] Hf]].
        exists frame. split; [|exact Hf].
        exists b, (a ++ [x]). split; [|split; [exact Ht|]].
        -- rewrite Hd, <- app_assoc. reflexivity.
        -- intros f Hin. apply in_app_or in Hin.
           destruct Hin as [Hin|[<-|[]]]; [now apply Ha|].
           now apply Qeq_bool_neq.
    + pose proof (dict_set_length Qeq_bool (frameValue x) fdx acc).
      rewrite length_app. simpl. lia.
  - split; [discriminate|simpl; lia].
Qed.

(** The body of the loop over the steps. *)
Lemma field_data_steps self odb fd :
  _extract_field_data self odb = Ok fd ->
  (forall step_name step_data, sget step_name fd = Some step_data ->
     exists step,
       sget step_name (steps odb) = Some step /\
       extract_step (config self) step = Ok step_data) /\
  (forall step_data, In step_data (dict_values fd) ->
     exists step_name step,
       sget step_name (steps odb) = Some step /\
       extract_step (config self) step = Ok step_data).
Proof.
  intros H. unfold _extract_field_data in H.
  apply (for_each_invariant _
           (fun (done : list string) acc =>
              (forall step_name step_data,
                 sget step_name acc = Some step_data ->
                 exists step,
                   sget step_name (steps odb) = Some step /\
                   extract_step (config self) step = Ok step_data) /\
              (forall step_data, In step_data (dict_values acc) ->
                 exists step_name step,
                   sget step_name (steps odb) = Some step /\
                   extract_step (config self) step = Ok step_data))
           (dict_keys (steps odb))) with (done := []) (acc := []) in H.
  - exact H.
  - intros done x acc acc' [IH1 IH2] Hx.
    unfold subscript in Hx.
    destruct (sget x (steps odb)) as [step|] eqn:Es; [|discriminate].
    simpl in Hx.
    destruct (extract_step (config self) step) as [sd|e] eqn:Esd;
      [|discriminate].
    simpl in Hx. injection Hx as <-. split.
    + intros step_name sd' Hs. rewrite sget_sset in Hs.
      destruct (String.eqb x step_name) eqn:En; [|now apply IH1].
      apply String.eqb_eq in En. subst x. injection Hs as <-.
      now exists step.
    + intros sd' Hin. apply dict_set_values in Hin.
      destruct Hin as [->|Hin]; [now exists x, step|now apply IH2].
  - split; [discriminate|intros ? []].
Qed.

(** X15. The timeline of a step is keyed by frame time: the snapshot it
    holds for a time is that of the last frame of the step with that
    time, so of several frames with one frame time only the last is
    kept, and a timeline never has more snapshots than the step has
    frames. Each snapshot carries its frame time under ["time"]. *)
Lemma timeline_keeps_last_frame (self : PostProcessingSystem) (odb : Odb)
    (fd : FieldData) (step_name : string) (step_data : StepData) (t : Q)
    (frame_data : FrameData) :
  _extract_field_data self odb = Ok fd ->
  sget step_name fd = Some step_data ->
  dict_get Qeq_bool t step_data = Some frame_data ->
  exists step frame,
    sget step_name (steps odb) = Some step /\
    last_frame_at t frame (frames step) /\
    extract_frame (config self) frame = Ok frame_data /\
    sget "time" frame_data = Some (TimeValue (frameValue frame)) /\
    (length step_data <= length (frames step))%nat.
Proof.
  intros E Hs Ht.
  destruct (proj1 (field_data_steps self odb fd E) step_name step_data Hs)
    as [step [Hstep Hsd]].
  destruct (extract_step_spec _ step step_data Hsd) as [H1 H2].
  destruct (H1 t frame_data Ht) as [frame [Hlast Hf]].
  exists step, frame. repeat split; try assumption.
  now apply (extract_frame_time (config self)).
Qed.

End Timeline.

(** ** Summary statistics of an extraction result *)

Section Summary.
Import PostProc PostProcSpec PostProcMore.

Lemma extract_field_no_time frame item acc frame_data :
  extract_field frame item acc = Ok frame_data ->
  (forall k t, sget k acc <> Some (TimeValue t)) ->
  forall k t, sget k frame_data <> Some (TimeValue t).
Proof.
  destruct item as [field_type components]. unfold extract_field.
  destruct (sget field_type (fieldOutputs frame)) as [fo|].
  - destruct (for_each (extract_component fo) components []) as [comps|e];
      [|discriminate].
    simpl. intros [= <-] Hacc k t. rewrite sget_sset.
    destruct (String.eqb field_type k); [discriminate|apply Hacc].
  - intros [= <-] Hacc. exact Hacc.
Qed.

Lemma extract_frame_ok cfg frame frame_data :
  extract_frame cfg frame = Ok frame_data -> frame_data_ok frame_data.
Proof.
  destruct (field_outputs cfg) as [requested|] eqn:Hreq;
    [|rewrite (extract_frame_no_key cfg frame Hreq); discriminate].
  rewrite (extract_frame_requested cfg frame requested Hreq).
  destruct (for_each (extract_field frame) requested [])
    as [fd|e] eqn:E; [|discriminate].
  simpl. intros [= <-].
  assert (Hinv : forall k t, sget k fd <> Some (TimeValue t)).
  { refine (for_each_invariant (extract_field frame)
              (fun _ acc => forall k t, sget k acc <> Some (TimeValue t))
              requested _ [] [] fd _ E).
    - intros done x acc acc' IH Hx.
      eapply extract_field_no_time; eassumption.
    - discriminate. }
  intros k t. rewrite sget_sset.
  destruct (String.eqb "time" k) eqn:Ek.
  - intros _. apply String.eqb_eq in Ek. now subst k.
  - intros H. now apply Hinv in H.
Qed.

Lemma extract_step_ok cfg step step_data :
  extract_step cfg step = Ok step_data ->
  forall frame_data, In frame_data (dict_values step_data) ->
                     frame_data_ok frame_data.
Proof.
  intros H. unfold extract_step in H.
  refine (for_each_invariant (frame_body cfg)
            (fun _ acc => forall frame_data,
                 In frame_data (dict_values acc) -> frame_data_ok frame_data)
            (frames step) _ [] [] step_data _ H).
  - intros done x acc acc' IH Hx. unfold frame_body in Hx.
    destruct (extract_frame cfg x) as [fdx|e] eqn:Ex; [|discriminate].
    simpl in Hx. injection Hx as <-. intros fd Hin.
    apply dict_set_values in Hin. destruct Hin as [->|Hin].
    + eapply extract_frame_ok; eassumption.
    + now apply IH.
  - intros fd [].
Qed.

Lemma max_over_returns key (fd : FieldData) :
  key <> "time" ->
  (forall step_data, In step_data (dict_values fd) ->
   forall frame_data, In frame_data (dict_values step_data) ->
                      frame_data_ok frame_data) ->
  exists m, max_over key fd = Ok m.
Proof.
  intros Hkey Hok. unfold max_over.
  apply for_each_returns. intros sd acc Hsd.
  apply for_each_returns. intros f acc' Hf.
  unfold max_over_frame. destruct f as [|entry rest]; [now eexists|].
  destruct (sget key (entry :: rest)) as [[comps|t]|] eqn:E;
    try now eexists.
  exfalso. apply Hkey. exact (Hok sd Hsd _ Hf key t E).
Qed.

(** X16. The summary statistics can always be computed from the field
    data an extraction returned: no snapshot holds a number where the
    aggregator expects components. Both maxima are at least [0], and each
    is [0] or one of the maxima stored under its field type, none of
    which exceeds it; the processing time is passed through. *)
Lemma summary_of_extraction (self : PostProcessingSystem) (odb : Odb)
    (fd : FieldData) (hd : HistoryData) (file out : string) (time : Q) :
  _extract_field_data self odb = Ok fd ->
  exists st,
    get_summary_statistics (results_with fd hd file out time) = Ok st /\
    scanned 0 (field_maxima "stress" fd) (PostProc.max_stress st) /\
    scanned 0 (field_maxima "strain" fd) (max_strain st) /\
    num_steps st = Py.len fd /\
    stats_processing_time st = time.
Proof.
  intros E.
  assert (Hok : forall step_data, In step_data (dict_values fd) ->
                forall frame_data, In frame_data (dict_values step_data) ->
                                   frame_data_ok frame_data).
  { intros sd Hsd f Hf.
    destruct (proj2 (field_data_steps self odb fd E) sd Hsd)
      as [name [step [_ Hstep]]].
    eapply extract_step_ok; eassumption. }
  destruct (max_over_returns "stress" fd) as [m1 E1];
    [discriminate|exact Hok|].
  destruct (max_over_returns "strain" fd) as [m2 E2];
    [discriminate|exact Hok|].
  unfold get_summary_statistics, get_max_stress, get_max_strain, results_with.
  cbn [field_data processing_time]. rewrite E1, E2.
  eexists. split; [reflexivity|]. cbn.
  split; [now apply max_over_steps_scanned in E1|].
  split; [now apply max_over_steps_scanned in E2|].
  split; reflexivity.
Qed.

Lemma summary_of_extraction_witness :
  exists st,
    get_summary_statistics
      (results_with
         [("Step-1",
           [(0, [("stress",
                  Components [("S11", {| sample_values := [0; 0];
                                         sample_max := 0; sample_min := 0;
                                         sample_mean := Py.np_mean [0; 0] |})]);
                 ("time", TimeValue 0)]);
            (1 # 1000,
             [("stress",
               Components [("S11", {| sample_values := [452 # 10; 894 # 10];
                                      sample_max := 894 # 10;
                                      sample_min := 452 # 10;
                                      sample_mean :=
                                        Py.np_mean
                                          [452 # 10; 894 # 10] |})]);
              ("time", TimeValue (1 # 1000))])])]
         [] "job.odb" "out" 2) = Ok st /\
    stats_processing_time st = 2.
Proof.
  destruct (summary_of_extraction system0 odb_sample _ [] "job.odb" "out" 2
              eq_refl) as [st [H [_ [_ [_ Ht]]]]].
  exists st. split; [exact H|exact Ht].
Defined.

End Summary.

(** ** Frame counts *)

Section FrameCounts.
Import PostProc PostProcSpec PostProcMore.

Lemma sget_in_nodup {V} (d : list (string * V)) (k : string) (v : V) :
  List.NoDup (dict_keys d) -> In (k, v) d -> sget k d = Some v.
Proof.
  unfold dict_keys. induction d as [|[k0 v0] d IH]; [intros _ []|].
  intros Hnd Hin. cbn [map fst] in Hnd.
  apply List.NoDup_cons_iff in Hnd. destruct Hnd as [Hk0 Hnd].
  rewrite sget_cons. destruct Hin as [[= -> ->]|Hin].
  - now rewrite String.eqb_refl.
  - destruct (String.eqb k0 k) eqn:E; [|now apply IH].
    apply String.eqb_eq in E. subst k0. exfalso. apply Hk0.
    apply in_map_iff. now exists (k, v).
Qed.

Lemma sget_in {V} (d : list (string * V)) (k : string) (v : V) :
  sget k d = Some v -> In (k, v) d.
Proof.
  induction d as [|[k0 v0] d IH]; [discriminate|].
  rewrite sget_cons. destruct (String.eqb k0 k) eqn:E.
  - intros [= ->]. apply String.eqb_eq in E. subst. now left.
  - intros H. right. now apply IH.
Qed.

Lemma distinct_times_snoc (l : list Q) (x : Q) :
  distinct_times (l ++ [x]) ->
  distinct_times l /\ forall u, In u l -> ~ u == x.
Proof.
  induction l as [|t l IH]; simpl.
  - intros _. split; [exact I|intros u []].
  - intros [Ht Hl]. destruct (IH Hl) as [Hd Hx]. split.
    + split; [|exact Hd]. intros u Hu. apply Ht. apply in_or_app. now left.
    + intros u [<-|Hu]; [|now apply Hx].
      apply Ht. apply in_or_app. right. now left.
Qed.

(** With distinct frame times a timeline has one snapshot per frame, in
    the order of the frames. *)
Lemma extract_step_keys cfg step step_data :
  distinct_times (map frameValue (frames step)) ->
  extract_step cfg step = Ok step_data ->
  dict_keys step_data = map frameValue (frames step).
Proof.
  intros Hd H. unfold extract_step in H.
  refine (for_each_invariant (frame_body cfg)
            (fun done acc => distinct_times (map frameValue done) ->
                             dict_keys acc = map frameValue done)
            (frames step) _ [] [] step_data _ H Hd).
  - intros done x acc acc' IH Hx Hdx. unfold frame_body in Hx.
    destruct (extract_frame cfg x) as [fdx|e]; [|discriminate].
    simpl in Hx. injection Hx as <-.
    rewrite map_app in Hdx. simpl in Hdx.
    apply distinct_times_snoc in Hdx. destruct Hdx as [Hdone Hfresh].
    specialize (IH Hdone). rewrite dict_set_fresh.
    + unfold dict_keys in *. rewrite !map_app, IH. reflexivity.
    + intros k0 Hk0. rewrite IH in Hk0.
      destruct (Qeq_bool k0 (frameValue x)) eqn:E; [|reflexivity].
      apply Qeq_bool_iff in E. now apply Hfresh in E.
  - reflexivity.
Qed.

(** The loop over the steps of a database whose step names are distinct
    adds one entry per step, in order. *)
Lemma steps_loop cfg (d : list (string * Step)) (entries : list (string * Step)) :
  (forall k v, In (k, v) entries -> sget k d = Some v) ->
  List.NoDup (map fst entries) ->
  forall acc r,
    (forall k, In k (map fst entries) -> ~ In k (dict_keys acc)) ->
    for_each (fun step_name field_data =>
                step ← subscript d step_name;
                step_data ← extract_step cfg step;
                Ok (sset step_name step_data field_data))
             (map fst entries) acc = Ok r ->
    exists l, r = acc ++ l /\
      Forall2 (fun e e' => fst e = fst e' /\
                           extract_step cfg (snd e) = Ok (snd e'))
              entries l.
Proof.
  induction entries as [|[k v] rest IH]; intros Hget Hnd acc r Hacc; simpl.
  - intros [= <-]. exists []. split; [now rewrite app_nil_r|constructor].
  - unfold subscript. rewrite (Hget k v) by now left. simpl.
    destruct (extract_step cfg v) as [w|e] eqn:Ew; [|discriminate].
    simpl. unfold sset. rewrite dict_set_fresh.
    + intros Hr. cbn [map fst] in Hnd. apply List.NoDup_cons_iff in Hnd.
      destruct Hnd as [Hk Hnd].
      destruct (IH (fun k' v' H => Hget k' v' (or_intror H)) Hnd
                  (acc ++ [(k, w)]) r) as [l [-> HF]].
      * intros k' Hk' Hin. unfold dict_keys in Hin.
        rewrite map_app in Hin. apply in_app_or in Hin.
        destruct Hin as [Hin|[<-|[]]].
        -- apply (Hacc k'); [now right|exact Hin].
        -- now apply Hk.
      * exact Hr.
      * exists ((k, w) :: l). split; [now rewrite <- app_assoc|].
        constructor; [split; [reflexivity|exact Ew]|exact HF].
    + intros k0 Hk0. destruct (String.eqb k0 k) eqn:E; [|reflexivity].
      apply String.eqb_eq in E. subst k0. exfalso.
      apply (Hacc k); [now left|exact Hk0].
Qed.

(** X17. For a database whose frame times are distinct within each step,
    extraction loses nothing: the field data has the steps of the
    database in their order, the timeline of each step has the frame
    times of its frames in their order, and the summary counts every
    step and every frame of the database. *)
Lemma summary_counts_frames (self : PostProcessingSystem) (odb : Odb)
    (fd : FieldData) (hd : HistoryData) (file out : string) (time : Q)
    (st : SummaryStatistics) :
  List.NoDup (dict_keys (steps odb)) ->
  (forall step_name step, In (step_name, step) (steps odb) ->
     distinct_times (map frameValue (frames step))) ->
  _extract_field_data self odb = Ok fd ->
  get_summary_statistics (results_with fd hd file out time) = Ok st ->
  dict_keys fd = dict_keys (steps odb) /\
  (forall step_name step step_data,
     sget step_name (steps odb) = Some step ->
     sget step_name fd = Some step_data ->
     dict_keys step_data = map frameValue (frames step)) /\
  num_steps st = Py.len (steps odb) /\
  total_frames st = frame_count odb.
Proof.
  intros Hnd Hdist E Hst.
  pose proof E as E'. unfold _extract_field_data, dict_keys in E'.
  destruct (steps_loop (config self) (steps odb) (steps odb)
              (fun k v H => sget_in_nodup _ k v Hnd H) Hnd [] fd
              (fun _ _ H => H) E') as [l [Hl HF]].
  simpl in Hl. subst l.
  assert (Hkeys : dict_keys fd = dict_keys (steps odb)).
  { unfold dict_keys. clear -HF.
    induction HF as [|e e' l l' [He _] _ IH]; simpl;
      [reflexivity|now rewrite He, IH]. }
  assert (Hlens : map (fun step_data : StepData => Py.len step_data)
                      (dict_values fd)
                  = map (fun step => Py.len (frames step))
                        (dict_values (steps odb))).
  { unfold dict_values.
    assert (Hd : forall e, In e (steps odb) ->
                 distinct_times (map frameValue (frames (snd e)))).
    { intros [k v] Hin. exact (Hdist k v Hin). }
    clear -HF Hd.
    induction HF as [|e e' l l' [_ He] _ IH]; simpl; [reflexivity|].
    rewrite IH by (intros e0 H0; apply Hd; now right). f_equal.
    apply extract_step_keys in He; [|apply Hd; now left].
    unfold Py.len. f_equal.
    rewrite <- (length_map fst e'.2). fold (dict_keys e'.2).
    unfold dict_keys in He. unfold dict_keys. rewrite He.
    now rewrite length_map. }
  split; [exact Hkeys|]. split; [|split].
  - intros step_name step step_data Hs Hf.
    destruct (proj1 (field_data_steps self odb fd E) step_name step_data Hf)
      as [step' [Hs' Hsd]].
    rewrite Hs in Hs'. injection Hs' as <-.
    apply (extract_step_keys (config self)); [|exact Hsd].
    apply (Hdist step_name). now apply sget_in.
  - unfold get_summary_statistics in Hst.
    destruct (get_max_stress _); [|discriminate].
    destruct (get_max_strain _); [|discriminate].
    simpl in Hst. injection Hst as <-. cbn [num_steps].
    unfold Py.len. f_equal.
    rewrite <- (length_map fst fd), <- (length_map fst (steps odb)).
    unfold dict_keys in Hkeys. now rewrite Hkeys.
  - unfold get_summary_statistics in Hst.
    destruct (get_max_stress _); [|discriminate].
    destruct (get_max_strain _); [|discriminate].
    unfold mbind, result_bind in Hst. injection Hst as <-.
    unfold frame_count. cbn [total_frames field_data results_with].
    f_equal. exact Hlens.
Qed.

End FrameCounts.

Section TimelineWitnesses.
Import PostProc PostProcSpec PostProcMore.

Lemma timeline_keeps_last_frame_witness :
  exists step frame,
    sget "Step-1" (steps odb_repeated_time) = Some step /\
    last_frame_at 0 frame (frames step) /\
    extract_frame (config system0) frame
    = Ok [("stress",
           Components [("S11", {| sample_values := [2]; sample_max := 2;
                                  sample_min := 2;
                                  sample_mean := Py.np_mean [2] |})]);
          ("time", TimeValue 0)].
Proof.
  destruct (timeline_keeps_last_frame system0 odb_repeated_time _ "Step-1"
              _ 0 _ eq_refl eq_refl eq_refl)
    as [step [frame [H1 [H2 [H3 _]]]]].
  exists step, frame. split; [exact H1|]. split; [exact H2|exact H3].
Defined.

Lemma summary_counts_frames_witness :
  exists st,
    num_steps st = Py.len (steps odb_sample) /\
    total_frames st = frame_count odb_sample.
Proof.
  assert (Hnd : List.NoDup (dict_keys (steps odb_sample))).
  { apply List.NoDup_cons; [intros []|apply List.NoDup_nil]. }
  assert (Hdist : forall step_name step,
             In (step_name, step) (steps odb_sample) ->
             distinct_times (map frameValue (frames step))).
  { intros step_name step [H|[]]. injection H as <- <-.
    split; [|split; [intros u []|exact I]].
    intros u [<-|[]] H. vm_compute in H. discriminate. }
  destruct (summary_counts_frames system0 odb_sample _ [] "job.odb" "out" 0 _
              Hnd Hdist eq_refl eq_refl) as [_ [_ H]].
  eexists. exact H.
Defined.

End TimelineWitnesses.

(** ** Processing of database files *)

Section ProcessingFacts.
Import PostProc PostProcSpec PostProcIO PostProcIOSpec.
Variable env : Environment.
Variable self : PostProcessingSystem.

Lemma makedirs_handles path w :
  open_odbs (snd (makedirs path w)) = open_odbs w.
Proof.
  unfold makedirs, on_fs.
  destruct (FS.makedirs Dir is_dir path (files w)); reflexivity.
Qed.

Lemma write_file_handles path content w :
  open_odbs (snd (write_file path content w)) = open_odbs w.
Proof.
  unfold write_file, on_fs.
  destruct (FS.write is_dir path content (files w)); reflexivity.
Qed.

Lemma on_files_handles call w :
  open_odbs (snd (on_files call w)) = open_odbs w.
Proof.
  unfold on_files. destruct (call (files w)) as [[e|] fs]; reflexivity.
Qed.

Lemma remove_first_head x l : remove_first x (x :: l) = l.
Proof. simpl. now rewrite String.eqb_refl. Qed.

(** The [try] block of [process_odb_file]. *)
Lemma process_block_spec file out w :
  match process_block env self file out w with
  | (Ok res, w') =>
      processed_from env self file out res /\ open_odbs w' = open_odbs w
  | (Raise e, w') =>
      match openOdb env file with
      | Ok _ => open_odbs w' = file :: open_odbs w
      | Raise e' => e = e' /\ w' = w
      end
  end.
Proof.
  unfold process_block, Spall.bind, open_odb.
  destruct (openOdb env file) as [odb|e0] eqn:Eo; [|now split].
  unfold lift.
  destruct (_extract_field_data self odb) as [fd|e1] eqn:Ef; [|reflexivity].
  destruct (_extract_history_data self odb) as [hd|e2] eqn:Eh; [|reflexivity].
  set (w0 := {| files := files w; open_odbs := file :: open_odbs w |}).
  set (res := {| odb_file := file; field_data := fd; history_data := hd;
                 results_output_dir := out; processing_time := 0 |}).
  unfold _save_results, _export_to_excel, _create_plots, Spall.bind.
  match goal with |- context [write_file ?p ?c ?x] =>
    pose proof (write_file_handles p c x) as H1;
    destruct (write_file p c x) as [[[]|e] w1] end;
    cbn [snd] in H1; [|now rewrite H1].
  match goal with |- context [on_files ?c ?x] =>
    pose proof (on_files_handles c x) as H2;
    destruct (on_files c x) as [[[]|e] w2] end;
    cbn [snd] in H2; [|now rewrite H2, H1].
  match goal with |- context [makedirs ?p ?x] =>
    pose proof (makedirs_handles p x) as H3;
    destruct (makedirs p x) as [[[]|e] w3] end;
    cbn [snd] in H3; [|now rewrite H3, H2, H1].
  match goal with |- context [on_files ?c ?x] =>
    pose proof (on_files_handles c x) as H4;
    destruct (on_files c x) as [[[]|e] w4] end;
    cbn [snd] in H4; [|now rewrite H4, H3, H2, H1].
  unfold close_odb, Spall.ret. cbn [open_odbs].
  rewrite H4, H3, H2, H1. subst w0. cbn [open_odbs].
  rewrite remove_first_head. split; [|reflexivity].
  unfold processed_from. subst res. cbn.
  repeat split. exists odb. now repeat split.
Qed.

(** What [process_odb_file] returns or leaves behind. *)
Lemma process_odb_file_spec file out w :
  match process_odb_file env self file (Some out) w with
  | (Ok res, w') =>
      processed_from env self file out res /\ open_odbs w' = open_odbs w
  | (Raise e, w') =>
      open_odbs w' = open_odbs w \/
      (exists odb, openOdb env file = Ok odb) /\
      open_odbs w' = file :: open_odbs w
  end.
Proof.
  unfold process_odb_file.
  change (analysis_dir env self (Some out)) with out.
  destruct (ODB_AVAILABLE env); cbn [negb]; [|now left].
  unfold Spall.bind.
  pose proof (makedirs_handles out w) as H0.
  destruct (makedirs out w) as [[[]|e] w0]; cbn [snd] in H0; [|now left].
  unfold Spall.try_except, Spall.raise.
  pose proof (process_block_spec file out w0) as H.
  destruct (process_block env self file out w0) as [[res|e] w1].
  - now rewrite <- H0.
  - destruct (openOdb env file) as [odb|e'].
    + right. split; [now exists odb|now rewrite <- H0].
    + left. destruct H as [_ ->]. exact H0.
Qed.

Lemma process_odb_file_default file output_dir :
  process_odb_file env self file output_dir
  = process_odb_file env self file (Some (analysis_dir env self output_dir)).
Proof. destruct output_dir; reflexivity. Qed.

(** X18. The database is closed on the success path only. When the
    database at [file] can be opened and the output directory, written
    normally, can be made (every name on the way to it, and the
    directory itself, is free or a directory), a call of [process_odb_file] that returns leaves
    the open databases as they were, and a call that raises (in an
    extraction, in saving or in plotting) leaves the database open. *)
Lemma odb_closed_only_on_success (file : string) (output_dir : option string)
    (w : World) (odb : Odb) :
  ODB_AVAILABLE env = true ->
  openOdb env file = Ok odb ->
  FS.normal (analysis_dir env self output_dir) = true ->
  Forall (FS.free_or_dir is_dir (files w))
         (FS.chain (analysis_dir env self output_dir)) ->
  match process_odb_file env self file output_dir w with
  | (Ok res, w') =>
      open_odbs w' = open_odbs w /\
      processed_from env self file (analysis_dir env self output_dir) res
  | (Raise e, w') => open_odbs w' = file :: open_odbs w
  end.
Proof.
  intros Ha Ho Hnorm Hd. pose proof (normal_not_empty _ Hnorm) as Hne.
  rewrite process_odb_file_default.
  set (out := analysis_dir env self output_dir) in *.
  unfold process_odb_file.
  change (analysis_dir env self (Some out)) with out.
  rewrite Ha. cbn [negb]. unfold Spall.bind.
  assert (Hm : exists w0, makedirs out w = (Ok tt, w0) /\
                          open_odbs w0 = open_odbs w).
  { unfold makedirs, on_fs.
    destruct (makedirs_free Dir is_dir out (files w) Hne
                (normal_null_free out Hnorm) Hd) as [fs1 ->].
    eexists. split; reflexivity. }
  destruct Hm as [w0 [-> H0]].
  unfold Spall.try_except, Spall.raise.
  pose proof (process_block_spec file out w0) as H.
  destruct (process_block env self file out w0) as [[res|e] w1].
  - destruct H as [H1 H2]. split; [now rewrite <- H0|exact H1].
  - rewrite Ho in H. now rewrite <- H0.
Qed.

(** The loop of [batch_process]: every turn adds one entry, and no turn
    raises. *)
Lemma batch_loop out (items : list (Z * string)) (b : Batch) :
  exists b' rs,
    Spall.for_loop (batch_turn env self out) items b = (Ok tt, b') /\
    batch_results b' = batch_results b ++ rs /\
    Forall2 (entry_ok env self out) items rs.
Proof.
  revert b. induction items as [|[i file] items IH]; intros b.
  - exists b, []. split; [reflexivity|]. split; [now rewrite app_nil_r|].
    constructor.
  - cbn [Spall.for_loop]. unfold Spall.bind at 1.
    assert (Ht : exists b1 entry,
               batch_turn env self out (i, file) b = (Ok tt, b1) /\
               batch_results b1 = batch_results b ++ [entry] /\
               entry_ok env self out (i, file) entry).
    { unfold batch_turn, Spall.try_except, Spall.bind, in_world, append.
      pose proof (process_odb_file_spec file (file_output_dir out i) (world b))
        as H.
      destruct (process_odb_file env self file
                  (Some (file_output_dir out i)) (world b)) as [[res|e] w1].
      - eexists _, (Some res). split; [reflexivity|].
        split; [reflexivity|]. exact (proj1 H).
      - eexists _, None. split; [reflexivity|]. split; [reflexivity|exact I]. }
    destruct Ht as [b1 [entry [-> [Hb1 He]]]].
    destruct (IH b1) as [b' [rs [-> [Hb' HF]]]].
    exists b', (entry :: rs). split; [reflexivity|]. split.
    + rewrite Hb', Hb1, <- app_assoc. reflexivity.
    + now constructor.
Qed.

Lemma summary_file_not_out (out : string) : summary_file out <> out.
Proof.
  unfold summary_file.
  change (os_path_join out "batch_summary.txt")
    with (with_sep out +:+ "batch_summary.txt").
  intros H. apply (f_equal String.length) in H. rewrite append_length in H.
  pose proof (with_sep_length out). simpl in H. lia.
Qed.

(** What [batch_process] returns, and when it raises. *)
Lemma batch_process_spec (odb_files : list string)
    (output_dir : option string) (w : World) :
  match batch_process env self odb_files output_dir w with
  | (Ok rs, w') =>
      Forall2 (entry_ok env self (batch_dir env self output_dir))
              (enumerate 1 odb_files) rs /\
      files w' !! summary_file (batch_dir env self output_dir)
      = Some (Summary (summary_lines env rs))
  | (Raise e, w') =>
      e = FileExistsError (batch_dir env self output_dir) \/
      e = IsADirectoryError (summary_file (batch_dir env self output_dir)) \/
      e = FileNotFoundError (batch_dir env self output_dir) \/
      e = FileNotFoundError (summary_file (batch_dir env self output_dir)) \/
      (exists q, e = NotADirectoryError q) \/
      e = ValueError "embedded null byte"
  end.
Proof.
  unfold batch_process. set (out := batch_dir env self output_dir).
  unfold Spall.bind at 1. unfold makedirs, on_fs.
  destruct (FS.makedirs Dir is_dir out (files w)) as [fs1|e1] eqn:Em.
  - destruct (batch_loop out (enumerate 1 odb_files)
                {| world := {| files := fs1; open_odbs := open_odbs w |};
                   batch_results := [] |})
      as [b' [rs [-> [Hrs HF]]]].
    cbn [batch_results app] in Hrs. rewrite Hrs.
    unfold _create_batch_summary, Spall.bind, write_file, on_fs, Spall.ret.
    match goal with
    | |- context [FS.write is_dir ?p ?c ?fs] =>
        destruct (FS.write is_dir p c fs) as [fs2|e2] eqn:Ew
    end.
    + apply write_ok in Ew. subst fs2. split; [exact HF|].
      cbn [files]. apply lookup_insert_eq.
    + apply write_raises in Ew. destruct Ew as [->|[->|[->| ->]]]; eauto 8.
  - apply (makedirs_raises Dir is_dir) in Em.
    destruct Em as [->|[[q ->]|[->| ->]]]; eauto 8.
Qed.

(** X19. [batch_process] never fails on account of a file: it returns
    one entry per file, in the order of the files, the entry of the
    [i]-th file being [None] or the results of processing that file into
    a directory [file_<i>] of its own, and it has then written the
    summary of these entries. It raises only when the batch directory
    cannot be made or the summary file cannot be written, with the
    exception of [os.makedirs] or of [open]. *)
Lemma batch_process_entries (odb_files : list string)
    (output_dir : option string) (w : World) :
  (forall i j,
     file_output_dir (batch_dir env self output_dir) i
     = file_output_dir (batch_dir env self output_dir) j -> i = j) /\
  match batch_process env self odb_files output_dir w with
  | (Ok rs, w') =>
      Forall2 (entry_ok env self (batch_dir env self output_dir))
              (enumerate 1 odb_files) rs /\
      files w' !! summary_file (batch_dir env self output_dir)
      = Some (Summary (summary_lines env rs))
  | (Raise e, w') =>
      e = FileExistsError (batch_dir env self output_dir) \/
      e = IsADirectoryError (summary_file (batch_dir env self output_dir)) \/
      e = FileNotFoundError (batch_dir env self output_dir) \/
      e = FileNotFoundError (summary_file (batch_dir env self output_dir)) \/
      (exists q, e = NotADirectoryError q) \/
      e = ValueError "embedded null byte"
  end.
Proof.
  split; [|apply batch_process_spec].
  intros i j H. unfold file_output_dir in H.
  change (with_sep (batch_dir env self output_dir) +:+ "file_" +:+ Py.str_int i
          = with_sep (batch_dir env self output_dir) +:+ "file_"
            +:+ Py.str_int j) in H.
  apply append_inv_head in H. apply (append_inv_head "file_") in H.
  now apply str_int_inj.
Qed.

(** The statistics of results whose field data an extraction returned. *)
Lemma extraction_statistics (odb : Odb) (res : PostProcessingResults) :
  _extract_field_data self odb = Ok (field_data res) ->
  exists st,
    get_summary_statistics res = Ok st /\
    stats_processing_time st = processing_time res /\
    0 <= PostProc.max_stress st /\ 0 <= max_strain st.
Proof.
  intros E.
  assert (Hok : forall step_data, In step_data (dict_values (field_data res)) ->
                forall frame_data, In frame_data (dict_values step_data) ->
                                   PostProcMore.frame_data_ok frame_data).
  { intros sd Hsd f Hf.
    destruct (proj2 (field_data_steps self odb _ E) sd Hsd)
      as [name [step [_ Hstep]]].
    eapply extract_step_ok; eassumption. }
  destruct (max_over_returns "stress" (field_data res)) as [m1 E1];
    [discriminate|exact Hok|].
  destruct (max_over_returns "strain" (field_data res)) as [m2 E2];
    [discriminate|exact Hok|].
  unfold get_summary_statistics, get_max_stress, get_max_strain.
  rewrite E1, E2. eexists. split; [reflexivity|]. cbn.
  split; [reflexivity|].
  apply max_over_steps_scanned in E1, E2.
  split; [exact (proj1 E1)|exact (proj1 E2)].
Qed.

(** X20. Every result a batch returns can be summarised: for each entry
    of the list that is not [None], [get_summary_statistics] returns,
    with maxima that are not negative, and the processing time it
    reports is [0], since nothing measures it. *)
Lemma batch_results_have_statistics (odb_files : list string)
    (output_dir : option string) (w w' : World)
    (rs : list (option PostProcessingResults)) (res : PostProcessingResults) :
  batch_process env self odb_files output_dir w = (Ok rs, w') ->
  In (Some res) rs ->
  exists st,
    get_summary_statistics res = Ok st /\
    stats_processing_time st = 0 /\
    0 <= PostProc.max_stress st /\ 0 <= max_strain st.
Proof.
  intros E Hin.
  pose proof (batch_process_spec odb_files output_dir w) as H.
  rewrite E in H. destruct H as [HF _].
  assert (Hp : exists item,
             entry_ok env self (batch_dir env self output_dir) item (Some res)).
  { clear -HF Hin. induction HF as [|x y l l' Hxy _ IH]; [destruct Hin|].
    destruct Hin as [->|Hin]; [now exists x|now apply IH]. }
  destruct Hp as [item [_ [_ [Ht [odb [_ [Ef _]]]]]]].
  destruct (extraction_statistics odb res Ef) as [st [H1 [H2 H3]]].
  exists st. split; [exact H1|]. split; [|exact H3].
  now rewrite H2, Ht.
Qed.

(** Without the ODB interface every turn of the loop records [None] and
    leaves the world as it is. *)
Lemma batch_loop_without_odb out (items : list (Z * string)) (b : Batch) :
  ODB_AVAILABLE env = false ->
  Spall.for_loop (batch_turn env self out) items b
  = (Ok tt, {| world := world b;
               batch_results := batch_results b ++ map (fun _ => None) items |}).
Proof.
  intros Ha. revert b. induction items as [|[i file] items IH]; intros b.
  - cbn. rewrite app_nil_r. now destruct b.
  - cbn [Spall.for_loop]. unfold Spall.bind at 1.
    assert (Ht : batch_turn env self out (i, file) b
                 = (Ok tt, {| world := world b;
                              batch_results := batch_results b ++ [None] |})).
    { unfold batch_turn, Spall.try_except, Spall.bind, in_world, append.
      unfold process_odb_file. rewrite Ha. reflexivity. }
    rewrite Ht, IH. cbn [world batch_results map]. rewrite <- app_assoc.
    reflexivity.
Qed.

Lemma enumerate_map {A B} (f : A -> B) (l : list A) (start : Z) :
  enumerate start (map f l)
  = map (fun item => (fst item, f (snd item))) (enumerate start l).
Proof.
  revert start. induction l as [|x l IH]; intros start; simpl;
    [reflexivity|now rewrite IH].
Qed.

Lemma is_dir_spec (n : Entry) : is_dir n = true <-> n = Dir.
Proof. destruct n; split; (reflexivity || discriminate). Qed.

Lemma dir_at_dir (fs : gmap string Entry) (p : string) :
  FS.dir_at is_dir fs p <-> fs !! p = Some Dir.
Proof.
  split.
  - intros [n [E Hn]]. apply is_dir_spec in Hn. now subst n.
  - intros E. now exists Dir.
Qed.

(** X21. Without the ODB interface [batch_process] does not raise the
    [RuntimeError] of [process_odb_file]: when the batch directory,
    written normally, can be made (every name on the way to it, and the
    directory itself, is free or a directory) and the summary path is
    not a directory, it
    returns [None] for every file, opens no database, makes the batch
    directory, writes the summary file and touches nothing else, and the
    summary counts no success and one error per file. *)
Lemma batch_process_without_odb (odb_files : list string)
    (output_dir : option string) (w : World) :
  ODB_AVAILABLE env = false ->
  FS.normal (batch_dir env self output_dir) = true ->
  Forall (FS.free_or_dir is_dir (files w))
         (FS.chain (batch_dir env self output_dir)) ->
  files w !! summary_file (batch_dir env self output_dir) <> Some Dir ->
  (exists w',
     batch_process env self odb_files output_dir w
     = (Ok (map (fun _ => None) odb_files), w') /\
     open_odbs w' = open_odbs w /\
     Forall (fun q => files w' !! q = Some Dir)
            (FS.chain (batch_dir env self output_dir)) /\
     files w' !! summary_file (batch_dir env self output_dir)
     = Some (Summary (summary_lines env (map (fun _ => None) odb_files))) /\
     forall q,
       ~ In q (FS.chain (batch_dir env self output_dir)) ->
       q <> summary_file (batch_dir env self output_dir) ->
       files w' !! q = files w !! q) /\
  summary_lines env (map (fun _ => None) odb_files)
  = [STitle; SDate (strftime env "%Y-%m-%d %H:%M:%S");
     STotal (Py.len odb_files); SSucceeded 0; SErrors (Py.len odb_files);
     SDetails]
    ++ map (fun item => SFileFailed (fst item)) (enumerate 1 odb_files).
Proof.
  intros Ha Hnorm Hfree Hsum.
  pose proof (normal_not_empty _ Hnorm) as Hne. split.
  - unfold batch_process. set (out := batch_dir env self output_dir) in *.
    unfold Spall.bind at 1. unfold makedirs, on_fs.
    destruct (makedirs_free Dir is_dir out (files w) Hne
                (normal_null_free out Hnorm) Hfree) as [fs1 Em].
    rewrite Em.
    destruct (makedirs_ok Dir is_dir eq_refl out _ _ Em) as [Hd [Hsame _]].
    rewrite (batch_loop_without_odb out _ _ Ha).
    cbn [world batch_results app].
    assert (E : map (fun _ : Z * string => @None PostProcessingResults)
                    (enumerate 1 odb_files)
                = map (fun _ => None) odb_files).
    { generalize 1%Z. induction odb_files as [|x l IH]; intros z; simpl;
        [reflexivity|now rewrite IH]. }
    rewrite E.
    assert (Hplain : FS.plain_name "batch_summary.txt").
    { split; [discriminate|reflexivity]. }
    assert (Hnot : ~ In (summary_file out) (FS.chain out)).
    { apply join_not_in_chain, Hplain. }
    unfold _create_batch_summary, Spall.bind, write_file, on_fs, Spall.ret.
    cbn [files open_odbs].
    rewrite write_under.
    + assert (Hs1 : fs1 !! summary_file out <> Some Dir).
      { now rewrite (Hsame _ Hnot). }
      assert (Hw : forall c,
                 match fs1 !! summary_file out with
                 | Some n =>
                     if is_dir n then Raise (IsADirectoryError (summary_file out))
                     else Ok (<[summary_file out := c]> fs1)
                 | None => Ok (<[summary_file out := c]> fs1)
                 end = Ok (<[summary_file out := c]> fs1)).
      { intros c. destruct (fs1 !! summary_file out) as [[]|];
          try reflexivity. congruence. }
      rewrite Hw. eexists. split; [reflexivity|]. cbn [files open_odbs].
      split; [reflexivity|]. split; [|split].
      * apply List.Forall_forall. intros q Hq.
        rewrite lookup_insert_ne by (intros Eq; subst q; contradiction).
        apply dir_at_dir. now apply (proj1 (List.Forall_forall _ _) Hd).
      * apply lookup_insert_eq.
      * intros q Hq Hqs. rewrite lookup_insert_ne by congruence.
        now apply Hsame.
    + apply join_not_empty, Hplain.
    + apply null_free_join;
        [exact Hplain|exact (normal_null_free out Hnorm)|reflexivity].
    + apply names_file_join, Hplain.
    + unfold summary_file. rewrite removelast_chain_join by exact Hplain.
      exact Hd.
  - unfold summary_lines. f_equal.
    + unfold Py.len. rewrite !length_map.
      assert (E1 : forall l : list string,
                 List.filter is_some
                   (map (fun _ => @None PostProcessingResults) l) = []).
      { induction l; simpl; auto. }
      assert (E2 : forall l : list string,
                 List.filter (fun r => negb (is_some r))
                   (map (fun _ => @None PostProcessingResults) l)
                 = map (fun _ => None) l).
      { induction l; simpl; [reflexivity|now f_equal]. }
      rewrite E1, E2, length_map. reflexivity.
    + rewrite enumerate_map, map_map. reflexivity.
Qed.

(** The template meets its first replacement field at the style sheet. *)
Lemma report_format (results : PostProcessingResults) (t s n : Q) :
  str_format (formatter env) (report_arguments env results t s n)
             html_template
  = Raise (KeyError " font-family").
Proof. vm_compute. reflexivity. Qed.

(** X22. [generate_report] never writes a report: whatever the results
    and the output file, it raises and leaves the files as they were.
    When the total time and the two maxima of the results can be
    computed, the exception is the [KeyError] of [str.format] for the
    opening brace of the first rule of the style sheet in the template,
    which [format] reads as a replacement field. *)
Lemma generate_report_raises (results : PostProcessingResults)
    (output_file : option string) (w : World) :
  exists e,
    generate_report env results output_file w = (Raise e, w) /\
    _create_html_report env results = Raise e /\
    (forall t s n,
       total_time (field_data results) = Ok t ->
       get_max_stress results = Ok s ->
       get_max_strain results = Ok n ->
       e = KeyError " font-family").
Proof.
  assert (H : exists e, _create_html_report env results = Raise e /\
              (forall t s n,
                 total_time (field_data results) = Ok t ->
                 get_max_stress results = Ok s ->
                 get_max_strain results = Ok n ->
                 e = KeyError " font-family")).
  { unfold _create_html_report.
    destruct (total_time (field_data results)) as [t|e1];
      [|exists e1; split; [reflexivity|discriminate]].
    destruct (get_max_stress results) as [s|e2];
      [|exists e2; split; [reflexivity|discriminate]].
    destruct (get_max_strain results) as [n|e3];
      [|exists e3; split; [reflexivity|discriminate]].
    unfold mbind, result_bind. rewrite report_format.
    exists (KeyError " font-family"). split; reflexivity. }
  destruct H as [e [He Hk]]. exists e. split; [|split; assumption].
  unfold generate_report, Spall.bind, lift. rewrite He. reflexivity.
Qed.

End ProcessingFacts.

Section ProcessingWitnesses.
Import PostProc PostProcSpec PostProcIO PostProcIOSpec.

Lemma odb_closed_only_on_success_witness :
  match process_odb_file env_excel_fails system0 "job.odb" (Some "out")
          world_empty with
  | (Ok _, _) => False
  | (Raise e, w') => open_odbs w' = ["job.odb"]
  end.
Proof.
  assert (Hne : FS.normal (analysis_dir env_excel_fails system0
                                       (Some "out")) = true)
    by reflexivity.
  assert (Hd : Forall (FS.free_or_dir is_dir (files world_empty))
                 (FS.chain (analysis_dir env_excel_fails system0
                              (Some "out")))).
  { apply List.Forall_forall. intros q _. left. apply lookup_empty. }
  pose proof (odb_closed_only_on_success env_excel_fails system0 "job.odb"
                (Some "out") world_empty odb_sample eq_refl eq_refl
                Hne Hd) as H.
  assert (E : fst (process_odb_file env_excel_fails system0 "job.odb"
                     (Some "out") world_empty)
              = Raise (IndexError "At least one sheet must be visible"))
    by (vm_compute; reflexivity).
  destruct (process_odb_file env_excel_fails system0 "job.odb" (Some "out")
              world_empty) as [[res|e] w']; [discriminate E|exact H].
Defined.

Lemma batch_process_without_odb_witness :
  fst (batch_process env_no_odb system0 ["job.odb"; "other.odb"] None
         world_empty)
  = Ok [None; None].
Proof.
  destruct (batch_process_without_odb env_no_odb system0
              ["job.odb"; "other.odb"] None world_empty eq_refl)
    as [[w' [H _]] _].
  - reflexivity.
  - apply List.Forall_forall. intros q _. left. apply lookup_empty.
  - cbn [files world_empty]. rewrite lookup_empty. discriminate.
  - rewrite H. reflexivity.
Defined.

Lemma batch_results_have_statistics_witness :
  exists res st,
    fst (batch_process env_sample system0 ["job.odb"; "other.odb"]
           (Some "out") world_empty) = Ok [Some res; None] /\
    get_summary_statistics res = Ok st /\
    stats_processing_time st = 0.
Proof.
  destruct (batch_process env_sample system0 ["job.odb"; "other.odb"]
              (Some "out") world_empty) as [r w'] eqn:E.
  assert (Er : exists res, r = Ok [Some res; None]).
  { apply (f_equal fst) in E. vm_compute in E. subst r. now eexists. }
  destruct Er as [res ->].
  destruct (batch_results_have_statistics env_sample system0
              ["job.odb"; "other.odb"] (Some "out") world_empty w'
              [Some res; None] res E (or_introl eq_refl))
    as [st [H1 [H2 _]]].
  exists res, st. split; [reflexivity|]. split; assumption.
Defined.

End ProcessingWitnesses.

(** ** Extraction on a store of objects *)

Section StoreFacts.
Import PostProc PostProcStore.

Lemma tree_ind' (P : tree -> Prop) :
  (forall m, P (TNum m)) ->
  (forall l, P (TNums l)) ->
  (forall ts, Forall (fun kt => P (snd kt)) ts -> P (TDict ts)) ->
  forall t, P t.
Proof.
  intros Hn Hl Hd. fix IH 1. intros [m|l|ts]; [apply Hn|apply Hl|].
  apply Hd. induction ts as [|[k t] ts IHts]; constructor;
    [apply IH|exact IHts].
Qed.

Lemma models_dict (s : Store) (hi lo : nat) (ts : list (key * tree))
    (v : value) :
  models s hi (TDict ts) lo v <->
  exists l entries,
    v = VRef l /\ (lo <= l < hi)%nat /\
    s !! l = Some (Dict entries) /\ children s hi l ts entries.
Proof. reflexivity. Qed.

(** What a value stands for depends on the objects at the places
    between the bounds only, and the bounds may be widened. *)
Lemma models_stable (s s' : Store) (hi hi' : nat) (t : tree) :
  forall lo lo' v,
    (forall l, (lo <= l < hi)%nat -> s' !! l = s !! l) ->
    (lo' <= lo)%nat -> (hi <= hi')%nat ->
    models s hi t lo v -> models s' hi' t lo' v.
Proof.
  induction t as [m|l|ts IH] using tree_ind'; intros lo lo' v Hag Hlo Hhi;
    try exact id.
  rewrite !models_dict. intros (l & es & Hv & Hb & Hl & Hc).
  exists l, es. split; [exact Hv|]. split; [lia|].
  split; [rewrite Hag; [exact Hl|exact Hb]|].
  unfold children in *. clear Hl. revert es Hc.
  induction IH as [|[k t] ts Ht _ IHts]; intros [|[k' v'] es];
    try exact id.
  simpl. intros [[Hk Hm] Hr]. split; [split; [exact Hk|]|now apply IHts].
  apply (Ht (S l) (S l)); [|lia|lia|exact Hm].
  intros j Hj. apply Hag. lia.
Qed.

Lemma children_stable (s s' : Store) (hi hi' l : nat)
    (ts : list (key * tree)) (es : list (key * value)) :
  (forall j, (l < j < hi)%nat -> s' !! j = s !! j) ->
  (hi <= hi')%nat ->
  children s hi l ts es -> children s' hi' l ts es.
Proof.
  intros Hag Hhi. unfold children. revert es.
  induction ts as [|[k t] ts IH]; intros [|[k' v'] es]; try exact id.
  simpl. intros [[Hk Hm] Hr]. split; [split; [exact Hk|]|now apply IH].
  apply (models_stable s s' hi hi' t (S l) (S l)); [|lia|lia|exact Hm].
  intros j Hj. apply Hag. lia.
Qed.

(** An assignment to a key on both sides. *)
Lemma children_set {K T} (eqb : K -> K -> bool) (enc : K -> key)
    (f : T -> tree) (s : Store) (hi l : nat) (k : K) (x : T) (v : value)
    (acc : list (K * T)) (es : list (key * value)) :
  (forall a b, key_eqb (enc a) (enc b) = eqb a b) ->
  children s hi l (encode enc f acc) es ->
  models s hi (f x) (S l) v ->
  children s hi l (encode enc f (dict_set eqb k x acc))
           (dict_set key_eqb (enc k) v es).
Proof.
  intros Henc Hc Hm. unfold children, encode in *. revert es Hc.
  induction acc as [|[k0 x0] acc IH]; intros [|[k' v'] es] Hc;
    simpl in Hc; try contradiction.
  - simpl. auto.
  - destruct Hc as [[Hk Hm0] Hr]. subst k'. simpl.
    rewrite Henc. destruct (eqb k0 k); simpl.
    + auto.
    + split; [auto|]. now apply IH.
Qed.

Lemma dict_get_set_same {K V} (eqb : K -> K -> bool) (k : K) (v : V)
    (d : list (K * V)) :
  eqb k k = true -> dict_get eqb k (dict_set eqb k v d) = Some v.
Proof.
  intros Hk. induction d as [|[k0 v0] d IH]; simpl.
  - now rewrite Hk.
  - destruct (eqb k0 k) eqn:E; simpl; now rewrite E.
Qed.

(** The lookups of a store after the two ways of changing it. *)
Lemma store_lookup_alloc (s : Store) (o : object) (l : nat) :
  (l < length s)%nat -> (s ++ [o]) !! l = s !! l.
Proof. apply lookup_app_l. Qed.

Lemma store_lookup_new (s : Store) (o : object) :
  (s ++ [o]) !! length s = Some o.
Proof. now apply list_lookup_middle. Qed.

Lemma store_lookup_insert (s : Store) (o : object) (l : nat) :
  (l < length s)%nat -> <[l := o]> s !! l = Some o.
Proof. apply list_lookup_insert_eq. Qed.

Lemma store_lookup_insert_ne (s : Store) (o : object) (l j : nat) :
  l <> j -> <[l := o]> s !! j = s !! j.
Proof. apply list_lookup_insert_ne. Qed.

Lemma store_length_insert (s : Store) (o : object) (l : nat) :
  length (<[l := o]> s) = length s.
Proof. apply length_insert. Qed.

Lemma store_lookup_lt (s : Store) (o : object) (l : nat) :
  s !! l = Some o -> (l < length s)%nat.
Proof. intros H. eapply lookup_lt_Some. exact H. Qed.

Lemma grows_refl (p : nat) (s : Store) : grows p s s.
Proof. split; [lia|auto]. Qed.

Lemma grows_alloc (p : nat) (s : Store) (o : object) : grows p s (s ++ [o]).
Proof.
  split; [rewrite length_app; lia|].
  intros l Hl _. now apply store_lookup_alloc.
Qed.

Lemma grows_insert (p : nat) (s : Store) (o : object) :
  grows p s (<[p := o]> s).
Proof.
  split; [rewrite store_length_insert; lia|].
  intros l _ Hl. apply store_lookup_insert_ne. congruence.
Qed.

Lemma grows_trans (p : nat) (s1 s2 s3 : Store) :
  grows p s1 s2 -> grows p s2 s3 -> grows p s1 s3.
Proof.
  intros [H1 A1] [H2 A2]. split; [lia|].
  intros l Hl Hp. rewrite A2, A1; auto. lia.
Qed.

(** Updates of an object that was added. *)
Lemma grows_inner (p q : nat) (s1 s2 s3 : Store) :
  grows p s1 s2 -> grows q s2 s3 -> (length s1 <= q)%nat -> grows p s1 s3.
Proof.
  intros [H1 A1] [H2 A2] Hq. split; [lia|].
  intros l Hl Hp. rewrite A2, A1; auto; lia.
Qed.

(** The operations on a dictionary that is there. *)
Lemma getitem_at (s : Store) (l : nat) (es : list (key * value))
    (k : string) (v : value) :
  s !! l = Some (Dict es) ->
  dict_get key_eqb (KStr k) es = Some v ->
  getitem (VRef l) k s = (Ok v, s).
Proof.
  intros Hl Hk. unfold getitem, entries_of, deref, Spall.bind, Spall.ret.
  rewrite Hl. simpl. now rewrite Hk.
Qed.

Lemma getitem_missing (s : Store) (l : nat) (es : list (key * value))
    (k : string) :
  s !! l = Some (Dict es) ->
  dict_get key_eqb (KStr k) es = None ->
  getitem (VRef l) k s = (Raise (KeyError k), s).
Proof.
  intros Hl Hk. unfold getitem, entries_of, deref, Spall.bind, Spall.ret.
  rewrite Hl. simpl. now rewrite Hk.
Qed.

Lemma getattr_at (s : Store) (l : nat) (es : list (key * value))
    (name : string) (v : value) :
  s !! l = Some (Dict es) ->
  dict_get key_eqb (KStr name) es = Some v ->
  getattr (VRef l) name s = (Ok v, s).
Proof.
  intros Hl Hk. unfold getattr, entries_of, deref, Spall.bind, Spall.ret.
  rewrite Hl. simpl. now rewrite Hk.
Qed.

Lemma setitem_at (s : Store) (l : nat) (es : list (key * value))
    (k : key) (v : value) :
  s !! l = Some (Dict es) ->
  setitem (VRef l) k v s
  = (Ok tt, <[l := Dict (dict_set key_eqb k v es)]> s).
Proof.
  intros Hl. unfold setitem, entries_of, deref, Spall.bind, Spall.ret.
  rewrite Hl. reflexivity.
Qed.

Lemma field_outputs_items_at (s : Store) (l : nat)
    (es : list (string * list string)) :
  s !! l = Some (FieldOutputs es) ->
  field_outputs_items (VRef l) s = (Ok es, s).
Proof.
  intros Hl. unfold field_outputs_items, deref, Spall.bind.
  now rewrite Hl.
Qed.

Lemma history_outputs_items_at (s : Store) (l : nat)
    (es : list (string * string)) :
  s !! l = Some (HistoryOutputs es) ->
  history_outputs_items (VRef l) s = (Ok es, s).
Proof.
  intros Hl. unfold history_outputs_items, deref, Spall.bind.
  now rewrite Hl.
Qed.

(** A loop on the store follows the loop on values when its body does:
    [I] relates the store to the accumulator, [R] the store before to
    the store after. *)
Lemma for_loop_follows {A X} (body : A -> X -> result X)
    (store_body : A -> Spall.M Store unit)
    (I : Store -> X -> Prop) (R : Store -> Store -> Prop) :
  (forall s, R s s) ->
  (forall s1 s2 s3, R s1 s2 -> R s2 s3 -> R s1 s3) ->
  (forall x s acc,
     I s acc ->
     exists s',
       R s s' /\
       match body x acc with
       | Ok acc' => store_body x s = (Ok tt, s') /\ I s' acc'
       | Raise e => store_body x s = (Raise e, s')
       end) ->
  forall l s acc,
    I s acc ->
    exists s',
      R s s' /\
      match for_each body l acc with
      | Ok acc' => Spall.for_loop store_body l s = (Ok tt, s') /\ I s' acc'
      | Raise e => Spall.for_loop store_body l s = (Raise e, s')
      end.
Proof.
  intros Hrefl Htrans Hbody. induction l as [|x l IH]; intros s acc HI.
  - exists s. split; [apply Hrefl|]. simpl. now split.
  - destruct (Hbody x s acc HI) as [s1 [R1 H1]].
    cbn [for_each Spall.for_loop]. unfold Spall.bind.
    destruct (body x acc) as [acc1|e]; simpl.
    + destruct H1 as [E1 I1]. rewrite E1.
      destruct (IH s1 acc1 I1) as [s2 [R2 H2]].
      exists s2. split; [eapply Htrans; eassumption|exact H2].
    + rewrite H1. exists s1. now split.
Qed.

(** A reference to the literal of a sample stands for the sample. *)
Lemma sample_models (s : Store) (hi lo l : nat) (smp : FieldSample) :
  (lo <= l < hi)%nat ->
  s !! l = Some (Dict (sample_entries smp)) ->
  models s hi (tree_of_sample smp) lo (VRef l).
Proof.
  intros Hb Hl. apply models_dict. exists l, (sample_entries smp).
  split; [reflexivity|]. split; [exact Hb|]. split; [exact Hl|].
  unfold children. simpl. auto 10.
Qed.

(** One component: the literal is added to the store and the dictionary
    at [c], which [frame_data[field_type]] refers to, takes it. *)
Lemma extract_component_follows (fd c : nat) (ft : string)
    (fo : FieldOutput) (fes : list (key * value)) (x : string) (s : Store)
    (acc : list (string * FieldSample)) :
  fd <> c ->
  dict_get key_eqb (KStr ft) fes = Some (VRef c) ->
  (s !! fd = Some (Dict fes) /\
   exists es, s !! c = Some (Dict es) /\
              children s (length s) c (encode KStr tree_of_sample acc) es) ->
  exists s',
    grows c s s' /\
    match PostProc.extract_component fo x acc with
    | Ok acc' =>
        PostProcStore.extract_component (VRef fd) ft fo x s = (Ok tt, s') /\
        (s' !! fd = Some (Dict fes) /\
         exists es, s' !! c = Some (Dict es) /\
                    children s' (length s') c
                             (encode KStr tree_of_sample acc') es)
    | Raise e =>
        PostProcStore.extract_component (VRef fd) ft fo x s = (Raise e, s')
    end.
Proof.
  intros Hne Hft [Hfd [es [Hc Hch]]].
  unfold PostProc.extract_component, PostProcStore.extract_component.
  unfold lift, Spall.bind.
  destruct (first_value fo) as [v0|e]; simpl.
  2:{ exists s. split; [apply grows_refl|reflexivity]. }
  destruct (smem x (fv_data v0)).
  2:{ exists s. split; [apply grows_refl|]. split; [reflexivity|].
      split; [exact Hfd|]. now exists es. }
  destruct (comprehension (fun value => subscript (fv_data value) x)
                          (values fo)) as [vals|e]; simpl.
  2:{ exists s. split; [apply grows_refl|reflexivity]. }
  destruct (field_sample vals) as [smp|e]; simpl.
  2:{ exists s. split; [apply grows_refl|reflexivity]. }
  pose proof (store_lookup_lt _ _ _ Hfd) as Lfd.
  pose proof (store_lookup_lt _ _ _ Hc) as Lc.
  set (s1 := (s ++ [Dict (sample_entries smp)] : Store)).
  assert (Hfd1 : s1 !! fd = Some (Dict fes)).
  { unfold s1. now rewrite store_lookup_alloc. }
  assert (Hc1 : s1 !! c = Some (Dict es)).
  { unfold s1. now rewrite store_lookup_alloc. }
  rewrite (getitem_at s1 fd fes ft (VRef c) Hfd1 Hft).
  rewrite (setitem_at s1 c es (KStr x) (VRef (length s)) Hc1).
  set (s2 := (<[c := Dict (dict_set key_eqb (KStr x) (VRef (length s)) es)]>
                s1 : Store)).
  assert (L1 : length s1 = S (length s)).
  { unfold s1. rewrite length_app. simpl. lia. }
  assert (L2 : length s2 = S (length s)).
  { unfold s2. now rewrite store_length_insert. }
  assert (Hag : forall j, (j < length s)%nat -> j <> c -> s2 !! j = s !! j).
  { intros j Hj Hjc. unfold s2, s1.
    rewrite store_lookup_insert_ne by congruence.
    now apply store_lookup_alloc. }
  exists s2. split; [split; [lia|exact Hag]|].
  split; [reflexivity|]. split.
  { rewrite Hag; [exact Hfd|lia|exact Hne]. }
  eexists. split.
  { unfold s2. apply store_lookup_insert. lia. }
  apply (children_set String.eqb KStr tree_of_sample).
  - reflexivity.
  - apply (children_stable s s2 (length s)); [|lia|exact Hch].
    intros j Hj. apply Hag; lia.
  - apply sample_models; [lia|].
    unfold s2, s1. rewrite store_lookup_insert_ne by lia.
    apply store_lookup_new.
Qed.

(** One field type: a dictionary is added, [frame_data] takes the
    reference, and the loop over the components fills it. *)
Lemma extract_field_follows (fd : nat) (frame : Frame)
    (item : string * list string) (s : Store) (acc : FrameData) :
  (exists fes, s !! fd = Some (Dict fes) /\
               children s (length s) fd (encode KStr tree_of_entry acc) fes) ->
  exists s',
    grows fd s s' /\
    match PostProc.extract_field frame item acc with
    | Ok acc' =>
        PostProcStore.extract_field (VRef fd) frame item s = (Ok tt, s') /\
        exists fes, s' !! fd = Some (Dict fes) /\
                    children s' (length s') fd
                             (encode KStr tree_of_entry acc') fes
    | Raise e =>
        PostProcStore.extract_field (VRef fd) frame item s = (Raise e, s')
    end.
Proof.
  intros [fes [Hfd Hch]]. destruct item as [ft components].
  unfold PostProc.extract_field, PostProcStore.extract_field.
  destruct (sget ft (fieldOutputs frame)) as [fo|].
  2:{ exists s. split; [apply grows_refl|]. split; [reflexivity|].
      now exists fes. }
  pose proof (store_lookup_lt _ _ _ Hfd) as Lfd.
  set (c := length s).
  set (s1 := (s ++ [Dict []] : Store)).
  assert (Hfd1 : s1 !! fd = Some (Dict fes)).
  { unfold s1. now rewrite store_lookup_alloc. }
  set (fes2 := dict_set key_eqb (KStr ft) (VRef c) fes).
  set (s2 := (<[fd := Dict fes2]> s1 : Store)).
  assert (Hrun :
    Spall.bind (alloc (Dict []))
      (fun empty =>
         Spall.bind (setitem (VRef fd) (KStr ft) empty)
           (fun _ =>
              Spall.for_loop
                (PostProcStore.extract_component (VRef fd) ft fo)
                components)) s
    = Spall.for_loop (PostProcStore.extract_component (VRef fd) ft fo)
                     components s2).
  { unfold Spall.bind at 1. unfold alloc. unfold Spall.bind.
    fold c. fold s1.
    now rewrite (setitem_at s1 fd fes (KStr ft) (VRef c) Hfd1). }
  rewrite Hrun. clear Hrun.
  assert (L1 : length s1 = S (length s)).
  { unfold s1. rewrite length_app. simpl. lia. }
  assert (L2 : length s2 = S (length s)).
  { unfold s2. now rewrite store_length_insert. }
  assert (Hag : forall j, (j < length s)%nat -> j <> fd -> s2 !! j = s !! j).
  { intros j Hj Hjc. unfold s2, s1.
    rewrite store_lookup_insert_ne by congruence.
    now apply store_lookup_alloc. }
  assert (Hfd2 : s2 !! fd = Some (Dict fes2)).
  { unfold s2. apply store_lookup_insert. lia. }
  assert (Hc2 : s2 !! c = Some (Dict [])).
  { unfold s2, s1, c. rewrite store_lookup_insert_ne by lia.
    apply store_lookup_new. }
  destruct (for_loop_follows
              (PostProc.extract_component fo)
              (PostProcStore.extract_component (VRef fd) ft fo)
              (fun s acc =>
                 s !! fd = Some (Dict fes2) /\
                 exists es, s !! c = Some (Dict es) /\
                            children s (length s) c
                                     (encode KStr tree_of_sample acc) es)
              (grows c) (grows_refl c) (grows_trans c)
              (fun x s acc =>
                 extract_component_follows fd c ft fo fes2 x s acc
                   ltac:(unfold c; lia)
                   (dict_get_set_same key_eqb (KStr ft) (VRef c) fes
                      (String.eqb_refl ft)))
              components s2 [])
    as [s3 [G3 H3]].
  { split; [exact Hfd2|]. exists []. split; [exact Hc2|exact I]. }
  assert (G : grows fd s s3).
  { destruct G3 as [G3 A3]. split; [lia|].
    intros j Hj Hjfd. rewrite A3, Hag; auto; unfold c; lia. }
  exists s3. split; [exact G|].
  destruct (for_each (PostProc.extract_component fo) components [])
    as [comps|e]; simpl.
  2:{ exact H3. }
  destruct H3 as [E3 [Hfd3 [es [Hc3 Hch3]]]].
  split; [exact E3|]. exists fes2. split; [exact Hfd3|].
  pose proof (store_lookup_lt _ _ _ Hc3) as Lc3.
  apply (children_set String.eqb KStr tree_of_entry).
  - reflexivity.
  - apply (children_stable s s3 (length s)); [|destruct G; lia|exact Hch].
    intros j Hj. apply (proj2 G); lia.
  - apply models_dict. exists c, es. split; [reflexivity|].
    split; [unfold c; lia|]. split; [exact Hc3|exact Hch3].
Qed.

(** The configuration is read from the objects that were there when the
    call began: those below [n0]. *)
Lemma holds_app (s new : Store) (self : value) (cfg : Config) :
  holds s self cfg -> holds (s ++ new) self cfg.
Proof.
  intros (l & attrs & c & es & Hs & Hl & Hc & Hes & Hf & Hh).
  exists l, attrs, c, es. split; [exact Hs|].
  split; [now apply lookup_app_l_Some|]. split; [exact Hc|].
  split; [now apply lookup_app_l_Some|].
  split.
  - unfold holds_entry in *. destruct (field_outputs cfg); [|exact Hf].
    destruct Hf as [lf [H1 H2]]. exists lf. split; [exact H1|].
    now apply lookup_app_l_Some.
  - unfold holds_entry in *. destruct (history_outputs cfg); [|exact Hh].
    destruct Hh as [lh [H1 H2]]. exists lh. split; [exact H1|].
    now apply lookup_app_l_Some.
Qed.

Lemma holds_take (n0 : nat) (s : Store) (self : value) (cfg : Config) :
  holds (take n0 s) self cfg -> holds s self cfg.
Proof.
  intros H. rewrite <- (take_drop n0 s). now apply holds_app.
Qed.

Lemma take_grows (n0 : nat) (p : nat) (s s' : Store) :
  grows p s s' -> (n0 <= p)%nat -> (n0 <= length s)%nat ->
  take n0 s' = take n0 s.
Proof.
  intros [Hlen Hag] Hp Hn. apply list_eq. intros i.
  destruct (decide (i < n0)%nat) as [Hi|Hi].
  - rewrite !lookup_take_lt by exact Hi. apply Hag; lia.
  - rewrite !lookup_take_ge by lia. reflexivity.
Qed.

Lemma read_field_outputs {A} (s : Store) (self : value) (cfg : Config)
    (k : list (string * list string) -> Spall.M Store A) :
  holds s self cfg ->
  Spall.bind (getattr self "config")
    (fun config =>
       Spall.bind (getitem config "field_outputs")
         (fun field_outputs =>
            Spall.bind (field_outputs_items field_outputs) k)) s
  = match field_outputs cfg with
    | Some requested => k requested s
    | None => (Raise (KeyError "field_outputs"), s)
    end.
Proof.
  intros (l & attrs & c & es & -> & Hl & Hc & Hes & Hf & _).
  unfold Spall.bind at 1. rewrite (getattr_at s l attrs "config" _ Hl Hc).
  unfold Spall.bind at 1. unfold holds_entry in Hf.
  destruct (field_outputs cfg) as [requested|].
  - destruct Hf as [lf [H1 H2]].
    rewrite (getitem_at s c es "field_outputs" _ Hes H1).
    unfold Spall.bind.
    now rewrite (field_outputs_items_at s lf requested H2).
  - now rewrite (getitem_missing s c es "field_outputs" Hes Hf).
Qed.

Lemma read_history_outputs {A} (s : Store) (self : value) (cfg : Config)
    (k : list (string * string) -> Spall.M Store A) :
  holds s self cfg ->
  Spall.bind (getattr self "config")
    (fun config =>
       Spall.bind (getitem config "history_outputs")
         (fun history_outputs =>
            Spall.bind (history_outputs_items history_outputs) k)) s
  = match history_outputs cfg with
    | Some requested => k requested s
    | None => (Raise (KeyError "history_outputs"), s)
    end.
Proof.
  intros (l & attrs & c & es & -> & Hl & Hc & Hes & _ & Hh).
  unfold Spall.bind at 1. rewrite (getattr_at s l attrs "config" _ Hl Hc).
  unfold Spall.bind at 1. unfold holds_entry in Hh.
  destruct (history_outputs cfg) as [requested|].
  - destruct Hh as [lh [H1 H2]].
    rewrite (getitem_at s c es "history_outputs" _ Hes H1).
    unfold Spall.bind.
    now rewrite (history_outputs_items_at s lh requested H2).
  - now rewrite (getitem_missing s c es "history_outputs" Hes Hh).
Qed.

(** One frame: its dictionary is added and filled by the loop over the
    field types, takes the time, and goes into the dictionary of the
    step, at [d], which [field_data[step_name]] refers to. *)
Lemma extract_frame_follows (n0 : nat) (self : value) (cfg : Config)
    (f d : nat) (step_name : string) (fes : list (key * value))
    (frame : Frame) (s : Store) (acc : StepData) :
  (n0 <= d)%nat -> f <> d ->
  dict_get key_eqb (KStr step_name) fes = Some (VRef d) ->
  (holds (take n0 s) self cfg /\
   s !! f = Some (Dict fes) /\
   exists des, s !! d = Some (Dict des) /\
               children s (length s) d (encode KNum tree_of_frame acc) des) ->
  exists s',
    grows d s s' /\
    match PostProc.frame_body cfg frame acc with
    | Ok acc' =>
        PostProcStore.extract_frame self (VRef f) step_name frame s
        = (Ok tt, s') /\
        (holds (take n0 s') self cfg /\
         s' !! f = Some (Dict fes) /\
         exists des, s' !! d = Some (Dict des) /\
                     children s' (length s') d
                              (encode KNum tree_of_frame acc') des)
    | Raise e =>
        PostProcStore.extract_frame self (VRef f) step_name frame s
        = (Raise e, s')
    end.
Proof.
  intros Hn0 Hfd Hstep [Hcfg [Hf [des [Hd Hch]]]].
  pose proof (store_lookup_lt _ _ _ Hf) as Lf.
  pose proof (store_lookup_lt _ _ _ Hd) as Ld.
  set (fd := length s).
  set (s1 := (s ++ [Dict []] : Store)).
  assert (L1 : length s1 = S (length s)).
  { unfold s1. rewrite length_app. simpl. lia. }
  assert (G1 : grows d s s1) by apply grows_alloc.
  assert (Hcfg1 : holds s1 self cfg).
  { unfold s1. apply holds_app. eapply holds_take. exact Hcfg. }
  assert (Hrun :
    PostProcStore.extract_frame self (VRef f) step_name frame s
    = match field_outputs cfg with
      | Some requested =>
          Spall.bind
            (Spall.for_loop (PostProcStore.extract_field (VRef fd) frame)
                            requested)
            (fun _ =>
               Spall.bind
                 (setitem (VRef fd) (KStr "time")
                          (VNum (Py.Lit (frameValue frame))))
                 (fun _ =>
                    Spall.bind (getitem (VRef f) step_name)
                      (fun target =>
                         setitem target (KNum (frameValue frame))
                                 (VRef fd)))) s1
      | None => (Raise (KeyError "field_outputs"), s1)
      end).
  { unfold PostProcStore.extract_frame. unfold Spall.bind at 1.
    unfold alloc. fold fd. fold s1.
    now rewrite (read_field_outputs s1 self cfg _ Hcfg1). }
  rewrite Hrun. clear Hrun.
  unfold PostProc.frame_body, PostProc.extract_frame.
  destruct (field_outputs cfg) as [requested|]; simpl.
  2:{ exists s1. split; [exact G1|reflexivity]. }
  destruct (for_loop_follows
              (PostProc.extract_field frame)
              (PostProcStore.extract_field (VRef fd) frame)
              (fun s acc =>
                 exists fes, s !! fd = Some (Dict fes) /\
                             children s (length s) fd
                                      (encode KStr tree_of_entry acc) fes)
              (grows fd) (grows_refl fd) (grows_trans fd)
              (fun x s acc => extract_field_follows fd frame x s acc)
              requested s1 [])
    as [s2 [G2 H2]].
  { exists []. split; [apply store_lookup_new|exact I]. }
  assert (G12 : grows d s s2).
  { eapply grows_inner; [exact G1|exact G2|unfold fd; lia]. }
  destruct (for_each (PostProc.extract_field frame) requested [])
    as [frame_data|e]; simpl.
  2:{ exists s2. split; [exact G12|].
      unfold Spall.bind. now rewrite H2. }
  destruct H2 as [E2 [fes2 [Hfd2 Hch2]]].
  pose proof (store_lookup_lt _ _ _ Hfd2) as Lfd2.
  set (t := frameValue frame).
  set (fes3 := dict_set key_eqb (KStr "time") (VNum (Py.Lit t)) fes2).
  set (s3 := (<[fd := Dict fes3]> s2 : Store)).
  set (des4 := dict_set key_eqb (KNum t) (VRef fd) des).
  set (s4 := (<[d := Dict des4]> s3 : Store)).
  assert (L3 : length s3 = length s2).
  { unfold s3. now rewrite store_length_insert. }
  assert (L4 : length s4 = length s2).
  { unfold s4. now rewrite store_length_insert. }
  assert (A2 : forall j, (j < length s)%nat -> s2 !! j = s !! j).
  { intros j Hj. rewrite (proj2 G2) by (unfold fd; lia).
    unfold s1. now apply store_lookup_alloc. }
  assert (A3 : forall j, (j < length s)%nat -> s3 !! j = s !! j).
  { intros j Hj. unfold s3.
    rewrite store_lookup_insert_ne by (unfold fd; lia). now apply A2. }
  assert (Hf3 : s3 !! f = Some (Dict fes)) by (rewrite A3; assumption).
  assert (Hd3 : s3 !! d = Some (Dict des)) by (rewrite A3; assumption).
  assert (Hrun :
    Spall.bind
      (Spall.for_loop (PostProcStore.extract_field (VRef fd) frame) requested)
      (fun _ =>
         Spall.bind
           (setitem (VRef fd) (KStr "time") (VNum (Py.Lit t)))
           (fun _ =>
              Spall.bind (getitem (VRef f) step_name)
                (fun target => setitem target (KNum t) (VRef fd)))) s1
    = (Ok tt, s4)).
  { unfold Spall.bind at 1. rewrite E2.
    unfold Spall.bind at 1.
    rewrite (setitem_at s2 fd fes2 _ _ Hfd2). fold fes3. fold s3.
    unfold Spall.bind.
    rewrite (getitem_at s3 f fes step_name _ Hf3 Hstep).
    now rewrite (setitem_at s3 d des _ _ Hd3). }
  rewrite Hrun. clear Hrun.
  assert (G : grows d s s4).
  { split; [destruct G12; lia|].
    intros j Hj Hjd. unfold s4.
    rewrite store_lookup_insert_ne by congruence. now apply A3. }
  exists s4. split; [exact G|]. split; [reflexivity|].
  split.
  { rewrite (take_grows n0 d s s4 G Hn0) by lia. exact Hcfg. }
  split.
  { unfold s4. rewrite store_lookup_insert_ne by congruence. exact Hf3. }
  exists des4. split.
  { unfold s4. apply store_lookup_insert. lia. }
  apply (children_set Qeq_bool KNum tree_of_frame).
  - reflexivity.
  - apply (children_stable s s4 (length s)); [|destruct G; lia|exact Hch].
    intros j Hj. apply (proj2 G); lia.
  - apply models_dict. exists fd, fes3. split; [reflexivity|].
    split; [unfold fd; lia|]. split.
    { unfold s4, s3. rewrite store_lookup_insert_ne by (unfold fd; lia).
      apply store_lookup_insert. lia. }
    apply (children_set String.eqb KStr tree_of_entry).
    + reflexivity.
    + apply (children_stable s2 s4 (length s2)); [|lia|exact Hch2].
      intros j Hj. unfold s4, s3.
      rewrite !store_lookup_insert_ne by (unfold fd in *; lia).
      reflexivity.
    + reflexivity.
Qed.

(** One step: its dictionary is added, [field_data] takes the reference,
    and the loop over the frames fills it. *)
Lemma extract_step_follows (n0 : nat) (self : value)
    (sys : PostProcessingSystem) (f : nat) (odb : Odb) (step_name : string)
    (s : Store) (acc : FieldData) :
  (n0 <= f)%nat ->
  (holds (take n0 s) self (config sys) /\
   exists fes, s !! f = Some (Dict fes) /\
               children s (length s) f (encode KStr tree_of_step acc) fes) ->
  exists s',
    grows f s s' /\
    match (step ← subscript (steps odb) step_name;
           step_data ← PostProc.extract_step (config sys) step;
           Ok (sset step_name step_data acc)) with
    | Ok acc' =>
        PostProcStore.extract_step self (VRef f) odb step_name s
        = (Ok tt, s') /\
        (holds (take n0 s') self (config sys) /\
         exists fes, s' !! f = Some (Dict fes) /\
                     children s' (length s') f
                              (encode KStr tree_of_step acc') fes)
    | Raise e =>
        PostProcStore.extract_step self (VRef f) odb step_name s
        = (Raise e, s')
    end.
Proof.
  intros Hn0 [Hcfg [fes [Hf Hch]]].
  pose proof (store_lookup_lt _ _ _ Hf) as Lf.
  destruct (subscript (steps odb) step_name) as [step|e] eqn:Esub; simpl.
  2:{ exists s. split; [apply grows_refl|].
      unfold PostProcStore.extract_step, lift, Spall.bind.
      now rewrite Esub. }
  set (d := length s).
  set (s1 := (s ++ [Dict []] : Store)).
  set (fes2 := dict_set key_eqb (KStr step_name) (VRef d) fes).
  set (s2 := (<[f := Dict fes2]> s1 : Store)).
  assert (Hf1 : s1 !! f = Some (Dict fes)).
  { unfold s1. now rewrite store_lookup_alloc. }
  assert (Hrun :
    PostProcStore.extract_step self (VRef f) odb step_name s
    = Spall.for_loop (PostProcStore.extract_frame self (VRef f) step_name)
                     (frames step) s2).
  { unfold PostProcStore.extract_step, lift. unfold Spall.bind at 1.
    rewrite Esub. unfold Spall.bind at 1. unfold alloc. unfold Spall.bind.
    fold d. fold s1.
    now rewrite (setitem_at s1 f fes (KStr step_name) (VRef d) Hf1). }
  rewrite Hrun. clear Hrun.
  assert (L1 : length s1 = S (length s)).
  { unfold s1. rewrite length_app. simpl. lia. }
  assert (L2 : length s2 = S (length s)).
  { unfold s2. now rewrite store_length_insert. }
  assert (G2 : grows f s s2).
  { eapply grows_trans; [apply grows_alloc|apply grows_insert]. }
  assert (Hf2 : s2 !! f = Some (Dict fes2)).
  { unfold s2. apply store_lookup_insert. lia. }
  assert (Hd2 : s2 !! d = Some (Dict [])).
  { unfold s2, s1, d. rewrite store_lookup_insert_ne by lia.
    apply store_lookup_new. }
  destruct (for_loop_follows
              (PostProc.frame_body (config sys))
              (PostProcStore.extract_frame self (VRef f) step_name)
              (fun s acc =>
                 holds (take n0 s) self (config sys) /\
                 s !! f = Some (Dict fes2) /\
                 exists des, s !! d = Some (Dict des) /\
                             children s (length s) d
                                      (encode KNum tree_of_frame acc) des)
              (grows d) (grows_refl d) (grows_trans d)
              (fun x s acc =>
                 extract_frame_follows n0 self (config sys) f d step_name
                   fes2 x s acc ltac:(unfold d; lia) ltac:(unfold d; lia)
                   (dict_get_set_same key_eqb (KStr step_name) (VRef d) fes
                      (String.eqb_refl step_name)))
              (frames step) s2 [])
    as [s3 [G3 H3]].
  { split; [|split; [exact Hf2|]].
    - rewrite (take_grows n0 f s s2 G2 Hn0) by lia. exact Hcfg.
    - exists []. split; [exact Hd2|exact I]. }
  assert (G : grows f s s3).
  { eapply grows_inner; [exact G2|exact G3|unfold d; lia]. }
  exists s3. split; [exact G|].
  unfold PostProc.extract_step.
  destruct (for_each (PostProc.frame_body (config sys)) (frames step) [])
    as [step_data|e]; simpl.
  2:{ exact H3. }
  destruct H3 as [E3 [Hcfg3 [Hf3 [des [Hd3 Hch3]]]]].
  split; [exact E3|]. split; [exact Hcfg3|].
  exists fes2. split; [exact Hf3|].
  pose proof (store_lookup_lt _ _ _ Hd3) as Ld3.
  apply (children_set String.eqb KStr tree_of_step).
  - reflexivity.
  - apply (children_stable s s3 (length s)); [|destruct G; lia|exact Hch].
    intros j Hj. apply (proj2 G); lia.
  - apply models_dict. exists d, des. split; [reflexivity|].
    split; [unfold d; lia|]. split; [exact Hd3|exact Hch3].
Qed.

(** A store that grew from [s] without an update below the length of
    [s] is [s] followed by the objects added. *)
Lemma grows_prefix (p : nat) (s s' : Store) :
  grows p s s' -> (length s <= p)%nat ->
  s' = s ++ drop (length s) s'.
Proof.
  intros [Hlen Hag] Hp. rewrite <- (take_drop (length s) s') at 1.
  f_equal. apply list_eq. intros i.
  destruct (decide (i < length s)%nat) as [Hi|Hi].
  - rewrite lookup_take_lt by exact Hi. apply Hag; lia.
  - rewrite lookup_take_ge by lia. symmetry.
    apply lookup_ge_None. lia.
Qed.

(** Field extraction on the store follows the function on values: it
    leaves the objects of the store as they were, adds objects, and
    raises the same exception or returns a reference to a new
    dictionary that stands for the result of the function. *)
Lemma field_extraction_follows (s : Store) (self : value)
    (sys : PostProcessingSystem) (odb : Odb) :
  holds s self (config sys) ->
  exists r new,
    PostProcStore._extract_field_data self odb s = (r, s ++ new) /\
    outcome tree_of_field_data (s ++ new) (length s) r
            (PostProc._extract_field_data sys odb).
Proof.
  intros Hcfg.
  set (f := length s).
  set (s1 := (s ++ [Dict []] : Store)).
  assert (L1 : length s1 = S (length s)).
  { unfold s1. rewrite length_app. simpl. lia. }
  destruct (for_loop_follows
              (fun step_name field_data =>
                 step ← subscript (steps odb) step_name;
                 step_data ← PostProc.extract_step (config sys) step;
                 Ok (sset step_name step_data field_data))
              (PostProcStore.extract_step self (VRef f) odb)
              (fun s acc =>
                 holds (take f s) self (config sys) /\
                 exists fes, s !! f = Some (Dict fes) /\
                             children s (length s) f
                                      (encode KStr tree_of_step acc) fes)
              (grows f) (grows_refl f) (grows_trans f)
              (fun x s acc =>
                 extract_step_follows f self sys f odb x s acc (le_n f))
              (dict_keys (steps odb)) s1 [])
    as [s2 [G2 H2]].
  { split.
    - unfold s1, f. now rewrite take_app_length.
    - exists []. split; [apply store_lookup_new|exact I]. }
  assert (G : grows f s s2).
  { eapply grows_trans; [apply grows_alloc|exact G2]. }
  pose proof (grows_prefix f s s2 G (le_n _)) as Hs2.
  unfold PostProcStore._extract_field_data, PostProc._extract_field_data.
  unfold Spall.bind at 1. unfold alloc. fold f. fold s1.
  unfold Spall.bind.
  destruct (for_each _ (dict_keys (steps odb)) []) as [fd|e].
  - destruct H2 as [E2 [_ [fes [Hf2 Hch2]]]]. rewrite E2.
    exists (Ok (VRef f)), (drop (length s) s2). rewrite <- Hs2.
    split; [reflexivity|]. unfold outcome.
    pose proof (store_lookup_lt _ _ _ Hf2) as Lf2.
    apply models_dict. exists f, fes. split; [reflexivity|].
    split; [unfold f; lia|]. split; [exact Hf2|exact Hch2].
  - rewrite H2. exists (Raise e), (drop (length s) s2). rewrite <- Hs2.
    split; reflexivity.
Qed.

(** A reference to the literal of a series stands for the series. *)
Lemma series_models (s : Store) (hi lo l : nat) (h : HistorySeries) :
  (lo <= l < hi)%nat ->
  s !! l = Some (Dict (series_entries h)) ->
  models s hi (tree_of_series h) lo (VRef l).
Proof.
  intros Hb Hl. apply models_dict. exists l, (series_entries h).
  split; [reflexivity|]. split; [exact Hb|]. split; [exact Hl|].
  unfold children. simpl. auto 12.
Qed.

(** One channel: the literal is added to the store and the dictionary at
    [d], which [history_data[step_name]] refers to, takes it. *)
Lemma extract_history_follows (hl d : nat) (step_name : string)
    (step : Step) (hes : list (key * value)) (item : string * string)
    (s : Store) (acc : list (string * HistorySeries)) :
  hl <> d ->
  dict_get key_eqb (KStr step_name) hes = Some (VRef d) ->
  (s !! hl = Some (Dict hes) /\
   exists es, s !! d = Some (Dict es) /\
              children s (length s) d (encode KStr tree_of_series acc) es) ->
  exists s',
    grows d s s' /\
    match PostProc.extract_history step item acc with
    | Ok acc' =>
        PostProcStore.extract_history (VRef hl) step_name step item s
        = (Ok tt, s') /\
        (s' !! hl = Some (Dict hes) /\
         exists es, s' !! d = Some (Dict es) /\
                    children s' (length s') d
                             (encode KStr tree_of_series acc') es)
    | Raise e =>
        PostProcStore.extract_history (VRef hl) step_name step item s
        = (Raise e, s')
    end.
Proof.
  intros Hne Hstep [Hhl [es [Hd Hch]]]. destruct item as [name output_name].
  unfold PostProc.extract_history, PostProcStore.extract_history.
  assert (Hsame : exists s',
             grows d s s' /\
             @Spall.ret Store unit tt s = (Ok tt, s') /\
             (s' !! hl = Some (Dict hes) /\
              exists es, s' !! d = Some (Dict es) /\
                         children s' (length s') d
                                  (encode KStr tree_of_series acc) es)).
  { exists s. split; [apply grows_refl|]. split; [reflexivity|].
    split; [exact Hhl|]. now exists es. }
  destruct (sget name (historyRegions step)) as [region|]; [|exact Hsame].
  destruct (sget output_name (historyOutputs region)) as [ho|];
    [|exact Hsame].
  clear Hsame. unfold lift, Spall.bind.
  destruct (history_series (ho_data ho)) as [h|e]; simpl.
  2:{ exists s. split; [apply grows_refl|reflexivity]. }
  pose proof (store_lookup_lt _ _ _ Hhl) as Lhl.
  pose proof (store_lookup_lt _ _ _ Hd) as Ld.
  set (s1 := (s ++ [Dict (series_entries h)] : Store)).
  assert (Hhl1 : s1 !! hl = Some (Dict hes)).
  { unfold s1. now rewrite store_lookup_alloc. }
  assert (Hd1 : s1 !! d = Some (Dict es)).
  { unfold s1. now rewrite store_lookup_alloc. }
  rewrite (getitem_at s1 hl hes step_name (VRef d) Hhl1 Hstep).
  rewrite (setitem_at s1 d es (KStr name) (VRef (length s)) Hd1).
  set (s2 := (<[d := Dict (dict_set key_eqb (KStr name)
                                    (VRef (length s)) es)]> s1 : Store)).
  assert (L1 : length s1 = S (length s)).
  { unfold s1. rewrite length_app. simpl. lia. }
  assert (L2 : length s2 = S (length s)).
  { unfold s2. now rewrite store_length_insert. }
  assert (Hag : forall j, (j < length s)%nat -> j <> d -> s2 !! j = s !! j).
  { intros j Hj Hjc. unfold s2, s1.
    rewrite store_lookup_insert_ne by congruence.
    now apply store_lookup_alloc. }
  exists s2. split; [split; [lia|exact Hag]|].
  split; [reflexivity|]. split.
  { rewrite Hag; [exact Hhl|lia|exact Hne]. }
  eexists. split.
  { unfold s2. apply store_lookup_insert. lia. }
  apply (children_set String.eqb KStr tree_of_series).
  - reflexivity.
  - apply (children_stable s s2 (length s)); [|lia|exact Hch].
    intros j Hj. apply Hag; lia.
  - apply series_models; [lia|].
    unfold s2, s1. rewrite store_lookup_insert_ne by lia.
    apply store_lookup_new.
Qed.

(** One step of the history: its dictionary is added, [history_data]
    takes the reference, the configuration is read, and the loop over
    the channels fills the dictionary. *)
Lemma extract_step_history_follows (n0 : nat) (self : value)
    (sys : PostProcessingSystem) (hl : nat) (odb : Odb)
    (step_name : string) (s : Store) (acc : HistoryData) :
  (n0 <= hl)%nat ->
  (holds (take n0 s) self (config sys) /\
   exists hes, s !! hl = Some (Dict hes) /\
               children s (length s) hl
                        (encode KStr tree_of_channels acc) hes) ->
  exists s',
    grows hl s s' /\
    match (step ← subscript (steps odb) step_name;
           requested ← config_get "history_outputs"
                                  (history_outputs (config sys));
           step_history ← for_each (PostProc.extract_history step)
                                   requested [];
           Ok (sset step_name step_history acc)) with
    | Ok acc' =>
        PostProcStore.extract_step_history self (VRef hl) odb step_name s
        = (Ok tt, s') /\
        (holds (take n0 s') self (config sys) /\
         exists hes, s' !! hl = Some (Dict hes) /\
                     children s' (length s') hl
                              (encode KStr tree_of_channels acc') hes)
    | Raise e =>
        PostProcStore.extract_step_history self (VRef hl) odb step_name s
        = (Raise e, s')
    end.
Proof.
  intros Hn0 [Hcfg [hes [Hhl Hch]]].
  pose proof (store_lookup_lt _ _ _ Hhl) as Lhl.
  destruct (subscript (steps odb) step_name) as [step|e] eqn:Esub; simpl.
  2:{ exists s. split; [apply grows_refl|].
      unfold PostProcStore.extract_step_history, lift, Spall.bind.
      now rewrite Esub. }
  set (d := length s).
  set (s1 := (s ++ [Dict []] : Store)).
  set (hes2 := dict_set key_eqb (KStr step_name) (VRef d) hes).
  set (s2 := (<[hl := Dict hes2]> s1 : Store)).
  assert (Hhl1 : s1 !! hl = Some (Dict hes)).
  { unfold s1. now rewrite store_lookup_alloc. }
  assert (L1 : length s1 = S (length s)).
  { unfold s1. rewrite length_app. simpl. lia. }
  assert (L2 : length s2 = S (length s)).
  { unfold s2. now rewrite store_length_insert. }
  assert (G2 : grows hl s s2).
  { eapply grows_trans; [apply grows_alloc|apply grows_insert]. }
  assert (Hcfg2 : holds (take n0 s2) self (config sys)).
  { rewrite (take_grows n0 hl s s2 G2 Hn0) by lia. exact Hcfg. }
  assert (Hrun :
    PostProcStore.extract_step_history self (VRef hl) odb step_name s
    = match history_outputs (config sys) with
      | Some requested =>
          Spall.for_loop
            (PostProcStore.extract_history (VRef hl) step_name step)
            requested s2
      | None => (Raise (KeyError "history_outputs"), s2)
      end).
  { unfold PostProcStore.extract_step_history, lift.
    unfold Spall.bind at 1. rewrite Esub.
    unfold Spall.bind at 1. unfold alloc. unfold Spall.bind at 1.
    fold d. fold s1.
    rewrite (setitem_at s1 hl hes (KStr step_name) (VRef d) Hhl1).
    fold hes2. fold s2.
    apply (read_history_outputs s2 self (config sys)).
    eapply holds_take. exact Hcfg2. }
  rewrite Hrun. clear Hrun.
  destruct (history_outputs (config sys)) as [requested|]; simpl.
  2:{ exists s2. split; [exact G2|reflexivity]. }
  assert (Hhl2 : s2 !! hl = Some (Dict hes2)).
  { unfold s2. apply store_lookup_insert. lia. }
  assert (Hd2 : s2 !! d = Some (Dict [])).
  { unfold s2, s1, d. rewrite store_lookup_insert_ne by lia.
    apply store_lookup_new. }
  destruct (for_loop_follows
              (PostProc.extract_history step)
              (PostProcStore.extract_history (VRef hl) step_name step)
              (fun s acc =>
                 s !! hl = Some (Dict hes2) /\
                 exists es, s !! d = Some (Dict es) /\
                            children s (length s) d
                                     (encode KStr tree_of_series acc) es)
              (grows d) (grows_refl d) (grows_trans d)
              (fun x s acc =>
                 extract_history_follows hl d step_name step hes2 x s acc
                   ltac:(unfold d; lia)
                   (dict_get_set_same key_eqb (KStr step_name) (VRef d) hes
                      (String.eqb_refl step_name)))
              requested s2 [])
    as [s3 [G3 H3]].
  { split; [exact Hhl2|]. exists []. split; [exact Hd2|exact I]. }
  assert (G : grows hl s s3).
  { eapply grows_inner; [exact G2|exact G3|unfold d; lia]. }
  exists s3. split; [exact G|].
  destruct (for_each (PostProc.extract_history step) requested [])
    as [channels|e]; simpl.
  2:{ exact H3. }
  destruct H3 as [E3 [Hhl3 [es [Hd3 Hch3]]]].
  split; [exact E3|]. split.
  { rewrite (take_grows n0 hl s s3 G Hn0) by lia. exact Hcfg. }
  exists hes2. split; [exact Hhl3|].
  pose proof (store_lookup_lt _ _ _ Hd3) as Ld3.
  apply (children_set String.eqb KStr tree_of_channels).
  - reflexivity.
  - apply (children_stable s s3 (length s)); [|destruct G; lia|exact Hch].
    intros j Hj. apply (proj2 G); lia.
  - apply models_dict. exists d, es. split; [reflexivity|].
    split; [unfold d; lia|]. split; [exact Hd3|exact Hch3].
Qed.

(** History extraction on the store follows the function on values. *)
Lemma history_extraction_follows (s : Store) (self : value)
    (sys : PostProcessingSystem) (odb : Odb) :
  holds s self (config sys) ->
  exists r new,
    PostProcStore._extract_history_data self odb s = (r, s ++ new) /\
    outcome tree_of_history_data (s ++ new) (length s) r
            (PostProc._extract_history_data sys odb).
Proof.
  intros Hcfg.
  set (hl := length s).
  set (s1 := (s ++ [Dict []] : Store)).
  assert (L1 : length s1 = S (length s)).
  { unfold s1. rewrite length_app. simpl. lia. }
  destruct (for_loop_follows
              (fun step_name history_data =>
                 step ← subscript (steps odb) step_name;
                 requested ← config_get "history_outputs"
                                        (history_outputs (config sys));
                 step_history ← for_each (PostProc.extract_history step)
                                         requested [];
                 Ok (sset step_name step_history history_data))
              (PostProcStore.extract_step_history self (VRef hl) odb)
              (fun s acc =>
                 holds (take hl s) self (config sys) /\
                 exists hes, s !! hl = Some (Dict hes) /\
                             children s (length s) hl
                                      (encode KStr tree_of_channels acc) hes)
              (grows hl) (grows_refl hl) (grows_trans hl)
              (fun x s acc =>
                 extract_step_history_follows hl self sys hl odb x s acc
                                              (le_n hl))
              (dict_keys (steps odb)) s1 [])
    as [s2 [G2 H2]].
  { split.
    - unfold s1, hl. now rewrite take_app_length.
    - exists []. split; [apply store_lookup_new|exact I]. }
  assert (G : grows hl s s2).
  { eapply grows_trans; [apply grows_alloc|exact G2]. }
  pose proof (grows_prefix hl s s2 G (le_n _)) as Hs2.
  unfold PostProcStore._extract_history_data, PostProc._extract_history_data.
  unfold Spall.bind at 1. unfold alloc. fold hl. fold s1.
  unfold Spall.bind.
  destruct (for_each _ (dict_keys (steps odb)) []) as [hd|e].
  - destruct H2 as [E2 [_ [hes [Hhl2 Hch2]]]]. rewrite E2.
    exists (Ok (VRef hl)), (drop (length s) s2). rewrite <- Hs2.
    split; [reflexivity|]. unfold outcome.
    pose proof (store_lookup_lt _ _ _ Hhl2) as Lhl2.
    apply models_dict. exists hl, hes. split; [reflexivity|].
    split; [unfold hl; lia|]. split; [exact Hhl2|exact Hch2].
  - rewrite H2. exists (Raise e), (drop (length s) s2). rewrite <- Hs2.
    split; reflexivity.
Qed.

(** A value stands for one tree at most. *)
Lemma models_functional (s : Store) (hi hi' : nat) (t : tree) :
  forall t' lo lo' v,
    models s hi t lo v -> models s hi' t' lo' v -> t = t'.
Proof.
  induction t as [m|l|ts IH] using tree_ind'; intros t' lo lo' v H H'.
  - simpl in H. subst v. destruct t' as [m'|l'|ts']; simpl in H'.
    + congruence.
    + discriminate.
    + destruct H' as (l0 & es & Hv & _). discriminate.
  - simpl in H. subst v. destruct t' as [m'|l'|ts']; simpl in H'.
    + discriminate.
    + congruence.
    + destruct H' as (l0 & es & Hv & _). discriminate.
  - apply models_dict in H. destruct H as (l & es & -> & _ & Hl & Hc).
    destruct t' as [m'|l'|ts']; [discriminate H'|discriminate H'|].
    apply models_dict in H'.
    destruct H' as (l0 & es' & [= <-] & _ & Hl' & Hc').
    assert (es' = es) by congruence. subst es'. f_equal.
    unfold children in *. clear Hl Hl'. revert ts' es Hc Hc'.
    induction IH as [|[k t] ts Ht _ IHts]; intros [|[k' t'] ts'] es Hc Hc';
      destruct es as [|[k0 v0] es]; simpl in Hc, Hc'; try contradiction.
    + reflexivity.
    + destruct Hc as [[Hk Hm] Hr]. destruct Hc' as [[Hk' Hm'] Hr'].
      simpl in *. subst k k'.
      rewrite (Ht t' _ _ _ Hm Hm'). f_equal. eapply IHts; eassumption.
Qed.

(** What a value stands for is not changed by what is added to the
    store. *)
Lemma outcome_app {A} (tree_of : A -> tree) (s new : Store) (lo : nat)
    (r : result value) (expected : result A) :
  outcome tree_of s lo r expected ->
  outcome tree_of (s ++ new) lo r expected.
Proof.
  unfold outcome. destruct r as [v|e], expected as [a|e']; try exact id.
  apply models_stable; [|lia|rewrite length_app; lia].
  intros l Hl. apply lookup_app_l. lia.
Qed.

(** C9. The two extraction methods, run on a store of objects, are
    functions of the database and of the configuration entries they
    read, and retain nothing. From any store in which [self] holds the
    configuration, two calls of the field extraction followed by two
    calls of the history extraction each leave every object that was in
    the store as it was (the store after a call is the store before it
    followed by new objects), each raise the exception of the function
    on values or return a dictionary built of new objects that stands
    for the result of that function, so that the two calls of a method
    have structurally identical outcomes; the receiver holds the same
    configuration afterwards, and what each call returned still stands
    for the same result after the later calls. *)
Theorem extraction_deterministic (s : Store) (self : value)
    (sys : PostProcessingSystem) (odb : Odb) :
  holds s self (config sys) ->
  exists f1 new1 f2 new2 h1 new3 h2 new4,
    let s1 := s ++ new1 in
    let s2 := s1 ++ new2 in
    let s3 := s2 ++ new3 in
    let s4 := s3 ++ new4 in
    follows tree_of_field_data
            (PostProcStore._extract_field_data self odb) s
            (PostProc._extract_field_data sys odb) f1 new1 /\
    follows tree_of_field_data
            (PostProcStore._extract_field_data self odb) s1
            (PostProc._extract_field_data sys odb) f2 new2 /\
    follows tree_of_history_data
            (PostProcStore._extract_history_data self odb) s2
            (PostProc._extract_history_data sys odb) h1 new3 /\
    follows tree_of_history_data
            (PostProcStore._extract_history_data self odb) s3
            (PostProc._extract_history_data sys odb) h2 new4 /\
    holds s4 self (config sys) /\
    outcome tree_of_field_data s4 (length s) f1
            (PostProc._extract_field_data sys odb) /\
    outcome tree_of_field_data s4 (length s1) f2
            (PostProc._extract_field_data sys odb) /\
    outcome tree_of_history_data s4 (length s2) h1
            (PostProc._extract_history_data sys odb).
Proof.
  intros H0.
  destruct (field_extraction_follows s self sys odb H0)
    as (f1 & new1 & E1 & O1).
  pose proof (holds_app s new1 self _ H0) as H1.
  destruct (field_extraction_follows _ self sys odb H1)
    as (f2 & new2 & E2 & O2).
  pose proof (holds_app _ new2 self _ H1) as H2.
  destruct (history_extraction_follows _ self sys odb H2)
    as (h1 & new3 & E3 & O3).
  pose proof (holds_app _ new3 self _ H2) as H3.
  destruct (history_extraction_follows _ self sys odb H3)
    as (h2 & new4 & E4 & O4).
  pose proof (holds_app _ new4 self _ H3) as H4.
  exists f1, new1, f2, new2, h1, new3, h2, new4. cbv zeta.
  split; [split; assumption|]. split; [split; assumption|].
  split; [split; assumption|]. split; [split; assumption|].
  split; [exact H4|].
  split; [|split].
  - now do 3 apply outcome_app.
  - now do 2 apply outcome_app.
  - now apply outcome_app.
Qed.

End StoreFacts.

Section StoreWitnesses.
Import PostProc PostProcSpec PostProcStore.

(** Two calls on the sample store: each adds the eight dictionaries of
    the field data of the sample database (the result, the step, and per
    frame the snapshot, its stress components and their sample), the
    first at the places from 4 on and the second from 12 on, and the
    four objects that were there are as they were. *)
Lemma store_sample_run :
  exists s1 s2,
    PostProcStore._extract_field_data (VRef 0) odb_sample store_sample
    = (Ok (VRef 4), s1) /\
    PostProcStore._extract_field_data (VRef 0) odb_sample s1
    = (Ok (VRef 12), s2) /\
    length s1 = 12%nat /\ length s2 = 20%nat /\
    take 4 s2 = store_sample /\
    s2 !! 4%nat = Some (Dict [(KStr "Step-1", VRef 5)]) /\
    s2 !! 12%nat = Some (Dict [(KStr "Step-1", VRef 13)]).
Proof.
  do 2 eexists. split; [vm_compute; reflexivity|].
  split; [vm_compute; reflexivity|]. repeat split.
Qed.

Lemma extraction_deterministic_witness :
  exists f1 new1 f2 new2 h1 new3 h2 new4,
    let s1 := store_sample ++ new1 in
    let s2 := s1 ++ new2 in
    let s3 := s2 ++ new3 in
    let s4 := s3 ++ new4 in
    follows tree_of_field_data
            (PostProcStore._extract_field_data (VRef 0) odb_sample)
            store_sample
            (PostProc._extract_field_data system0 odb_sample) f1 new1 /\
    follows tree_of_field_data
            (PostProcStore._extract_field_data (VRef 0) odb_sample) s1
            (PostProc._extract_field_data system0 odb_sample) f2 new2 /\
    follows tree_of_history_data
            (PostProcStore._extract_history_data (VRef 0) odb_sample) s2
            (PostProc._extract_history_data system0 odb_sample) h1 new3 /\
    follows tree_of_history_data
            (PostProcStore._extract_history_data (VRef 0) odb_sample) s3
            (PostProc._extract_history_data system0 odb_sample) h2 new4 /\
    holds s4 (VRef 0) (config system0) /\
    outcome tree_of_field_data s4 (length store_sample) f1
            (PostProc._extract_field_data system0 odb_sample) /\
    outcome tree_of_field_data s4 (length s1) f2
            (PostProc._extract_field_data system0 odb_sample) /\
    outcome tree_of_history_data s4 (length s2) h1
            (PostProc._extract_history_data system0 odb_sample).
Proof.
  apply (extraction_deterministic store_sample (VRef 0) system0 odb_sample).
  exists 0%nat, [(KStr "config", VRef 1)], 1%nat,
         [(KStr "field_outputs", VRef 2); (KStr "history_outputs", VRef 3)].
  repeat split; try reflexivity; eexists; split; reflexivity.
Defined.

End StoreWitnesses.
